(** * libmbbootimg: the Loki reader and the Android/Bump writer

    A shallow embedding of [libmbbootimg/src/format/loki_reader.cpp],
    [libmbbootimg/src/format/android_writer.cpp] and
    [libmbbootimg/src/entry.cpp] (DualBootPatcher), with the properties of
    the boot image format engine stated over it.

    Conventions.  Fixed-width integers are [Z] with the wrap-around written
    out ([u32], [u64], [i32], [i64]).  Bytes are [Z] in [0, 256).  A file
    is its contents, its position and a schedule of injected I/O faults, so
    that every fallible stream call of the source has both of its outcomes
    in the model. *)

From Stdlib Require Import ZArith List Bool Lia.
Import ListNotations.
Open Scope Z_scope.

Set Implicit Arguments.

(** ** Fixed-width integers *)

Definition u32 (x : Z) : Z := x mod 2 ^ 32.
Definition u64 (x : Z) : Z := x mod 2 ^ 64.

(** [static_cast<int32_t>] and [static_cast<int64_t>] of an unsigned value:
    two's complement. *)
Definition i32 (x : Z) : Z :=
  let y := x mod 2 ^ 32 in if y <? 2 ^ 31 then y else y - 2 ^ 32.
Definition i64 (x : Z) : Z :=
  let y := x mod 2 ^ 64 in if y <? 2 ^ 63 then y else y - 2 ^ 64.

Definition UINT32_MAX : Z := 2 ^ 32 - 1.

Definition byte := Z.

Definition zlength {A : Type} (l : list A) : Z := Z.of_nat (length l).

(** [mb_htole32] followed by a byte-wise view of the word, and its inverse
    ([mb_le32toh] of four bytes read from the file). *)
Definition le32_bytes (x : Z) : list byte :=
  [ x mod 256; (x / 256) mod 256; (x / 65536) mod 256; (x / 16777216) mod 256 ].

Definition le32_value (l : list byte) : Z :=
  match l with
  | [a; b; c; d] => a + 256 * b + 65536 * c + 16777216 * d
  | _ => 0
  end.

Fixpoint bytes_eqb (a b : list byte) : bool :=
  match a, b with
  | [], [] => true
  | x :: a', y :: b' => (x =? y) && bytes_eqb a' b'
  | _, _ => false
  end.

(** ** Errors *)

Inductive LokiError : Set :=
| LokiHeaderTooSmall
| InvalidLokiMagic
| ShellcodeNotFound
| UnexpectedEndOfFile
| InvalidKernelAddress
| PageSizeCannotBeZero
| NoRamdiskGzipHeaderFound
| RamdiskOffsetGreaterThanAbootOffset
| FailedToDetermineRamdiskSize
| UnexpectedFileTruncation.

Inductive AndroidError : Set :=
| HeaderNotFound
| HeaderOutOfBounds
| HeaderSetFieldsFailed
| MissingPageSize
| InvalidPageSize
| BoardNameTooLong
| KernelCmdlineTooLong
| Sha1InitError
| Sha1UpdateError.

(** An error of the byte stream: an error number and whether it leaves the
    stream unusable ([File::is_fatal]). *)
Record FileError : Set := mkFileError { fe_code : Z; fe_fatal : bool }.

Inductive SegmentError : Set :=
| InvalidEntries
| EntryTypeMismatch
| EntrySizeOverflow
| NoCurrentEntry.

(** The error code held by a Reader or Writer; the constructor is the
    error category. *)
Inductive Error : Set :=
| ErrFile (e : FileError)
| ErrLoki (e : LokiError)
| ErrAndroid (e : AndroidError)
| ErrSegment (e : SegmentError).

Definition is_loki_category (e : Error) : bool :=
  match e with ErrLoki _ => true | _ => false end.

(** ** The byte stream *)

Module Stream.

(** Modelled from the spec: the ByteStream of section 6 ([mb::File] is not
    part of the sources).  A positioned byte sequence; every call first
    consumes one entry of the fault schedule and fails with that error when
    the entry holds one.  An exhausted schedule injects nothing. *)
Record File : Type := mkFile {
  f_data : list byte;
  f_pos : Z;
  f_faults : list (option FileError);
  f_fatal : bool
}.

Inductive Whence : Set := SEEK_SET | SEEK_CUR | SEEK_END.

Definition EINVAL : FileError := mkFileError 22 false.

(** The fault, if any, that the schedule holds for the next call. *)
Definition io_step (f : File) : option FileError * File :=
  match f_faults f with
  | [] => (None, f)
  | None :: s => (None, mkFile (f_data f) (f_pos f) s (f_fatal f))
  | Some e :: s =>
      (Some e, mkFile (f_data f) (f_pos f) s (f_fatal f || fe_fatal e))
  end.

Definition set_pos (p : Z) (f : File) : File :=
  mkFile (f_data f) p (f_faults f) (f_fatal f).

Definition set_data (d : list byte) (f : File) : File :=
  mkFile d (f_pos f) (f_faults f) (f_fatal f).

Definition is_fatal (f : File) : bool := f_fatal f.

(** Modelled from the spec: [seek(offset, whence)] of section 6.  It
    yields the new absolute offset, which may lie beyond the end of the
    data but not before its start. *)
Definition seek (off : Z) (w : Whence) (f : File) : (FileError + Z) * File :=
  match io_step f with
  | (Some e, f1) => (inl e, f1)
  | (None, f1) =>
      let base := match w with
                  | SEEK_SET => 0
                  | SEEK_CUR => f_pos f1
                  | SEEK_END => zlength (f_data f1)
                  end in
      let p := base + off in
      if p <? 0 then (inl EINVAL, f1) else (inr p, set_pos p f1)
  end.

Definition slice (d : list byte) (off n : Z) : list byte :=
  firstn (Z.to_nat n) (skipn (Z.to_nat off) d).

(** Modelled from the spec: [read_fully] of section 6
    ([file_read_fully] of mbcommon).  It reads until the buffer is full or
    the data ends and returns what was read (the count is its length). *)
Definition read_fully (n : Z) (f : File) : (FileError + list byte) * File :=
  match io_step f with
  | (Some e, f1) => (inl e, f1)
  | (None, f1) =>
      let got := slice (f_data f1) (f_pos f1) n in
      (inr got, set_pos (f_pos f1 + zlength got) f1)
  end.

(** Bytes [buf] stored at offset [p]; a gap between the old end and [p]
    reads as zeros. *)
Definition write_at (p : Z) (buf d : list byte) : list byte :=
  firstn (Z.to_nat p) d
  ++ repeat 0 (Z.to_nat p - length d)
  ++ buf
  ++ skipn (Z.to_nat p + length buf) d.

(** Modelled from the spec: [write_fully] of section 6
    ([file_write_fully] of mbcommon).  It writes the whole buffer and
    returns the count. *)
Definition write_fully (buf : list byte) (f : File) : (FileError + Z) * File :=
  match io_step f with
  | (Some e, f1) => (inl e, f1)
  | (None, f1) =>
      (inr (zlength buf),
       set_pos (f_pos f1 + zlength buf)
               (set_data (write_at (f_pos f1) buf (f_data f1)) f1))
  end.

Inductive FileSearchAction : Set := Continue | Stop.

(** The pattern occurs at offset [off] and ends at or before [hi]. *)
Definition match_at (pat d : list byte) (hi off : Z) : bool :=
  (0 <=? off) && (off + zlength pat <=? hi)
  && bytes_eqb (slice d off (zlength pat)) pat.

(** Offsets in [lo, hi) at which the pattern occurs, in increasing order. *)
Definition occurrences (pat d : list byte) (lo hi : Z) : list Z :=
  filter (match_at pat d hi)
         (map (fun i => lo + Z.of_nat i) (seq 0 (Z.to_nat (hi - lo)))).

Section Search.
Variable U : Type.
Variable result_cb : File -> U -> Z -> (FileError + FileSearchAction) * U * File.

(** The matches are handed to the callback one by one, until it fails,
    answers [Stop], or [budget] of them have been reported (a negative
    budget is unbounded). *)
Fixpoint report (ms : list Z) (budget : Z) (u : U) (f : File)
  : (FileError + unit) * U * File :=
  match ms with
  | [] => (inr tt, u, f)
  | m :: ms' =>
      if budget =? 0 then (inr tt, u, f)
      else
        match result_cb f u m with
        | (inl e, u', f') => (inl e, u', f')
        | (inr Stop, u', f') => (inr tt, u', f')
        | (inr Continue, u', f') =>
            report ms' (if budget <? 0 then budget else budget - 1) u' f'
        end
  end.

(** Modelled from the spec: [search(start, end, buffer_hint, needle,
    max_matches, callback)] of section 6 ([file_search] of mbcommon is not
    part of the sources).  A forward search; a negative [start] means
    from the current position, a negative [end] means to the end of the
    data, a negative [max_matches] means unbounded.  The position the
    search itself leaves behind is unspecified; here it is the one the
    callback left. *)
Definition file_search (start end_ bsize : Z) (pattern : list byte)
           (max_matches : Z) (u : U) (f : File)
  : (FileError + unit) * U * File :=
  match io_step f with
  | (Some e, f1) => (inl e, u, f1)
  | (None, f1) =>
      let lo := if start <? 0 then f_pos f1 else start in
      let hi := if end_ <? 0 then zlength (f_data f1) else end_ in
      report (occurrences pattern (f_data f1) lo hi) max_matches u f1
  end.
End Search.

End Stream.
Import Stream.

(** ** State and error passing *)

(** A computation over a state [S] that either yields a value or stops
    with the error handed to [set_error]. *)
Definition ST (S A : Type) : Type := S -> (Error + A) * S.

Definition ret {S A : Type} (a : A) : ST S A := fun s => (inr a, s).

Definition fail {S A : Type} (e : Error) : ST S A := fun s => (inl e, s).

Definition bind {S A B : Type} (m : ST S A) (k : A -> ST S B) : ST S B :=
  fun s => match m s with
           | (inl e, s') => (inl e, s')
           | (inr a, s') => k a s'
           end.

Notation "x <- m ;; k" := (bind m (fun x => k))
  (at level 61, m at next level, right associativity).

(** What the static helpers of the reader see: the file and the fatal flag
    of the [Reader] facade. *)
Record RState : Type := mkRState { rs_file : File; rs_fatal : bool }.

(** A stream call made from the reader.  On failure the source does
    [reader.set_error(ret.error(), ...); if (file.is_fatal())
    reader.set_fatal(); return false]. *)
Definition io {A : Type} (op : File -> (FileError + A) * File) : ST RState A :=
  fun s => match op (rs_file s) with
           | (inl e, f') =>
               (inl (ErrFile e), mkRState f' (rs_fatal s || is_fatal f'))
           | (inr a, f') => (inr a, mkRState f' (rs_fatal s))
           end.

(** A search made from the reader; the value is the callback's userdata. *)
Definition io_search {U : Type}
           (op : File -> (FileError + unit) * U * File) : ST RState U :=
  fun s => match op (rs_file s) with
           | (inl e, _, f') =>
               (inl (ErrFile e), mkRState f' (rs_fatal s || is_fatal f'))
           | (inr _, u, f') => (inr u, mkRState f' (rs_fatal s))
           end.

(** ** Headers, entries and constants *)

(** Modelled from the spec: the Android header of section 4.2 in host
    byte order (the struct is declared in [android_p.h], which is not part
    of the sources); [magic], [name], [cmdline] and [id] are byte arrays.
    [extra_cmdline], which the sources never touch, is left out. *)
Record AndroidHeader : Type := mkAndroidHeader {
  magic : list byte;
  kernel_size : Z;
  kernel_addr : Z;
  ramdisk_size : Z;
  ramdisk_addr : Z;
  second_size : Z;
  second_addr : Z;
  tags_addr : Z;
  page_size : Z;
  dt_size : Z;
  unused : Z;
  name : list byte;
  cmdline : list byte;
  id : list byte
}.

(** Modelled from the spec: the Loki header of section 6 (the struct is
    declared in [loki_p.h]): magic, build, the two original sizes and the
    ramdisk address, little-endian, in a reserved area of 0x50 bytes. *)
Record LokiHeader : Type := mkLokiHeader {
  lh_magic : list byte;
  build : Z;
  orig_kernel_size : Z;
  orig_ramdisk_size : Z;
  lh_ramdisk_addr : Z
}.

Inductive EntryType : Set :=
| ENTRY_TYPE_KERNEL
| ENTRY_TYPE_RAMDISK
| ENTRY_TYPE_SECONDBOOT
| ENTRY_TYPE_DEVICE_TREE.

Definition EntryType_eqb (a b : EntryType) : bool :=
  match a, b with
  | ENTRY_TYPE_KERNEL, ENTRY_TYPE_KERNEL
  | ENTRY_TYPE_RAMDISK, ENTRY_TYPE_RAMDISK
  | ENTRY_TYPE_SECONDBOOT, ENTRY_TYPE_SECONDBOOT
  | ENTRY_TYPE_DEVICE_TREE, ENTRY_TYPE_DEVICE_TREE => true
  | _, _ => false
  end.

(** [mb::bootimg::Entry] of [entry.cpp]: two optional fields. *)
Record Entry : Type := mkEntry {
  m_type : option EntryType;
  m_size : option Z
}.

Definition option_eqb {A : Type} (eqb : A -> A -> bool) (a b : option A)
  : bool :=
  match a, b with
  | Some x, Some y => eqb x y
  | None, None => true
  | _, _ => false
  end.

(** [Entry::operator==]. *)
Definition Entry_eqb (a b : Entry) : bool :=
  option_eqb EntryType_eqb (m_type a) (m_type b)
  && option_eqb Z.eqb (m_size a) (m_size b).

(** [Entry::operator!=]. *)
Definition Entry_neqb (a b : Entry) : bool := negb (Entry_eqb a b).

Definition Entry_clear (e : Entry) : Entry := mkEntry None None.
Definition Entry_set_type (t : option EntryType) (e : Entry) : Entry :=
  mkEntry t (m_size e).
Definition Entry_set_size (n : option Z) (e : Entry) : Entry :=
  mkEntry (m_type e) n.

Inductive HeaderField : Set :=
| FIELD_KERNEL_ADDRESS
| FIELD_RAMDISK_ADDRESS
| FIELD_SECONDBOOT_ADDRESS
| FIELD_KERNEL_TAGS_ADDRESS
| FIELD_PAGE_SIZE
| FIELD_BOARD_NAME
| FIELD_KERNEL_CMDLINE.

(** The logical header handed to and taken from the caller ([header.h]):
    every field is optional. *)
Record Header : Type := mkHeader {
  supported_fields : list HeaderField;
  board_name : option (list byte);
  kernel_cmdline : option (list byte);
  h_page_size : option Z;
  kernel_address : option Z;
  ramdisk_address : option Z;
  secondboot_address : option Z;
  kernel_tags_address : option Z
}.

(** Modelled from the spec: the constants of [android_p.h], [loki_p.h],
    [loki_defs.h] and [bump_defs.h], which are not part of the sources. *)
Definition BOOT_MAGIC : list byte := [65; 78; 68; 82; 79; 73; 68; 33].
Definition BOOT_MAGIC_SIZE : Z := 8.
Definition LOKI_MAGIC : list byte := [76; 79; 75; 73].
Definition LOKI_MAGIC_SIZE : Z := 4.
Definition LOKI_MAGIC_OFFSET : Z := 0x400.
Definition LOKI_HEADER_SIZE : Z := 0x50.
Definition LOKI_MAX_HEADER_OFFSET : Z := 32 * 1024.
Definition MAX_HEADER_OFFSET : Z := 512 * 1024.
Definition DEFAULT_KERNEL_OFFSET : Z := 0x00008000.
Definition DEFAULT_TAGS_OFFSET : Z := 0x00000100.
Definition BOOT_NAME_SIZE : Z := 16.
Definition BOOT_ARGS_SIZE : Z := 512.
Definition SHA_DIGEST_LENGTH : Z := 20.

Definition SAMSUNG_SEANDROID_MAGIC : list byte :=
  [83; 69; 65; 78; 68; 82; 79; 73; 68; 69; 78; 70; 79; 82; 67; 69].
Definition SAMSUNG_SEANDROID_MAGIC_SIZE : Z := 16.

Definition BUMP_MAGIC : list byte :=
  [0x41; 0xa9; 0xe4; 0x67; 0x74; 0x4d; 0x1d; 0x1b;
   0xa4; 0x29; 0xf2; 0xec; 0xea; 0x65; 0x52; 0x79].
Definition BUMP_MAGIC_SIZE : Z := 16.

Definition NEW_SUPPORTED_FIELDS : list HeaderField :=
  [FIELD_KERNEL_ADDRESS; FIELD_RAMDISK_ADDRESS; FIELD_SECONDBOOT_ADDRESS;
   FIELD_KERNEL_TAGS_ADDRESS; FIELD_PAGE_SIZE; FIELD_BOARD_NAME;
   FIELD_KERNEL_CMDLINE].

Definition OLD_SUPPORTED_FIELDS : list HeaderField :=
  [FIELD_KERNEL_ADDRESS; FIELD_RAMDISK_ADDRESS; FIELD_SECONDBOOT_ADDRESS;
   FIELD_PAGE_SIZE; FIELD_BOARD_NAME; FIELD_KERNEL_CMDLINE].

(** Modelled from the spec: [is_lg_ramdisk_address] of section 4.4. *)
Definition is_lg_ramdisk_address (address : Z) : bool :=
  (address =? 0x88f02000) || (address =? 0x8ef02000).

(** Modelled from the spec: [align_page_size<T>] of [align_p.h], the
    padding that brings [item_size] to the next multiple of the page size:
    [(page_size - (item_size mod page_size)) mod page_size]. *)
Definition align_page_size (item_size page_size : Z) : Z :=
  (page_size - item_size mod page_size) mod page_size.

(** The bytes of a char array up to its first NUL, as [std::string]'s
    constructor from a C string takes them. *)
Fixpoint c_str (l : list byte) : list byte :=
  match l with
  | [] => []
  | b :: l' => if b =? 0 then [] else b :: c_str l'
  end.

(** [loki_fix_header_byte_order] applied to the raw header bytes. *)
Definition loki_header_of_bytes (raw : list byte) : LokiHeader :=
  mkLokiHeader (slice raw 0 4)
               (le32_value (slice raw 4 4))
               (le32_value (slice raw 8 4))
               (le32_value (slice raw 12 4))
               (le32_value (slice raw 16 4)).

(** ** The segment reader *)

Record SegmentReaderEntry : Type := mkSegmentReaderEntry {
  sre_type : EntryType;
  sre_offset : Z;
  sre_size : Z;
  sre_can_truncate : bool
}.

Record SegmentReader : Type := mkSegmentReader {
  sr_entries : list SegmentReaderEntry;
  sr_cursor : option nat
}.

Fixpoint has_type (t : EntryType) (l : list SegmentReaderEntry) : bool :=
  match l with
  | [] => false
  | e :: l' => EntryType_eqb t (sre_type e) || has_type t l'
  end.

Fixpoint distinct_types (l : list SegmentReaderEntry) : bool :=
  match l with
  | [] => true
  | e :: l' => negb (has_type (sre_type e) l') && distinct_types l'
  end.

(** Modelled from the spec: [SegmentReader::set_entries] of section 4.1
    (the segment engine is not part of the sources).  Installs the list,
    rejects an empty list and a list that holds a type twice, and puts the
    cursor before the first entry. *)
Definition SegmentReader_set_entries (entries : list SegmentReaderEntry)
           (seg : SegmentReader) : Error + SegmentReader :=
  match entries with
  | [] => inl (ErrSegment InvalidEntries)
  | _ => if distinct_types entries
         then inr (mkSegmentReader entries None)
         else inl (ErrSegment InvalidEntries)
  end.

(** ** The Loki reader ([loki_reader.cpp]) *)

Module Loki.

Record LokiFormatReader : Type := mkLokiFormatReader {
  _hdr : AndroidHeader;
  _loki_hdr : LokiHeader;
  _loki_offset : option Z;
  _header_offset : option Z;
  _seg : SegmentReader
}.

(** What a method of the reader sees: the object and the reader state. *)
Definition OState : Type := (LokiFormatReader * RState)%type.

Definition lift {A : Type} (m : ST RState A) : ST OState A :=
  fun st => match m (snd st) with (r, s') => (r, (fst st, s')) end.

Definition get_self : ST OState LokiFormatReader :=
  fun st => (inr (fst st), st).

Definition put_self (o : LokiFormatReader) : ST OState unit :=
  fun st => (inr tt, (o, snd st)).

Definition set_loki (h : LokiHeader) (off : Z) (o : LokiFormatReader) :=
  mkLokiFormatReader (_hdr o) h (Some off) (_header_offset o) (_seg o).

Definition set_android (h : AndroidHeader) (off : Z) (o : LokiFormatReader) :=
  mkLokiFormatReader h (_loki_hdr o) (_loki_offset o) (Some off) (_seg o).

Definition set_seg (g : SegmentReader) (o : LokiFormatReader) :=
  mkLokiFormatReader (_hdr o) (_loki_hdr o) (_loki_offset o)
                     (_header_offset o) g.

(** [LokiFormatReader::find_loki_header]. *)
Definition find_loki_header : ST RState (LokiHeader * Z) :=
  _ <- io (seek LOKI_MAGIC_OFFSET SEEK_SET) ;;
  raw <- io (read_fully LOKI_HEADER_SIZE) ;;
  if negb (zlength raw =? LOKI_HEADER_SIZE) then
    fail (ErrLoki LokiHeaderTooSmall)
  else if negb (bytes_eqb (slice raw 0 LOKI_MAGIC_SIZE) LOKI_MAGIC) then
    fail (ErrLoki InvalidLokiMagic)
  else
    ret (loki_header_of_bytes raw, LOKI_MAGIC_OFFSET).

(** The callback of the shellcode search: it stores the match offset in the
    userdata and asks to continue. *)
Definition shellcode_cb (file_ : File) (userdata : Z) (offset_ : Z)
  : (FileError + FileSearchAction) * Z * File :=
  (inr Continue, offset_, file_).

(** [SearchResult] of [find_gzip_offset_old]. *)
Record SearchResult : Type := mkSearchResult {
  flag0_offset : option Z;
  flag8_offset : option Z
}.

Definition is_some {A : Type} (o : option A) : bool :=
  match o with Some _ => true | None => false end.

(** The callback of the gzip search. *)
Definition gzip_cb (file_ : File) (result_ : SearchResult) (offset : Z)
  : (FileError + FileSearchAction) * SearchResult * File :=
  if is_some (flag0_offset result_) && is_some (flag8_offset result_) then
    (inr Stop, result_, file_)
  else
    match seek 0 SEEK_CUR file_ with
    | (inl e, f1) => (inl e, result_, f1)
    | (inr orig_offset, f1) =>
    match seek (i64 (u64 (offset + 3))) SEEK_SET f1 with
    | (inl e, f2) => (inl e, result_, f2)
    | (inr _, f2) =>
    match read_fully 1 f2 with
    | (inl e, f3) => (inl e, result_, f3)
    | (inr [flags], f3) =>
        let result' :=
          if negb (is_some (flag0_offset result_)) && (flags =? 0x00) then
            mkSearchResult (Some offset) (flag8_offset result_)
          else if negb (is_some (flag8_offset result_)) && (flags =? 0x08) then
            mkSearchResult (flag0_offset result_) (Some offset)
          else result_ in
        match seek (i64 orig_offset) SEEK_SET f3 with
        | (inl e, f4) => (inl e, result', f4)
        | (inr _, f4) => (inr Continue, result', f4)
        end
    | (inr _, f3) => (inr Stop, result_, f3)
    end end end.

Definition gzip_deflate_magic : list byte := [0x1f; 0x8b; 0x08].

(** [LokiFormatReader::find_gzip_offset_old]. *)
Definition find_gzip_offset_old (start_offset : Z) : ST RState Z :=
  result <- io_search (file_search gzip_cb start_offset (-1) 0
                                   gzip_deflate_magic (-1)
                                   (mkSearchResult None None)) ;;
  match flag8_offset result, flag0_offset result with
  | Some o8, _ => ret o8
  | None, Some o0 => ret o0
  | None, None => fail (ErrLoki NoRamdiskGzipHeaderFound)
  end.

(** [LokiFormatReader::find_ramdisk_size_old], the active [#if 1] branch.
    [aboot_size] is an [int32_t]; its negation is taken in 32 bits. *)
Definition find_ramdisk_size_old (hdr : AndroidHeader) (ramdisk_offset : Z)
  : ST RState Z :=
  let aboot_size :=
    if is_lg_ramdisk_address (ramdisk_addr hdr) then i32 (page_size hdr)
    else 0x200 in
  aboot_offset <- io (seek (i32 (- aboot_size)) SEEK_END) ;;
  if ramdisk_offset >? aboot_offset then
    fail (ErrLoki RamdiskOffsetGreaterThanAbootOffset)
  else
    ret (u32 (aboot_offset - ramdisk_offset)).

(** [LokiFormatReader::find_linux_kernel_size]. *)
Definition find_linux_kernel_size (kernel_offset : Z) : ST RState Z :=
  _ <- io (seek (u32 (kernel_offset + 0x2c)) SEEK_SET) ;;
  raw <- io (read_fully 4) ;;
  if negb (zlength raw =? 4) then fail (ErrLoki UnexpectedEndOfFile)
  else ret (le32_value raw).

(** What [read_header_old] and [read_header_new] hand back through their
    out-parameters. *)
Record Layout : Type := mkLayout {
  lo_header : Header;
  lo_kernel_offset : Z;
  lo_kernel_size : Z;
  lo_ramdisk_offset : Z;
  lo_ramdisk_size : Z;
  lo_dt_offset : Z
}.

(** [board_name] and [cmdline] of the two [read_header_*] functions: the
    array, NUL-terminated, as a string. *)
Definition array_string (arr : list byte) : list byte := c_str arr.

Section Reader.

(** [LOKI_SHELLCODE] of [loki_p.h], which is not part of the sources: the
    bytes of the shellcode; [LOKI_SHELLCODE_SIZE] is their number. *)
Variable LOKI_SHELLCODE : list byte.

Definition LOKI_SHELLCODE_SIZE : Z := zlength LOKI_SHELLCODE.

(** [android::AndroidFormatReader::find_header] of [android_reader.cpp],
    which is not part of the sources: given the largest header offset it
    yields the Android header and its offset, or fails. *)
Variable android_find_header : Z -> ST RState (AndroidHeader * Z).

(** The needle of the shellcode search: [LOKI_SHELLCODE] without its last
    nine bytes. *)
Definition shellcode_pattern : list byte :=
  firstn (Z.to_nat (LOKI_SHELLCODE_SIZE - 9)) LOKI_SHELLCODE.

(** [LokiFormatReader::find_ramdisk_address]. *)
Definition find_ramdisk_address (hdr : AndroidHeader) (loki_hdr : LokiHeader)
  : ST RState Z :=
  if negb (lh_ramdisk_addr loki_hdr =? 0) then
    offset <- io_search (file_search shellcode_cb (-1) (-1) 0
                                     shellcode_pattern 1 0) ;;
    if offset =? 0 then fail (ErrLoki ShellcodeNotFound)
    else
      let offset := u64 (offset + (LOKI_SHELLCODE_SIZE - 5)) in
      _ <- io (seek (i64 offset) SEEK_SET) ;;
      raw <- io (read_fully 4) ;;
      if negb (zlength raw =? 4) then fail (ErrLoki UnexpectedEndOfFile)
      else ret (le32_value raw)
  else
    if kernel_addr hdr >? UINT32_MAX - 0x01ff8000 then
      fail (ErrLoki InvalidKernelAddress)
    else
      ret (u32 (kernel_addr hdr + 0x01ff8000)).

(** [LokiFormatReader::read_header_old]. *)
Definition read_header_old (hdr : AndroidHeader) (loki_hdr : LokiHeader)
  : ST RState Layout :=
  if page_size hdr =? 0 then fail (ErrLoki PageSizeCannotBeZero)
  else
    let tags_addr :=
      u32 (kernel_addr hdr - DEFAULT_KERNEL_OFFSET + DEFAULT_TAGS_OFFSET) in
    kernel_size <- find_linux_kernel_size (page_size hdr) ;;
    gzip_offset <- find_gzip_offset_old
        (u32 (page_size hdr + kernel_size
              + u32 (align_page_size kernel_size (page_size hdr)))) ;;
    ramdisk_size <- find_ramdisk_size_old hdr (u32 gzip_offset) ;;
    ramdisk_addr <- find_ramdisk_address hdr loki_hdr ;;
    let header :=
      mkHeader OLD_SUPPORTED_FIELDS
               (Some (array_string (name hdr)))
               (Some (array_string (cmdline hdr)))
               (Some (page_size hdr))
               (Some (kernel_addr hdr))
               (Some ramdisk_addr)
               (Some (second_addr hdr))
               (Some tags_addr) in
    let pos := 0 in
    let pos := u64 (pos + page_size hdr) in
    let kernel_offset := pos in
    let pos := u64 (pos + kernel_size) in
    let pos := u64 (pos + u64 (align_page_size pos (page_size hdr))) in
    let pos := gzip_offset in
    let ramdisk_offset := pos in
    let pos := u64 (pos + ramdisk_size) in
    let pos := u64 (pos + u64 (align_page_size pos (page_size hdr))) in
    ret (mkLayout header kernel_offset kernel_size
                  ramdisk_offset ramdisk_size 0).

(** [LokiFormatReader::read_header_new]. *)
Definition read_header_new (hdr : AndroidHeader) (loki_hdr : LokiHeader)
  : ST RState Layout :=
  if page_size hdr =? 0 then fail (ErrLoki PageSizeCannotBeZero)
  else
    let fake_size :=
      if is_lg_ramdisk_address (ramdisk_addr hdr) then page_size hdr
      else 0x200 in
    ramdisk_addr <- find_ramdisk_address hdr loki_hdr ;;
    let header :=
      mkHeader NEW_SUPPORTED_FIELDS
               (Some (array_string (name hdr)))
               (Some (array_string (cmdline hdr)))
               (Some (page_size hdr))
               (Some (kernel_addr hdr))
               (Some ramdisk_addr)
               (Some (second_addr hdr))
               (Some (tags_addr hdr)) in
    let pos := 0 in
    let pos := u64 (pos + page_size hdr) in
    let kernel_offset := pos in
    let pos := u64 (pos + orig_kernel_size loki_hdr) in
    let pos := u64 (pos + u64 (align_page_size pos (page_size hdr))) in
    let ramdisk_offset := pos in
    let pos := u64 (pos + orig_ramdisk_size loki_hdr) in
    let pos := u64 (pos + u64 (align_page_size pos (page_size hdr))) in
    let pos := if negb (dt_size hdr =? 0) then u64 (pos + fake_size)
               else pos in
    let dt_offset := pos in
    ret (mkLayout header kernel_offset (orig_kernel_size loki_hdr)
                  ramdisk_offset (orig_ramdisk_size loki_hdr) dt_offset).

(** The discriminator of [read_header]: a new-style image records the
    original values in the Loki header. *)
Definition is_new_style (loki_hdr : LokiHeader) : bool :=
  negb (orig_kernel_size loki_hdr =? 0)
  && negb (orig_ramdisk_size loki_hdr =? 0)
  && negb (lh_ramdisk_addr loki_hdr =? 0).

(** The entries [read_header] pushes. *)
Definition header_entries (hdr : AndroidHeader) (l : Layout)
  : list SegmentReaderEntry :=
  [ mkSegmentReaderEntry ENTRY_TYPE_KERNEL (lo_kernel_offset l)
                         (lo_kernel_size l) false;
    mkSegmentReaderEntry ENTRY_TYPE_RAMDISK (lo_ramdisk_offset l)
                         (lo_ramdisk_size l) false ]
  ++ (if (dt_size hdr >? 0) && negb (lo_dt_offset l =? 0)
      then [ mkSegmentReaderEntry ENTRY_TYPE_DEVICE_TREE (lo_dt_offset l)
                                  (dt_size hdr) false ]
      else []).

(** [LokiFormatReader::read_header]. *)
Definition read_header : ST OState Header :=
  self <- get_self ;;
  _ <- (if negb (is_some (_loki_offset self)) then
          r <- lift find_loki_header ;;
          put_self (set_loki (fst r) (snd r) self)
        else ret tt) ;;
  self <- get_self ;;
  _ <- (if negb (is_some (_header_offset self)) then
          r <- lift (android_find_header MAX_HEADER_OFFSET) ;;
          put_self (set_android (fst r) (snd r) self)
        else ret tt) ;;
  self <- get_self ;;
  l <- lift (if is_new_style (_loki_hdr self)
             then read_header_new (_hdr self) (_loki_hdr self)
             else read_header_old (_hdr self) (_loki_hdr self)) ;;
  match SegmentReader_set_entries (header_entries (_hdr self) l)
                                  (_seg self) with
  | inl e => fail e
  | inr g => _ <- put_self (set_seg g self) ;; ret (lo_header l)
  end.

(** [LokiFormatReader::bid]. *)
Definition bid (best_bid : Z) (st : OState) : Z * OState :=
  let bid := 0 in
  if best_bid >=? i32 (BOOT_MAGIC_SIZE + LOKI_MAGIC_SIZE) * 8 then (-2, st)
  else
    match lift find_loki_header st with
    | (inl e, st1) => if is_loki_category e then (0, st1) else (-1, st1)
    | (inr r, st1) =>
        let st1 := (set_loki (fst r) (snd r) (fst st1), snd st1) in
        let bid := bid + i32 (LOKI_MAGIC_SIZE * 8) in
        match lift (android_find_header LOKI_MAX_HEADER_OFFSET) st1 with
        | (inl e, st2) =>
            match e with
            | ErrAndroid HeaderNotFound
            | ErrAndroid HeaderOutOfBounds => (0, st2)
            | _ => (-1, st2)
            end
        | (inr r, st2) =>
            let st2 := (set_android (fst r) (snd r) (fst st2), snd st2) in
            let bid := bid + i32 (BOOT_MAGIC_SIZE * 8) in
            (bid, st2)
        end
    end.

End Reader.

End Loki.

(** ** The segment writer *)

Inductive Ret : Set := RET_OK | RET_EOF | RET_FAILED | RET_FATAL.

(** What a writer method sees: the file and the error slot of the [Writer]
    facade ([_writer.set_error]). *)
Record WState : Type := mkWState { ws_file : File; ws_error : option Error }.

Definition set_error (e : Error) (ws : WState) : WState :=
  mkWState (ws_file ws) (Some e).

Definition with_file (f : File) (ws : WState) : WState :=
  mkWState f (ws_error ws).

(** [file.is_fatal() ? RET_FATAL : RET_FAILED]. *)
Definition failed_or_fatal (f : File) : Ret :=
  if is_fatal f then RET_FATAL else RET_FAILED.

Module SegmentWriter.

Record SegmentWriterEntry : Type := mkSegmentWriterEntry {
  swe_type : EntryType;
  swe_offset : Z;
  swe_size : option Z;
  swe_align : Z
}.

Inductive Cursor : Set := BeforeFirst | AtEntry (i : nat) | AtEnd.

Record t : Type := mk {
  sw_entries : list SegmentWriterEntry;
  sw_cursor : Cursor;
  sw_entry_size : Z
}.

Fixpoint has_type (ty : EntryType) (l : list SegmentWriterEntry) : bool :=
  match l with
  | [] => false
  | e :: l' => EntryType_eqb ty (swe_type e) || has_type ty l'
  end.

Fixpoint distinct_types (l : list SegmentWriterEntry) : bool :=
  match l with
  | [] => true
  | e :: l' => negb (has_type (swe_type e) l') && distinct_types l'
  end.

Fixpoint update (i : nat) (f : SegmentWriterEntry -> SegmentWriterEntry)
         (l : list SegmentWriterEntry) : list SegmentWriterEntry :=
  match l, i with
  | [], _ => []
  | e :: l', O => f e :: l'
  | e :: l', S i' => e :: update i' f l'
  end.

(** [entry()]: the slot under the cursor; [None] stands for the iterator
    that designates no slot. *)
Definition entry (seg : t) : option SegmentWriterEntry :=
  match sw_cursor seg with
  | AtEntry i => nth_error (sw_entries seg) i
  | _ => None
  end.

(** [entry() == entries().end()]. *)
Definition at_end (seg : t) : bool :=
  match sw_cursor seg with AtEnd => true | _ => false end.

(** Modelled from the spec: the write path of the segment engine, section
    4.1 ([segment_writer.cpp] is not part of the sources).  [set_entries]
    installs a non-empty list without a repeated type and puts the cursor
    before the first slot.  [write_entry] records the current offset as the
    start of the slot, checks the type against the slot and resets the byte
    counter; [write_data] writes and adds to the counter; [finish_entry]
    writes [(align - (counter mod align)) mod align] zero bytes and stores
    the counter as the size of the slot.  The step to the next slot is
    taken by [get_entry], which [AndroidFormatWriter::get_entry] forwards
    to: [AndroidFormatWriter::finish_entry] reads [entry()] after
    [finish_entry] and finds the slot just finished there, and [close]
    finds [entries().end()] once the last slot is behind. *)
Definition set_entries (entries : list SegmentWriterEntry) (seg : t)
           (ws : WState) : Ret * t * WState :=
  match entries with
  | [] => (RET_FAILED, seg, set_error (ErrSegment InvalidEntries) ws)
  | _ => if distinct_types entries
         then (RET_OK, mk entries BeforeFirst 0, ws)
         else (RET_FAILED, seg, set_error (ErrSegment InvalidEntries) ws)
  end.

(** Modelled from the spec: the step to the next slot of the segment
    engine; past the last slot it reports [RET_EOF]. *)
Definition get_entry (seg : t) (ws : WState) : Ret * Entry * t * WState :=
  let next := match sw_cursor seg with
              | BeforeFirst => AtEntry 0
              | AtEntry i =>
                  if (S i <? length (sw_entries seg))%nat then AtEntry (S i)
                  else AtEnd
              | AtEnd => AtEnd
              end in
  let seg' := mk (sw_entries seg) next (sw_entry_size seg) in
  match entry seg' with
  | Some e => (RET_OK, mkEntry (Some (swe_type e)) None, seg', ws)
  | None => (RET_EOF, mkEntry None None, seg', ws)
  end.

(** Modelled from the spec: [write_entry] of section 4.1. *)
Definition write_entry (e : Entry) (seg : t) (ws : WState)
  : Ret * t * WState :=
  match sw_cursor seg, entry seg with
  | AtEntry i, Some slot =>
      match m_type e with
      | Some ty =>
          if EntryType_eqb ty (swe_type slot) then
            match seek 0 SEEK_CUR (ws_file ws) with
            | (inl err, f') =>
                (failed_or_fatal f', seg,
                 set_error (ErrFile err) (with_file f' ws))
            | (inr off, f') =>
                (RET_OK,
                 mk (update i (fun s => mkSegmentWriterEntry
                                          (swe_type s) off (swe_size s)
                                          (swe_align s))
                            (sw_entries seg))
                    (sw_cursor seg) 0,
                 with_file f' ws)
            end
          else (RET_FAILED, seg, set_error (ErrSegment EntryTypeMismatch) ws)
      | None => (RET_FAILED, seg, set_error (ErrSegment EntryTypeMismatch) ws)
      end
  | _, _ => (RET_FAILED, seg, set_error (ErrSegment NoCurrentEntry) ws)
  end.

(** Modelled from the spec: [write_data] of section 4.1. *)
Definition write_data (buf : list byte) (seg : t) (ws : WState)
  : Ret * Z * t * WState :=
  match entry seg with
  | None => (RET_FAILED, 0, seg, set_error (ErrSegment NoCurrentEntry) ws)
  | Some _ =>
      match write_fully buf (ws_file ws) with
      | (inl err, f') =>
          (failed_or_fatal f', 0, seg,
           set_error (ErrFile err) (with_file f' ws))
      | (inr n, f') =>
          (RET_OK, n,
           mk (sw_entries seg) (sw_cursor seg) (sw_entry_size seg + n),
           with_file f' ws)
      end
  end.

(** Modelled from the spec: [finish_entry] of section 4.1, without the
    step to the next slot. *)
Definition finish_entry (seg : t) (ws : WState) : Ret * t * WState :=
  match sw_cursor seg, entry seg with
  | AtEntry i, Some slot =>
      let pad := align_page_size (sw_entry_size seg) (swe_align slot) in
      match write_fully (repeat 0 (Z.to_nat pad)) (ws_file ws) with
      | (inl err, f') =>
          (failed_or_fatal f', seg,
           set_error (ErrFile err) (with_file f' ws))
      | (inr _, f') =>
          (RET_OK,
           mk (update i (fun s => mkSegmentWriterEntry
                                    (swe_type s) (swe_offset s)
                                    (Some (sw_entry_size seg))
                                    (swe_align s))
                      (sw_entries seg))
              (sw_cursor seg) (sw_entry_size seg),
           with_file f' ws)
      end
  | _, _ => (RET_FAILED, seg, set_error (ErrSegment NoCurrentEntry) ws)
  end.

End SegmentWriter.

(** ** The Android/Bump writer ([android_writer.cpp]) *)

Module Android.

Import SegmentWriter.

(** The SHA-1 context of OpenSSL, seen through the calls made on it: the
    bytes fed since [SHA1_Init] or since the last [SHA1_Final], and the
    inputs of the finalisations made since [SHA1_Init], oldest first. *)
Record SHA_CTX : Type := mkSHA_CTX {
  sha_fed : list byte;
  sha_finalised : list (list byte)
}.

Definition SHA1_Init : option SHA_CTX := Some (mkSHA_CTX [] []).

Definition SHA1_Update (ctx : SHA_CTX) (buf : list byte) : option SHA_CTX :=
  Some (mkSHA_CTX (sha_fed ctx ++ buf) (sha_finalised ctx)).

Record AndroidFormatWriter : Type := mkAndroidFormatWriter {
  _hdr : AndroidHeader;
  _is_bump : bool;
  _sha_ctx : SHA_CTX;
  _file_size : option Z;
  _seg : SegmentWriter.t
}.

Definition set_hdr (h : AndroidHeader) (w : AndroidFormatWriter) :=
  mkAndroidFormatWriter h (_is_bump w) (_sha_ctx w) (_file_size w) (_seg w).
Definition set_sha (c : SHA_CTX) (w : AndroidFormatWriter) :=
  mkAndroidFormatWriter (_hdr w) (_is_bump w) c (_file_size w) (_seg w).
Definition set_file_size (n : Z) (w : AndroidFormatWriter) :=
  mkAndroidFormatWriter (_hdr w) (_is_bump w) (_sha_ctx w) (Some n) (_seg w).
Definition set_seg (g : SegmentWriter.t) (w : AndroidFormatWriter) :=
  mkAndroidFormatWriter (_hdr w) (_is_bump w) (_sha_ctx w) (_file_size w) g.

(** [memset(&_hdr, 0, sizeof(_hdr))]. *)
Definition zero_header : AndroidHeader :=
  mkAndroidHeader (repeat 0 (Z.to_nat BOOT_MAGIC_SIZE))
                  0 0 0 0 0 0 0 0 0 0
                  (repeat 0 (Z.to_nat BOOT_NAME_SIZE))
                  (repeat 0 (Z.to_nat BOOT_ARGS_SIZE))
                  (repeat 0 (Z.to_nat SHA_DIGEST_LENGTH)).

Definition with_magic (m : list byte) (h : AndroidHeader) : AndroidHeader :=
  mkAndroidHeader m (kernel_size h) (kernel_addr h) (ramdisk_size h)
    (ramdisk_addr h) (second_size h) (second_addr h) (tags_addr h)
    (page_size h) (dt_size h) (unused h) (name h) (cmdline h) (id h).
Definition with_kernel_size (n : Z) (h : AndroidHeader) : AndroidHeader :=
  mkAndroidHeader (magic h) n (kernel_addr h) (ramdisk_size h)
    (ramdisk_addr h) (second_size h) (second_addr h) (tags_addr h)
    (page_size h) (dt_size h) (unused h) (name h) (cmdline h) (id h).
Definition with_kernel_addr (n : Z) (h : AndroidHeader) : AndroidHeader :=
  mkAndroidHeader (magic h) (kernel_size h) n (ramdisk_size h)
    (ramdisk_addr h) (second_size h) (second_addr h) (tags_addr h)
    (page_size h) (dt_size h) (unused h) (name h) (cmdline h) (id h).
Definition with_ramdisk_size (n : Z) (h : AndroidHeader) : AndroidHeader :=
  mkAndroidHeader (magic h) (kernel_size h) (kernel_addr h) n
    (ramdisk_addr h) (second_size h) (second_addr h) (tags_addr h)
    (page_size h) (dt_size h) (unused h) (name h) (cmdline h) (id h).
Definition with_ramdisk_addr (n : Z) (h : AndroidHeader) : AndroidHeader :=
  mkAndroidHeader (magic h) (kernel_size h) (kernel_addr h) (ramdisk_size h)
    n (second_size h) (second_addr h) (tags_addr h)
    (page_size h) (dt_size h) (unused h) (name h) (cmdline h) (id h).
Definition with_second_size (n : Z) (h : AndroidHeader) : AndroidHeader :=
  mkAndroidHeader (magic h) (kernel_size h) (kernel_addr h) (ramdisk_size h)
    (ramdisk_addr h) n (second_addr h) (tags_addr h)
    (page_size h) (dt_size h) (unused h) (name h) (cmdline h) (id h).
Definition with_second_addr (n : Z) (h : AndroidHeader) : AndroidHeader :=
  mkAndroidHeader (magic h) (kernel_size h) (kernel_addr h) (ramdisk_size h)
    (ramdisk_addr h) (second_size h) n (tags_addr h)
    (page_size h) (dt_size h) (unused h) (name h) (cmdline h) (id h).
Definition with_tags_addr (n : Z) (h : AndroidHeader) : AndroidHeader :=
  mkAndroidHeader (magic h) (kernel_size h) (kernel_addr h) (ramdisk_size h)
    (ramdisk_addr h) (second_size h) (second_addr h) n
    (page_size h) (dt_size h) (unused h) (name h) (cmdline h) (id h).
Definition with_page_size (n : Z) (h : AndroidHeader) : AndroidHeader :=
  mkAndroidHeader (magic h) (kernel_size h) (kernel_addr h) (ramdisk_size h)
    (ramdisk_addr h) (second_size h) (second_addr h) (tags_addr h)
    n (dt_size h) (unused h) (name h) (cmdline h) (id h).
Definition with_dt_size (n : Z) (h : AndroidHeader) : AndroidHeader :=
  mkAndroidHeader (magic h) (kernel_size h) (kernel_addr h) (ramdisk_size h)
    (ramdisk_addr h) (second_size h) (second_addr h) (tags_addr h)
    (page_size h) n (unused h) (name h) (cmdline h) (id h).
Definition with_name (l : list byte) (h : AndroidHeader) : AndroidHeader :=
  mkAndroidHeader (magic h) (kernel_size h) (kernel_addr h) (ramdisk_size h)
    (ramdisk_addr h) (second_size h) (second_addr h) (tags_addr h)
    (page_size h) (dt_size h) (unused h) l (cmdline h) (id h).
Definition with_cmdline (l : list byte) (h : AndroidHeader) : AndroidHeader :=
  mkAndroidHeader (magic h) (kernel_size h) (kernel_addr h) (ramdisk_size h)
    (ramdisk_addr h) (second_size h) (second_addr h) (tags_addr h)
    (page_size h) (dt_size h) (unused h) (name h) l (id h).
Definition with_id (l : list byte) (h : AndroidHeader) : AndroidHeader :=
  mkAndroidHeader (magic h) (kernel_size h) (kernel_addr h) (ramdisk_size h)
    (ramdisk_addr h) (second_size h) (second_addr h) (tags_addr h)
    (page_size h) (dt_size h) (unused h) (name h) (cmdline h) l.

Definition opt_apply {A B : Type} (o : option A) (f : A -> B -> B) (b : B) : B :=
  match o with Some a => f a b | None => b end.

(** [strncpy(dst, s.c_str(), n - 1); dst[n - 1] = 0] into a zeroed array
    of [n] bytes. *)
Definition strncpy_field (n : Z) (s : list byte) : list byte :=
  let body := firstn (Z.to_nat (n - 1)) (c_str s) in
  body ++ repeat 0 (Z.to_nat n - length body).

(** [memcpy(dst, src, n)] into the array [dst]. *)
Definition memcpy (dst src : list byte) (n : Z) : list byte :=
  firstn (Z.to_nat n) src ++ skipn (Z.to_nat n) dst.

(** The page sizes the [switch] of [write_header] accepts. *)
Definition valid_page_size (n : Z) : bool :=
  match n with
  | 2048 | 4096 | 8192 | 16384 | 32768 | 65536 | 131072 => true
  | _ => false
  end.

(** [AndroidFormatWriter::init]. *)
Definition init (w : AndroidFormatWriter) (ws : WState)
  : Ret * AndroidFormatWriter * WState :=
  match SHA1_Init with
  | None => (RET_FAILED, w, set_error (ErrAndroid Sha1InitError) ws)
  | Some ctx => (RET_OK, set_sha ctx w, ws)
  end.

(** [AndroidFormatWriter::write_header]. *)
Definition write_header (header : Header) (w : AndroidFormatWriter)
           (ws : WState) : Ret * AndroidFormatWriter * WState :=
  let hdr := with_magic BOOT_MAGIC zero_header in
  let hdr := opt_apply (kernel_address header) with_kernel_addr hdr in
  let hdr := opt_apply (ramdisk_address header) with_ramdisk_addr hdr in
  let hdr := opt_apply (secondboot_address header) with_second_addr hdr in
  let hdr := opt_apply (kernel_tags_address header) with_tags_addr hdr in
  match h_page_size header with
  | None =>
      (RET_FAILED, set_hdr hdr w, set_error (ErrAndroid MissingPageSize) ws)
  | Some psz =>
      if negb (valid_page_size psz) then
        (RET_FAILED, set_hdr hdr w,
         set_error (ErrAndroid InvalidPageSize) ws)
      else
        let hdr := with_page_size psz hdr in
        match (match board_name header with
               | Some board_name =>
                   if zlength board_name >=? BOOT_NAME_SIZE then None
                   else Some (with_name
                                (strncpy_field BOOT_NAME_SIZE board_name) hdr)
               | None => Some hdr
               end) with
        | None =>
            (RET_FAILED, set_hdr hdr w,
             set_error (ErrAndroid BoardNameTooLong) ws)
        | Some hdr =>
        match (match kernel_cmdline header with
               | Some cmdline =>
                   if zlength cmdline >=? BOOT_ARGS_SIZE then None
                   else Some (with_cmdline
                                (strncpy_field BOOT_ARGS_SIZE cmdline) hdr)
               | None => Some hdr
               end) with
        | None =>
            (RET_FAILED, set_hdr hdr w,
             set_error (ErrAndroid KernelCmdlineTooLong) ws)
        | Some hdr =>
            let w := set_hdr hdr w in
            let entries :=
              [ mkSegmentWriterEntry ENTRY_TYPE_KERNEL 0 None (page_size hdr);
                mkSegmentWriterEntry ENTRY_TYPE_RAMDISK 0 None (page_size hdr);
                mkSegmentWriterEntry ENTRY_TYPE_SECONDBOOT 0 None
                                     (page_size hdr);
                mkSegmentWriterEntry ENTRY_TYPE_DEVICE_TREE 0 None
                                     (page_size hdr) ] in
            match SegmentWriter.set_entries entries (_seg w) ws with
            | (RET_OK, seg, ws) =>
                let w := set_seg seg w in
                match seek (page_size hdr) SEEK_SET (ws_file ws) with
                | (inl err, f') =>
                    (failed_or_fatal f', w,
                     set_error (ErrFile err) (with_file f' ws))
                | (inr _, f') => (RET_OK, w, with_file f' ws)
                end
            | (ret, seg, ws) => (ret, set_seg seg w, ws)
            end
        end end
  end.

Section Writer.

(** The SHA-1 digest function of OpenSSL: the 20 bytes [SHA1_Final] stores
    for the bytes fed to the context. *)
Variable SHA1 : list byte -> list byte.

(** What [SHA1_Final] stores for a context that was finalised before and
    not initialised again: OpenSSL goes on from the state the earlier
    finalisation left, so the 20 bytes are not the digest of the bytes
    fed.  They depend on the inputs finalised before and on the bytes fed
    since. *)
Variable SHA1_refinal : list (list byte) -> list byte -> list byte.

(** The header struct as [file_write_fully(file, &hdr, sizeof(hdr))] writes
    it after [android_fix_header_byte_order]: the little-endian image of
    the struct declared in [android_p.h], which is not part of the
    sources. *)
Variable header_bytes : AndroidHeader -> list byte.

(** [SHA1_Final]: the digest of the bytes fed, for a context that was not
    finalised since [SHA1_Init].  The context is left finalised, and this
    input is added to its record. *)
Definition SHA1_Final (ctx : SHA_CTX) : option (list byte * SHA_CTX) :=
  Some (match sha_finalised ctx with
        | [] => SHA1 (sha_fed ctx)
        | past => SHA1_refinal past (sha_fed ctx)
        end,
        mkSHA_CTX [] (sha_finalised ctx ++ [sha_fed ctx])).

(** [AndroidFormatWriter::get_entry]. *)
Definition get_entry (w : AndroidFormatWriter) (ws : WState)
  : Ret * Entry * AndroidFormatWriter * WState :=
  match SegmentWriter.get_entry (_seg w) ws with
  | (ret, e, seg, ws) => (ret, e, set_seg seg w, ws)
  end.

(** [AndroidFormatWriter::write_entry]. *)
Definition write_entry (e : Entry) (w : AndroidFormatWriter) (ws : WState)
  : Ret * AndroidFormatWriter * WState :=
  match SegmentWriter.write_entry e (_seg w) ws with
  | (ret, seg, ws) => (ret, set_seg seg w, ws)
  end.

(** [AndroidFormatWriter::write_data]. *)
Definition write_data (buf : list byte) (w : AndroidFormatWriter)
           (ws : WState) : Ret * Z * AndroidFormatWriter * WState :=
  match SegmentWriter.write_data buf (_seg w) ws with
  | (RET_OK, bytes_written, seg, ws) =>
      let w := set_seg seg w in
      match SHA1_Update (_sha_ctx w) buf with
      | None =>
          (RET_FATAL, bytes_written, w,
           set_error (ErrAndroid Sha1UpdateError) ws)
      | Some ctx => (RET_OK, bytes_written, set_sha ctx w, ws)
      end
  | (ret, bytes_written, seg, ws) => (ret, bytes_written, set_seg seg w, ws)
  end.

(** The [switch] at the end of [finish_entry]. *)
Definition record_size (ty : EntryType) (size : Z) (h : AndroidHeader)
  : AndroidHeader :=
  match ty with
  | ENTRY_TYPE_KERNEL => with_kernel_size size h
  | ENTRY_TYPE_RAMDISK => with_ramdisk_size size h
  | ENTRY_TYPE_SECONDBOOT => with_second_size size h
  | ENTRY_TYPE_DEVICE_TREE => with_dt_size size h
  end.

Definition size_of (slot : SegmentWriterEntry) : Z :=
  match swe_size slot with Some n => n | None => 0 end.

(** [AndroidFormatWriter::finish_entry].  [swentry] is dereferenced without
    a check in the source; [_seg.finish_entry] only succeeds on a slot. *)
Definition finish_entry (w : AndroidFormatWriter) (ws : WState)
  : Ret * AndroidFormatWriter * WState :=
  match SegmentWriter.finish_entry (_seg w) ws with
  | (RET_OK, seg, ws) =>
      let w := set_seg seg w in
      match SegmentWriter.entry (_seg w) with
      | None => (RET_FATAL, w, set_error (ErrSegment NoCurrentEntry) ws)
      | Some swentry =>
          let le32_size := le32_bytes (u32 (size_of swentry)) in
          match (if negb (EntryType_eqb (swe_type swentry)
                                        ENTRY_TYPE_DEVICE_TREE)
                    || (size_of swentry >? 0)
                 then SHA1_Update (_sha_ctx w) le32_size
                 else Some (_sha_ctx w)) with
          | None => (RET_FATAL, w, set_error (ErrAndroid Sha1UpdateError) ws)
          | Some ctx =>
              let w := set_sha ctx w in
              (RET_OK,
               set_hdr (record_size (swe_type swentry)
                                    (u32 (size_of swentry)) (_hdr w)) w,
               ws)
          end
      end
  | (ret, seg, ws) => (ret, set_seg seg w, ws)
  end.

(** The error of a write that came back short: [n.error()] of a result
    that holds a value. *)
Definition short_write_error : Error := ErrFile (mkFileError 0 false).

(** [AndroidFormatWriter::close]. *)
Definition close (w : AndroidFormatWriter) (ws : WState)
  : Ret * AndroidFormatWriter * WState :=
  match (match _file_size w with
         | Some file_size =>
             match seek (i64 file_size) SEEK_SET (ws_file ws) with
             | (inl err, f') => (inl err, w, f')
             | (inr _, f') => (inr tt, w, f')
             end
         | None =>
             match seek 0 SEEK_CUR (ws_file ws) with
             | (inl err, f') => (inl err, w, f')
             | (inr file_size, f') => (inr tt, set_file_size file_size w, f')
             end
         end) with
  | (inl err, w, f') =>
      (failed_or_fatal f', w, set_error (ErrFile err) (with_file f' ws))
  | (inr _, w, f') =>
      let ws := with_file f' ws in
      if at_end (_seg w) then
        let trailer := if _is_bump w then BUMP_MAGIC
                       else SAMSUNG_SEANDROID_MAGIC in
        let trailer_size := if _is_bump w then BUMP_MAGIC_SIZE
                            else SAMSUNG_SEANDROID_MAGIC_SIZE in
        match write_fully trailer (ws_file ws) with
        | (inl err, f') =>
            (failed_or_fatal f', w, set_error (ErrFile err) (with_file f' ws))
        | (inr n, f') =>
            let ws := with_file f' ws in
            if negb (n =? trailer_size) then
              (failed_or_fatal f', w, set_error short_write_error ws)
            else
              match SHA1_Final (_sha_ctx w) with
              | None =>
                  (RET_FATAL, w, set_error (ErrAndroid Sha1UpdateError) ws)
              | Some (digest, ctx) =>
                  let w := set_sha ctx w in
                  let w := set_hdr (with_id (memcpy (id (_hdr w)) digest
                                                    SHA_DIGEST_LENGTH)
                                            (_hdr w)) w in
                  let hdr := header_bytes (_hdr w) in
                  match seek 0 SEEK_SET (ws_file ws) with
                  | (inl err, f') =>
                      (failed_or_fatal f', w,
                       set_error (ErrFile err) (with_file f' ws))
                  | (inr _, f') =>
                      let ws := with_file f' ws in
                      match write_fully hdr (ws_file ws) with
                      | (inl err, f') =>
                          (failed_or_fatal f', w,
                           set_error (ErrFile err) (with_file f' ws))
                      | (inr n, f') =>
                          let ws := with_file f' ws in
                          if negb (n =? zlength hdr) then
                            (failed_or_fatal f', w,
                             set_error short_write_error ws)
                          else (RET_OK, w, ws)
                      end
                  end
              end
        end
      else (RET_OK, w, ws)
  end.

End Writer.

End Android.

(** * Vocabulary of the statements

    Predicates and reference functions the theorems are stated with, and
    the caller's side of the writer protocol. *)

Definition PAGE_SIZES : list Z :=
  [2048; 4096; 8192; 16384; 32768; 65536; 131072].

(** Whether an optional string leaves room for the terminating NUL in an
    array of [n] bytes. *)
Definition fits (n : Z) (o : option (list byte)) : bool :=
  match o with Some s => zlength s <? n | None => true end.

Definition result_ret {W S : Type} (r : Ret * W * S) : Ret := fst (fst r).
Definition result_obj {W S : Type} (r : Ret * W * S) : W := snd (fst r).
Definition result_state {W S : Type} (r : Ret * W * S) : S := snd r.

(** The size the specification describes: the distance from the ramdisk to
    the aboot copy, the latter [page_size] bytes before the end of the file
    for an LG ramdisk address and 0x200 bytes before it otherwise. *)
Definition claimed_ramdisk_size (hdr : AndroidHeader) (file_end : Z)
           (ramdisk_offset : Z) : Error + Z :=
  let aboot_offset :=
    file_end - (if is_lg_ramdisk_address (ramdisk_addr hdr)
                then page_size hdr else 0x200) in
  if ramdisk_offset >? aboot_offset
  then inl (ErrLoki RamdiskOffsetGreaterThanAbootOffset)
  else inr (aboot_offset - ramdisk_offset).

(** The same with the arithmetic of the source: [aboot_size] is the page
    size read as an [int32_t], and the difference is cut to 32 bits. *)
Definition aboot_offset_of (hdr : AndroidHeader) (file_end : Z) : Z :=
  file_end + i32 (- (if is_lg_ramdisk_address (ramdisk_addr hdr)
                     then i32 (page_size hdr) else 0x200)).

(** The Loki header is present in the data: 0x50 bytes at 0x400 that begin
    with the magic. *)
Definition loki_header_present (d : list byte) : bool :=
  (zlength (slice d LOKI_MAGIC_OFFSET LOKI_HEADER_SIZE) =? LOKI_HEADER_SIZE)
  && bytes_eqb (slice (slice d LOKI_MAGIC_OFFSET LOKI_HEADER_SIZE)
                      0 LOKI_MAGIC_SIZE) LOKI_MAGIC.

Definition is_not_found (e : Error) : bool :=
  match e with
  | ErrAndroid HeaderNotFound | ErrAndroid HeaderOutOfBounds => true
  | _ => false
  end.

(** The search [find_ramdisk_address] runs. *)
Definition shellcode_search (shellcode : list byte) : ST RState Z :=
  io_search (file_search Loki.shellcode_cb (-1) (-1) 0
                         (Loki.shellcode_pattern shellcode) 1 0).

(** The matches that search would report if its budget were unbounded:
    those from the current position to the end of the data. *)
Definition shellcode_matches (shellcode : list byte) (f : File) : list Z :=
  occurrences (Loki.shellcode_pattern shellcode) (f_data f) (f_pos f)
              (zlength (f_data f)).



(** The flags byte that follows the match at [m] is [fl]. *)
Definition has_flags (d : list byte) (fl : Z) (m : Z) : bool :=
  match slice d (m + 3) 1 with
  | [x] => x =? fl
  | _ => false
  end.

(** What the specification describes: among the matches of the magic from
    [start] on, the first with flags 0x08 if there is one, else the first
    with flags 0x00. *)
Definition first_gzip_offset (d : list byte) (start : Z) : Error + Z :=
  let ms := occurrences Loki.gzip_deflate_magic d start (zlength d) in
  match find (has_flags d 0x08) ms, find (has_flags d 0x00) ms with
  | Some o8, _ => inr o8
  | None, Some o0 => inr o0
  | None, None => inl (ErrLoki NoRamdiskGzipHeaderFound)
  end.

Definition or_else {A : Type} (a b : option A) : option A :=
  match a with Some _ => a | None => b end.

Definition candidates (lo : Z) (a n : nat) : list Z :=
  map (fun i => lo + Z.of_nat i) (seq a n).

(** The fields of the two headers fit their 32-bit types. *)
Definition u32_fields (hdr : AndroidHeader) (loki_hdr : LokiHeader) : Prop :=
  0 <= page_size hdr < 2 ^ 32
  /\ 0 <= dt_size hdr < 2 ^ 32
  /\ 0 <= orig_kernel_size loki_hdr < 2 ^ 32
  /\ 0 <= orig_ramdisk_size loki_hdr < 2 ^ 32.

(** The caller's loop over [write_data]: one call per chunk, stopping at
    the first call that does not return [RET_OK]. *)
Fixpoint write_chunks (chunks : list (list byte))
         (w : Android.AndroidFormatWriter) (ws : WState)
  : Ret * Android.AndroidFormatWriter * WState :=
  match chunks with
  | [] => (RET_OK, w, ws)
  | buf :: chunks' =>
      match Android.write_data buf w ws with
      | (RET_OK, _, w', ws') => write_chunks chunks' w' ws'
      | (ret, _, w', ws') => (ret, w', ws')
      end
  end.

(** The bytes [finish_entry] adds to the SHA-1 context for a slot of type
    [ty] that received [size] bytes. *)
Definition size_bytes (ty : EntryType) (size : Z) : list byte :=
  if EntryType_eqb ty ENTRY_TYPE_DEVICE_TREE && (size =? 0) then []
  else le32_bytes (u32 size).

Definition and_then (r : Ret * Android.AndroidFormatWriter * WState)
           (k : Android.AndroidFormatWriter -> WState
                -> Ret * Android.AndroidFormatWriter * WState)
  : Ret * Android.AndroidFormatWriter * WState :=
  match r with
  | (RET_OK, w, ws) => k w ws
  | _ => r
  end.

(** One segment as the caller writes it: [get_entry], [write_entry], the
    [write_data] calls, [finish_entry]. *)
Definition write_segment (chunks : list (list byte))
           (w : Android.AndroidFormatWriter) (ws : WState)
  : Ret * Android.AndroidFormatWriter * WState :=
  match Android.get_entry w ws with
  | (RET_OK, e, w, ws) =>
      and_then (Android.write_entry e w ws)
               (fun w ws => and_then (write_chunks chunks w ws)
                                     Android.finish_entry)
  | (ret, _, w, ws) => (ret, w, ws)
  end.

(** A sequence of segments, written one after the other. *)
Fixpoint write_segments (segs : list (list (list byte)))
         (w : Android.AndroidFormatWriter) (ws : WState)
  : Ret * Android.AndroidFormatWriter * WState :=
  match segs with
  | [] => (RET_OK, w, ws)
  | chunks :: segs' =>
      and_then (write_segment chunks w ws) (write_segments segs')
  end.

(** The types of the slots that lie behind the cursor. *)
Definition remaining_types (seg : SegmentWriter.t) : list EntryType :=
  let tys := map SegmentWriter.swe_type (SegmentWriter.sw_entries seg) in
  match SegmentWriter.sw_cursor seg with
  | SegmentWriter.BeforeFirst => tys
  | SegmentWriter.AtEntry i => skipn (S i) tys
  | SegmentWriter.AtEnd => []
  end.

(** The SHA-1 input of section 3 of the specification for segments of the
    types [tys]: each payload, followed by its size unless it is an empty
    device tree. *)
Fixpoint hashed (tys : list EntryType) (segs : list (list (list byte)))
  : list byte :=
  match tys, segs with
  | ty :: tys', chunks :: segs' =>
      concat chunks ++ size_bytes ty (zlength (concat chunks))
      ++ hashed tys' segs'
  | _, _ => []
  end.

Definition trailer_of (w : Android.AndroidFormatWriter) : list byte :=
  if Android._is_bump w then BUMP_MAGIC else SAMSUNG_SEANDROID_MAGIC.

(** The final file length [close] works with: the length remembered by an
    earlier [close], or else the current offset. *)
Definition final_length (w : Android.AndroidFormatWriter) (f : File) : Z :=
  match Android._file_size w with
  | Some n => n
  | None => f_pos f
  end.

(** Modelled from the spec: the header layout of section 4.2 up to the
    [id] field, used where a concrete header image is needed. *)
Definition spec_header_bytes (h : AndroidHeader) : list byte :=
  magic h
  ++ concat (map le32_bytes
                 [kernel_size h; kernel_addr h; ramdisk_size h;
                  ramdisk_addr h; second_size h; second_addr h; tags_addr h;
                  page_size h; dt_size h; unused h])
  ++ name h ++ cmdline h ++ id h.

(** Every installed slot has been finished: [finish_entry] has stored its
    size. *)
Definition all_finished (seg : SegmentWriter.t) : bool :=
  forallb (fun e => match SegmentWriter.swe_size e with
                    | Some _ => true
                    | None => false
                    end)
          (SegmentWriter.sw_entries seg).

(** ** Vocabulary of the further properties *)

(** A helper of the reader marks the reader fatal only when a stream call
    failed, and then exactly when the file reports itself fatal:
    [if (file.is_fatal()) { reader.set_fatal(); }]. *)
Definition fatal_only_on_stream_error {A : Type} (m : ST RState A) : Prop :=
  forall s,
    match m s with
    | (inl (ErrFile _), s') =>
        rs_fatal s' = rs_fatal s || is_fatal (rs_file s')
    | (_, s') => rs_fatal s' = rs_fatal s
    end.

Definition value_or {A : Type} (d : A) (o : option A) : A :=
  match o with Some x => x | None => d end.

(** The array [write_header] leaves in a string field of [n] bytes of the
    header. *)
Definition string_field (n : Z) (o : option (list byte)) : list byte :=
  match o with
  | Some s => Android.strncpy_field n s
  | None => repeat 0 (Z.to_nat n)
  end.

(** * Example data

    A short stand-in for the Loki shellcode, small files and the images of
    the scenarios of the specification, used to run the definitions on
    concrete inputs. *)

(** Fourteen bytes: a five-byte body, then nine bytes of which the first
    four are overwritten with the ramdisk address. *)
Definition demo_shellcode : list byte :=
  [0xfe; 0xb5; 0x0d; 0x4d; 0xd5; 0; 0; 0; 0; 0; 0; 0; 0; 0].

Definition demo_android_header : AndroidHeader :=
  mkAndroidHeader BOOT_MAGIC 0 0x80208000 0 0x82200000 0 0x81100000
                  0x80200100 2048 0 0 [] [] [].

Definition healthy (d : list byte) (p : Z) : File := mkFile d p [] false.

Definition rstate (d : list byte) (p : Z) : RState :=
  mkRState (healthy d p) false.

Definition demo_header (ps : option Z) : Header :=
  mkHeader NEW_SUPPORTED_FIELDS (Some [106; 102; 108; 116; 101]) (Some [])
           ps (Some 0x80208000) (Some 0x82200000) (Some 0x81100000)
           (Some 0x80200100).

Definition fresh_writer (bump : bool) : Android.AndroidFormatWriter :=
  Android.mkAndroidFormatWriter Android.zero_header bump
    (Android.mkSHA_CTX [] []) None
    (SegmentWriter.mk [] SegmentWriter.BeforeFirst 0).

Definition wstate (d : list byte) (p : Z) : WState :=
  mkWState (healthy d p) None.

(** A header with an LG ramdisk address and a page size of 2^31 + 2048. *)
Definition wide_page_header : AndroidHeader :=
  mkAndroidHeader BOOT_MAGIC 0 0x80208000 0 0x88f02000 0 0 0
                  0x80000800 0 0 [] [] [].

(** An old-style Loki image with that header, of 0x80001800 bytes.  Its
    first 2048 bytes hold the Android header and, at 0x400, a Loki header
    that is empty behind its magic; the header page is zero from there to
    0x80000800, where the kernel begins, with the size word 0 at its
    offset 0x2c; the gzip header of the ramdisk is at 0x80000900. *)
Definition wide_header_front : list byte :=
  spec_header_bytes wide_page_header
  ++ repeat 0 976 ++ LOKI_MAGIC ++ repeat 0 1020.

Definition wide_header_page : list byte :=
  wide_header_front ++ repeat 0 (Z.to_nat 0x80000000).

Definition wide_page_tail : list byte :=
  repeat 0 256 ++ [0x1f; 0x8b; 0x08; 0x00; 1; 2; 3; 4] ++ repeat 0 3832.

Definition wide_page_image : list byte := wide_header_page ++ wide_page_tail.

Definition demo_find_header : Z -> ST RState (AndroidHeader * Z) :=
  fun _ s => (inr (demo_android_header, 0), s).

Definition fresh_reader : Loki.LokiFormatReader :=
  Loki.mkLokiFormatReader demo_android_header (mkLokiHeader [] 0 0 0 0)
                          None None (mkSegmentReader [] None).

(** A file with the Loki magic at 0x400 and an empty Loki header. *)
Definition loki_image : list byte :=
  repeat 0 (Z.to_nat 0x400) ++ LOKI_MAGIC ++ repeat 0 (Z.to_nat 0x4c).

Definition demo_loki_header : LokiHeader :=
  mkLokiHeader LOKI_MAGIC 0 0x1000 0x800 0x81000000.

(** The pattern of [demo_shellcode] at offset 0 only. *)
Definition shellcode_at_zero : list byte :=
  [0xfe; 0xb5; 0x0d; 0x4d; 0xd5; 0; 0; 0; 0; 0x00; 0x00; 0x00; 0x81; 0].

(** One copy of [demo_shellcode] patched with the address [a]. *)
Definition patched_shellcode (a : Z) : list byte :=
  [0xfe; 0xb5; 0x0d; 0x4d; 0xd5; 0xff; 0xff; 0xff; 0xff] ++ le32_bytes a ++ [0].

(** The image of scenario 3 of the specification, reduced to what the
    search reads: the shellcode with the address 0x81000000. *)
Definition one_shellcode_file : list byte := [0] ++ patched_shellcode 0x81000000.


(** The image of scenario 4 of the specification around its ramdisk: two
    gzip headers, the first with flags 0x00 and the second with flags
    0x08. *)
Definition two_gzip_file : list byte :=
  [0; 0; 0x1f; 0x8b; 0x08; 0x00; 7; 7; 0x1f; 0x8b; 0x08; 0x08; 7; 7;
   0x1f; 0x8b; 0x08; 0x08; 0x1f; 0x8b; 0x08].

(** The reader after a bid on the image of scenario 3: both headers are
    known, the Loki header is new-style and there is no device tree. *)
Definition reader_after_bid (hdr : AndroidHeader) (loki_hdr : LokiHeader)
  : Loki.LokiFormatReader :=
  Loki.mkLokiFormatReader hdr loki_hdr (Some LOKI_MAGIC_OFFSET) (Some 0)
                          (mkSegmentReader [] None).

Definition demo_android_header_dt : AndroidHeader :=
  mkAndroidHeader BOOT_MAGIC 0 0x80208000 0 0x82200000 0 0x81100000
                  0x80200100 2048 0x100 0 [] [] [].

(** A stand-in for the digest function, 20 bytes long, to run [close] on
    concrete data. *)
Definition demo_digest (l : list byte) : list byte :=
  firstn 20 (l ++ repeat 0 20).

(** A stand-in for what a context that was finalised before yields. *)
Definition demo_refinal (past : list (list byte)) (l : list byte)
  : list byte :=
  repeat 0xff 20.

(** Scenario 1: page size 2048, a kernel of 0x400 bytes, a ramdisk of
    0x100 bytes, no secondboot and no device tree. *)
Definition scenario1_segments : list (list (list byte)) :=
  [[repeat 0xaa 0x400]; [repeat 0xbb 0x100]; []; []].

Definition scenario1_header : Ret * Android.AndroidFormatWriter * WState :=
  Android.write_header (demo_header (Some 2048)) (fresh_writer false)
                       (wstate [] 0).

Definition scenario1_segments_written
  : Ret * Android.AndroidFormatWriter * WState :=
  write_segments scenario1_segments (result_obj scenario1_header)
                 (result_state scenario1_header).

(** Scenario 1 up to the call of [close]: the last [get_entry] reports the
    end of the list. *)
Definition scenario1_written : Ret * Android.AndroidFormatWriter * WState :=
  match Android.get_entry (result_obj scenario1_segments_written)
                          (result_state scenario1_segments_written) with
  | (_, _, w, ws) => (RET_OK, w, ws)
  end.

(** An old-style image with pages of 2048 bytes: the header page, a kernel
    of 48 bytes whose header holds its size at 0x2c, the padding, a ramdisk
    of 8 bytes that begins with a gzip header, and the aboot copy of 0x200
    bytes. *)
Definition old_style_image : list byte :=
  repeat 0 2048
  ++ (repeat 0 44 ++ le32_bytes 48) ++ repeat 0 2000
  ++ [0x1f; 0x8b; 0x08; 0x00; 1; 2; 3; 4]
  ++ repeat 0 512.

(** Scenario 1 with the kernel handed over in two halves. *)
Definition scenario1_segments_halved : list (list (list byte)) :=
  [[repeat 0xaa 0x200; repeat 0xaa 0x200]; [repeat 0xbb 0x100]; []; []].

Definition scenario1_halved_written
  : Ret * Android.AndroidFormatWriter * WState :=
  write_segments scenario1_segments_halved (result_obj scenario1_header)
                 (result_state scenario1_header).

(** * Properties *)

(** ** Integers and lists *)

Lemma u32_small (x : Z) : 0 <= x < 2 ^ 32 -> u32 x = x.
Proof. intros H. unfold u32. apply Z.mod_small. exact H. Qed.

Lemma u64_small (x : Z) : 0 <= x < 2 ^ 64 -> u64 x = x.
Proof. intros H. unfold u64. apply Z.mod_small. exact H. Qed.

Lemma u32_range (x : Z) : 0 <= u32 x < 2 ^ 32.
Proof. unfold u32. apply Z.mod_pos_bound. lia. Qed.

Lemma u64_range (x : Z) : 0 <= u64 x < 2 ^ 64.
Proof. unfold u64. apply Z.mod_pos_bound. lia. Qed.

Lemma i32_small (x : Z) : 0 <= x < 2 ^ 31 -> i32 x = x.
Proof.
  intros H. unfold i32. rewrite Z.mod_small by lia.
  destruct (Z.ltb_spec x (2 ^ 31)); lia.
Qed.

Lemma i64_small (x : Z) : 0 <= x < 2 ^ 63 -> i64 x = x.
Proof.
  intros H. unfold i64. rewrite Z.mod_small by lia.
  destruct (Z.ltb_spec x (2 ^ 63)); lia.
Qed.

Lemma i32_neg (x : Z) : 0 < x <= 2 ^ 31 -> i32 (- x) = - x.
Proof.
  intros H. unfold i32.
  replace (- x) with (2 ^ 32 - x + (-1) * 2 ^ 32) by lia.
  rewrite Z.mod_add by lia. rewrite Z.mod_small by lia.
  destruct (Z.ltb_spec (2 ^ 32 - x) (2 ^ 31)); lia.
Qed.

Lemma zlength_nonneg {A : Type} (l : list A) : 0 <= zlength l.
Proof. unfold zlength. lia. Qed.

Lemma bytes_eqb_eq (a b : list byte) : bytes_eqb a b = true <-> a = b.
Proof.
  revert b. induction a as [|x a IH]; intros [|y b]; simpl;
    try (split; (discriminate || reflexivity)).
  rewrite andb_true_iff, Z.eqb_eq, IH. split.
  - intros [-> ->]. reflexivity.
  - intros E. inversion E. auto.
Qed.

(** ** The default ramdisk address *)

(** C9.  With [ramdisk_addr == 0] in the Loki header,
    [find_ramdisk_address] touches nothing, yields
    [hdr.kernel_addr + 0x01ff8000], and fails with [InvalidKernelAddress]
    exactly when that sum does not fit 32 bits. *)
Theorem find_ramdisk_address_default :
  forall (shellcode : list byte) (hdr : AndroidHeader) (loki_hdr : LokiHeader)
         (s : RState),
    lh_ramdisk_addr loki_hdr = 0 ->
    0 <= kernel_addr hdr <= UINT32_MAX ->
    Loki.find_ramdisk_address shellcode hdr loki_hdr s
    = ((if kernel_addr hdr + 0x01ff8000 >? UINT32_MAX
        then inl (ErrLoki InvalidKernelAddress)
        else inr (kernel_addr hdr + 0x01ff8000)), s)
    /\ (fst (Loki.find_ramdisk_address shellcode hdr loki_hdr s)
        = inl (ErrLoki InvalidKernelAddress)
        <-> kernel_addr hdr + 0x01ff8000 > UINT32_MAX).
Proof.
  intros sc hdr lh s Hz Hk. unfold UINT32_MAX in *.
  assert (E : Loki.find_ramdisk_address sc hdr lh s
              = ((if kernel_addr hdr + 0x01ff8000 >? 2 ^ 32 - 1
                  then inl (ErrLoki InvalidKernelAddress)
                  else inr (kernel_addr hdr + 0x01ff8000)), s)).
  { unfold Loki.find_ramdisk_address, UINT32_MAX. rewrite Hz. simpl negb.
    cbv iota.
    destruct (Z.gtb_spec (kernel_addr hdr) (2 ^ 32 - 1 - 0x01ff8000)) as [G|G];
      destruct (Z.gtb_spec (kernel_addr hdr + 0x01ff8000) (2 ^ 32 - 1))
        as [G'|G']; try lia.
    - reflexivity.
    - unfold ret. rewrite u32_small by lia. reflexivity. }
  split; [exact E|]. rewrite E. cbn [fst].
  destruct (Z.gtb_spec (kernel_addr hdr + 0x01ff8000) (2 ^ 32 - 1)) as [G|G].
  - split; [intros _; lia | reflexivity].
  - split; [discriminate | lia].
Qed.

Lemma find_ramdisk_address_default_witness :
  fst (Loki.find_ramdisk_address demo_shellcode demo_android_header
         (mkLokiHeader LOKI_MAGIC 0 0 0 0) (rstate [] 0))
  = inr 0x82200000.
Proof.
  pose proof (find_ramdisk_address_default demo_shellcode demo_android_header
                (mkLokiHeader LOKI_MAGIC 0 0 0 0) (rstate [] 0)
                eq_refl) as H.
  destruct H as [H _].
  - unfold UINT32_MAX. simpl. lia.
  - rewrite H. reflexivity.
Defined.

(** ** Page size validation in the writer *)

Lemma valid_page_size_In (n : Z) :
  Android.valid_page_size n = true <-> In n PAGE_SIZES.
Proof.
  split.
  - intros H. unfold PAGE_SIZES. simpl.
    destruct n as [|p|p]; try discriminate.
    unfold Android.valid_page_size in H.
    repeat (destruct p as [p|p|]; try discriminate H); tauto.
  - unfold PAGE_SIZES. simpl.
    intros [<-|[<-|[<-|[<-|[<-|[<-|[<-|[]]]]]]]]; reflexivity.
Qed.

Lemma write_header_accepts (header : Header) (w : Android.AndroidFormatWriter)
      (ws : WState) (n : Z) :
  h_page_size header = Some n ->
  Android.valid_page_size n = true ->
  let r := Android.write_header header w ws in
  page_size (Android._hdr (result_obj r)) = n
  /\ (result_ret r = RET_OK /\ result_state r = with_file (result_state r).(ws_file) ws
      \/ result_ret r = RET_FAILED
         /\ ws_error (result_state r) = Some (ErrAndroid BoardNameTooLong)
         /\ fits BOOT_NAME_SIZE (board_name header) = false
      \/ result_ret r = RET_FAILED
         /\ ws_error (result_state r) = Some (ErrAndroid KernelCmdlineTooLong)
         /\ fits BOOT_ARGS_SIZE (kernel_cmdline header) = false
      \/ exists e, ws_error (result_state r) = Some (ErrFile e)
                   /\ fst (io_step (ws_file ws)) = Some e).
Proof.
  intros Hp Hv. cbv zeta. unfold Android.write_header. rewrite Hp, Hv.
  cbn [negb]. cbv iota.
  unfold fits.
  destruct (board_name header) as [bn|];
    [destruct (Z.geb_spec (zlength bn) BOOT_NAME_SIZE) as [Gb|Gb]|];
    try (split; [reflexivity|]; right; left;
         repeat split; try reflexivity;
         apply Z.ltb_ge; lia);
    (destruct (kernel_cmdline header) as [cl|];
     [destruct (Z.geb_spec (zlength cl) BOOT_ARGS_SIZE) as [Gc|Gc]|];
     try (split; [reflexivity|]; right; right; left;
          repeat split; try reflexivity;
          apply Z.ltb_ge; lia)).
  all: cbn [Android.opt_apply SegmentWriter.set_entries
            SegmentWriter.distinct_types SegmentWriter.has_type
            SegmentWriter.swe_type EntryType_eqb negb andb orb].
  all: unfold seek; destruct (io_step (ws_file ws)) as [[e|] f1] eqn:Eio.
  all: try (split; [reflexivity|]; right; right; right; exists e;
            split; reflexivity).
  all: cbn [Android.set_hdr Android.set_seg Android._hdr page_size
            Android.with_cmdline Android.with_name Android.with_page_size].
  all: apply valid_page_size_In in Hv; unfold PAGE_SIZES in Hv; simpl in Hv.
  all: destruct Hv as [<-|[<-|[<-|[<-|[<-|[<-|[<-|[]]]]]]]].
  all: split; [reflexivity|]; left; split; reflexivity.
Qed.

(** C8.  [write_header] fails with [MissingPageSize] when the page size is
    unset and with [InvalidPageSize] when it is set to a value outside
    2048, 4096, 8192, 16384, 32768, 65536, 131072; a page size of that set
    passes the validation: it is stored in the header, the call never
    reports one of the two page size errors, and it returns [RET_OK] when
    the board name and the command line fit and the seek to the first page
    succeeds. *)
Theorem write_header_page_size :
  forall (header : Header) (w : Android.AndroidFormatWriter) (ws : WState),
    let r := Android.write_header header w ws in
    (h_page_size header = None ->
     result_ret r = RET_FAILED
     /\ ws_error (result_state r) = Some (ErrAndroid MissingPageSize))
    /\ (forall n, h_page_size header = Some n -> ~ In n PAGE_SIZES ->
        result_ret r = RET_FAILED
        /\ ws_error (result_state r) = Some (ErrAndroid InvalidPageSize))
    /\ (forall n, h_page_size header = Some n -> In n PAGE_SIZES ->
        page_size (Android._hdr (result_obj r)) = n
        /\ (result_ret r = RET_OK
            \/ exists e, ws_error (result_state r) = Some e
                         /\ e <> ErrAndroid MissingPageSize
                         /\ e <> ErrAndroid InvalidPageSize)
        /\ (fits BOOT_NAME_SIZE (board_name header) = true ->
            fits BOOT_ARGS_SIZE (kernel_cmdline header) = true ->
            fst (io_step (ws_file ws)) = None ->
            result_ret r = RET_OK)).
Proof.
  intros header w ws r. repeat split.
  - subst r. unfold Android.write_header. rewrite H. reflexivity.
  - subst r. unfold Android.write_header. rewrite H. reflexivity.
  - subst r. unfold Android.write_header. rewrite H.
    destruct (Android.valid_page_size n) eqn:E;
      [apply valid_page_size_In in E; contradiction | reflexivity].
  - subst r. unfold Android.write_header. rewrite H.
    destruct (Android.valid_page_size n) eqn:E;
      [apply valid_page_size_In in E; contradiction | reflexivity].
  - apply valid_page_size_In in H0.
    destruct (write_header_accepts header w ws H H0) as [P _]. exact P.
  - apply valid_page_size_In in H0.
    destruct (write_header_accepts header w ws H H0) as [_ P].
    fold r in P.
    destruct P as [[P _]|[(_ & P & _)|[(_ & P & _)|(e & P & _)]]].
    + left. exact P.
    + right. eexists. split; [exact P|]. split; discriminate.
    + right. eexists. split; [exact P|]. split; discriminate.
    + right. eexists. split; [exact P|]. split; discriminate.
  - intros Fb Fc Fio. apply valid_page_size_In in H0.
    destruct (write_header_accepts header w ws H H0) as [_ P].
    fold r in P.
    destruct P as [[P _]|[(_ & _ & P)|[(_ & _ & P)|(e & _ & P)]]];
      congruence.
Qed.

Lemma write_header_page_size_witness :
  result_ret (Android.write_header (demo_header None) (fresh_writer false)
                                   (wstate [] 0)) = RET_FAILED
  /\ ws_error (result_state
                 (Android.write_header (demo_header (Some 1024))
                                       (fresh_writer false) (wstate [] 0)))
     = Some (ErrAndroid InvalidPageSize)
  /\ result_ret (Android.write_header (demo_header (Some 2048))
                                      (fresh_writer false) (wstate [] 0))
     = RET_OK.
Proof.
  split; [|split].
  - apply (write_header_page_size (demo_header None) (fresh_writer false)
                                  (wstate [] 0)).
    reflexivity.
  - apply (proj1 (proj2 (write_header_page_size (demo_header (Some 1024))
                           (fresh_writer false) (wstate [] 0))) 1024).
    + reflexivity.
    + unfold PAGE_SIZES. simpl. intros H. repeat destruct H as [H|H];
        try discriminate H. exact H.
  - apply (proj2 (proj2 (write_header_page_size (demo_header (Some 2048))
                           (fresh_writer false) (wstate [] 0))) 2048).
    + reflexivity.
    + unfold PAGE_SIZES. simpl. tauto.
    + reflexivity.
    + reflexivity.
    + reflexivity.
Defined.

(** ** The bid of the Loki reader *)

Lemma io_step_data (f f1 : File) (flt : option FileError) :
  io_step f = (flt, f1) -> f_data f1 = f_data f /\ f_pos f1 = f_pos f.
Proof.
  unfold io_step. destruct (f_faults f) as [|[e|] l]; intros E;
    inversion E; split; reflexivity.
Qed.

(** [find_loki_header] fails with a stream error when one of its two
    stream calls fails, with a Loki error when both succeed and the header
    is not there, and succeeds otherwise. *)
Lemma find_loki_header_cases (s : RState) :
  match fst (Loki.find_loki_header s) with
  | inl (ErrFile e) =>
      fst (io_step (rs_file s)) = Some e
      \/ fst (io_step (rs_file s)) = None
         /\ fst (io_step (set_pos LOKI_MAGIC_OFFSET
                                  (snd (io_step (rs_file s))))) = Some e
  | inl (ErrLoki e) =>
      (e = LokiHeaderTooSmall \/ e = InvalidLokiMagic)
      /\ loki_header_present (f_data (rs_file s)) = false
  | inl _ => False
  | inr (h, off) =>
      off = LOKI_MAGIC_OFFSET
      /\ loki_header_present (f_data (rs_file s)) = true
      /\ h = loki_header_of_bytes
               (slice (f_data (rs_file s)) LOKI_MAGIC_OFFSET LOKI_HEADER_SIZE)
  end.
Proof.
  unfold Loki.find_loki_header, bind, io, seek, read_fully.
  destruct (io_step (rs_file s)) as [[e|] f1] eqn:E1; cbn [fst snd].
  - left. reflexivity.
  - destruct (io_step_data _ E1) as [D1 _].
    change (0 + LOKI_MAGIC_OFFSET <? 0) with false. cbv iota.
    cbn [rs_file]. change (0 + LOKI_MAGIC_OFFSET) with LOKI_MAGIC_OFFSET.
    destruct (io_step (set_pos LOKI_MAGIC_OFFSET f1)) as [[e|] f2] eqn:E2;
      cbn [fst snd].
    + right. split; reflexivity.
    + destruct (io_step_data _ E2) as [D2 P2]. cbn [rs_file rs_fatal].
      rewrite D2, P2. cbn [set_pos f_data f_pos]. rewrite D1.
      unfold loki_header_present.
      destruct (zlength (slice (f_data (rs_file s)) LOKI_MAGIC_OFFSET
                               LOKI_HEADER_SIZE) =? LOKI_HEADER_SIZE);
        cbn [negb andb fst fail].
      * destruct (bytes_eqb _ LOKI_MAGIC); cbn [negb fst fail ret].
        -- repeat split.
        -- split; [right|]; reflexivity.
      * split; [left|]; reflexivity.
Qed.

(** C7.  [bid] returns -2 when [best_bid] is at least the number of magic
    bits, 8 * (8 + 4).  Otherwise it looks for the Loki header, then for
    the Android header within the Loki cap: it returns the number of magic
    bits when both are found, 0 when the first search that fails reports
    the header as not there (a Loki error, or [HeaderNotFound] or
    [HeaderOutOfBounds]), and -1 when it fails with any other error.  The
    Loki search fails with a Loki error exactly when its stream calls
    succeed and the header is not at 0x400, and with the stream's error
    when a stream call fails. *)
Theorem bid_spec :
  forall (android_find_header : Z -> ST RState (AndroidHeader * Z))
         (best_bid : Z) (st : Loki.OState),
    let bits := 8 * (BOOT_MAGIC_SIZE + LOKI_MAGIC_SIZE) in
    let r := Loki.bid android_find_header best_bid st in
    (best_bid >= bits -> r = (-2, st))
    /\ (best_bid < bits ->
        match Loki.find_loki_header (snd st) with
        | (inl e, s1) =>
            fst r = (if is_loki_category e then 0 else -1)
            /\ (is_loki_category e = true ->
                loki_header_present (f_data (rs_file (snd st))) = false)
            /\ (is_loki_category e = false -> exists fe, e = ErrFile fe)
        | (inr _, s1) =>
            loki_header_present (f_data (rs_file (snd st))) = true
            /\ match android_find_header LOKI_MAX_HEADER_OFFSET s1 with
               | (inl e, _) => fst r = (if is_not_found e then 0 else -1)
               | (inr _, _) => fst r = bits
               end
        end).
Proof.
  intros afh best_bid st bits r. split.
  - intros H. subst r. unfold Loki.bid.
    change (i32 (BOOT_MAGIC_SIZE + LOKI_MAGIC_SIZE) * 8) with 96.
    change bits with 96 in H.
    destruct (Z.geb_spec best_bid 96); [reflexivity | lia].
  - intros H. subst r. unfold Loki.bid.
    change (i32 (BOOT_MAGIC_SIZE + LOKI_MAGIC_SIZE) * 8) with 96.
    change bits with 96 in *.
    destruct (Z.geb_spec best_bid 96); [lia|].
    unfold Loki.lift.
    pose proof (find_loki_header_cases (snd st)) as C.
    destruct (Loki.find_loki_header (snd st)) as [[e|[h off]] s1];
      cbn [fst snd] in *.
    + destruct e as [fe|le|ae|se]; cbn [is_loki_category]; try contradiction.
      * repeat split; [discriminate | intros _; eexists; reflexivity].
      * repeat split; [intros _; apply C | discriminate].
    + destruct C as (_ & C & _). split; [exact C|].
      destruct (afh LOKI_MAX_HEADER_OFFSET s1) as [[e|[ah aoff]] s2];
        cbn [fst snd].
      * destruct e as [fe|le|ae|se]; try reflexivity.
        destruct ae; reflexivity.
      * reflexivity.
Qed.

Lemma bid_spec_witness :
  fst (Loki.bid demo_find_header 0 (fresh_reader, rstate loki_image 0)) = 96
  /\ fst (Loki.bid demo_find_header 0 (fresh_reader, rstate [] 0)) = 0
  /\ fst (Loki.bid demo_find_header 0
            (fresh_reader,
             mkRState (mkFile loki_image 0 [Some (mkFileError 5 true)] false)
                      false)) = -1.
Proof.
  split; [|split].
  - pose proof (bid_spec demo_find_header 0
                  (fresh_reader, rstate loki_image 0)) as H.
    cbv zeta in H. destruct H as [_ H].
    assert (L : 0 < 8 * (BOOT_MAGIC_SIZE + LOKI_MAGIC_SIZE)) by reflexivity.
    specialize (H L). vm_compute in H. vm_compute. apply H.
  - pose proof (bid_spec demo_find_header 0
                  (fresh_reader, rstate [] 0)) as H.
    cbv zeta in H. destruct H as [_ H].
    assert (L : 0 < 8 * (BOOT_MAGIC_SIZE + LOKI_MAGIC_SIZE)) by reflexivity.
    specialize (H L). vm_compute in H. vm_compute. apply H.
  - vm_compute. reflexivity.
Defined.

(** ** Stream calls on a file without pending faults *)

Lemma io_step_healthy (f : File) : f_faults f = [] -> io_step f = (None, f).
Proof. intros H. unfold io_step. rewrite H. reflexivity. Qed.

Lemma seek_healthy (off : Z) (w : Whence) (f : File) :
  f_faults f = [] ->
  let p := match w with
           | SEEK_SET => 0
           | SEEK_CUR => f_pos f
           | SEEK_END => zlength (f_data f)
           end + off in
  0 <= p ->
  seek off w f = (inr p, set_pos p f).
Proof.
  intros H p Hp. unfold seek. rewrite (io_step_healthy f H). fold p.
  destruct (Z.ltb_spec p 0); [lia | reflexivity].
Qed.

Lemma read_fully_healthy (n : Z) (f : File) :
  f_faults f = [] ->
  read_fully n f
  = (inr (slice (f_data f) (f_pos f) n),
     set_pos (f_pos f + zlength (slice (f_data f) (f_pos f) n)) f).
Proof.
  intros H. unfold read_fully. rewrite (io_step_healthy f H). reflexivity.
Qed.

Lemma write_fully_healthy (buf : list byte) (f : File) :
  f_faults f = [] ->
  write_fully buf f
  = (inr (zlength buf),
     set_pos (f_pos f + zlength buf)
             (set_data (write_at (f_pos f) buf (f_data f)) f)).
Proof.
  intros H. unfold write_fully. rewrite (io_step_healthy f H). reflexivity.
Qed.

(** ** The matches of a search *)

Lemma occurrences_In (pat d : list byte) (lo hi m : Z) :
  In m (occurrences pat d lo hi)
  <-> lo <= m < hi /\ match_at pat d hi m = true.
Proof.
  unfold occurrences. rewrite filter_In, in_map_iff. split.
  - intros [(i & <- & Hi) M]. apply in_seq in Hi. split; [lia | exact M].
  - intros [R M]. split; [|exact M].
    exists (Z.to_nat (m - lo)). split; [lia|]. apply in_seq. lia.
Qed.

Lemma match_at_bounds (pat d : list byte) (hi m : Z) :
  match_at pat d hi m = true ->
  0 <= m /\ m + zlength pat <= hi
  /\ slice d m (zlength pat) = pat.
Proof.
  unfold match_at. rewrite !andb_true_iff, Z.leb_le, Z.leb_le, bytes_eqb_eq.
  tauto.
Qed.

(** A pattern that occurs nowhere in the data is not found from any
    starting offset. *)
Lemma occurrences_nil_from (pat d : list byte) (lo hi : Z) :
  occurrences pat d 0 hi = [] -> occurrences pat d lo hi = [].
Proof.
  intros H. destruct (occurrences pat d lo hi) as [|m l] eqn:E;
    [reflexivity|].
  assert (I : In m (occurrences pat d lo hi)) by (rewrite E; left; reflexivity).
  apply occurrences_In in I. destruct I as [R M].
  destruct (match_at_bounds _ _ _ _ M) as [P _].
  assert (I0 : In m (occurrences pat d 0 hi))
    by (apply occurrences_In; split; [lia | exact M]).
  rewrite H in I0. destruct I0.
Qed.

(** With a budget of one match the shellcode callback runs once: the
    userdata ends as the first match, or stays as it was. *)
Lemma report_shellcode (ms : list Z) (u : Z) (f : File) :
  report Loki.shellcode_cb ms 1 u f = (inr tt, hd u ms, f).
Proof.
  destruct ms as [|m ms]; [reflexivity|].
  cbn [report Loki.shellcode_cb hd]. change (1 =? 0) with false. cbv iota.
  change (if 1 <? 0 then 1 else 1 - 1) with 0.
  destruct ms; reflexivity.
Qed.

(** ** The shellcode search of [find_ramdisk_address] *)

Lemma shellcode_search_result (shellcode : list byte) (s : RState) :
  fst (io_step (rs_file s)) = None ->
  shellcode_search shellcode s
  = (inr (hd 0 (shellcode_matches shellcode (rs_file s))),
     mkRState (snd (io_step (rs_file s))) (rs_fatal s)).
Proof.
  intros H. unfold shellcode_search, io_search, file_search.
  destruct (io_step (rs_file s)) as [flt f1] eqn:E. cbn [fst snd] in *.
  subst flt. destruct (io_step_data _ E) as [D P].
  change (-1 <? 0) with true. cbv iota.
  rewrite report_shellcode. unfold shellcode_matches. rewrite D, P.
  reflexivity.
Qed.

Lemma find_ramdisk_address_unfold (shellcode : list byte)
      (hdr : AndroidHeader) (loki_hdr : LokiHeader) (s : RState) :
  lh_ramdisk_addr loki_hdr <> 0 ->
  Loki.find_ramdisk_address shellcode hdr loki_hdr s
  = match shellcode_search shellcode s with
    | (inl e, s') => (inl e, s')
    | (inr offset, s') =>
        if offset =? 0 then (inl (ErrLoki ShellcodeNotFound), s')
        else
          (_ <- io (seek (i64 (u64 (offset
                                    + (Loki.LOKI_SHELLCODE_SIZE shellcode
                                       - 5)))) SEEK_SET) ;;
           raw <- io (read_fully 4) ;;
           if negb (zlength raw =? 4)
           then fail (ErrLoki UnexpectedEndOfFile)
           else ret (le32_value raw)) s'
    end.
Proof.
  intros H. unfold Loki.find_ramdisk_address.
  destruct (Z.eqb_spec (lh_ramdisk_addr loki_hdr) 0) as [E|E];
    [contradiction|]. cbn [negb].
  unfold bind at 1. fold (shellcode_search shellcode).
  destruct (shellcode_search shellcode s) as [[e|offset] s']; [reflexivity|].
  destruct (offset =? 0); reflexivity.
Qed.

(** C10.  With a nonzero [ramdisk_addr] in the Loki header and a search
    that does not fail, the search leaves in [offset] the first match from
    the position it starts at, or the initial 0 when there is none, and
    [find_ramdisk_address] reports [ShellcodeNotFound] exactly when
    [offset] is 0: when the trimmed shellcode occurs nowhere in the file,
    and also when the match it reports starts at offset 0. *)
Theorem shellcode_not_found_is_offset_zero :
  forall (shellcode : list byte) (hdr : AndroidHeader) (loki_hdr : LokiHeader)
         (s : RState),
    lh_ramdisk_addr loki_hdr <> 0 ->
    fst (io_step (rs_file s)) = None ->
    let offset := hd 0 (shellcode_matches shellcode (rs_file s)) in
    let r := Loki.find_ramdisk_address shellcode hdr loki_hdr s in
    fst (shellcode_search shellcode s) = inr offset
    /\ (fst r = inl (ErrLoki ShellcodeNotFound) <-> offset = 0)
    /\ (occurrences (Loki.shellcode_pattern shellcode) (f_data (rs_file s)) 0
                    (zlength (f_data (rs_file s))) = [] ->
        fst r = inl (ErrLoki ShellcodeNotFound))
    /\ (forall rest, shellcode_matches shellcode (rs_file s) = 0 :: rest ->
        fst r = inl (ErrLoki ShellcodeNotFound)).
Proof.
  intros sc hdr lh s Hn Hio offset r.
  pose proof (shellcode_search_result sc s Hio) as S. fold offset in S.
  assert (Z0 : offset = 0 -> fst r = inl (ErrLoki ShellcodeNotFound)).
  { intros E. subst r. rewrite (find_ramdisk_address_unfold sc hdr lh s Hn), S.
    rewrite E. reflexivity. }
  split; [rewrite S; reflexivity|]. split; [split; [|exact Z0]|split].
  - subst r. rewrite (find_ramdisk_address_unfold sc hdr lh s Hn), S.
    destruct (Z.eqb_spec offset 0) as [E|E]; [intros _; exact E|].
    intros F. exfalso. revert F.
    unfold bind, io.
    destruct (seek _ SEEK_SET _) as [[e|p] f1]; cbn [fst];
      [discriminate|].
    cbn [rs_file]. destruct (read_fully 4 f1) as [[e|raw] f2]; cbn [fst];
      [discriminate|].
    destruct (negb (zlength raw =? 4)); cbn [fst fail ret]; discriminate.
  - intros E. apply Z0. unfold offset, shellcode_matches.
    rewrite (occurrences_nil_from _ _ (f_pos (rs_file s)) _ E). reflexivity.
  - intros rest E. apply Z0. unfold offset. rewrite E. reflexivity.
Qed.

Lemma shellcode_not_found_is_offset_zero_witness :
  fst (Loki.find_ramdisk_address demo_shellcode demo_android_header
         demo_loki_header (rstate shellcode_at_zero 0))
  = inl (ErrLoki ShellcodeNotFound)
  /\ fst (Loki.find_ramdisk_address demo_shellcode demo_android_header
            demo_loki_header (rstate (repeat 7 40) 0))
     = inl (ErrLoki ShellcodeNotFound).
Proof.
  split.
  - refine (proj2 (proj2 (proj2
             (shellcode_not_found_is_offset_zero demo_shellcode
                demo_android_header demo_loki_header
                (rstate shellcode_at_zero 0) _ eq_refl))) [] eq_refl).
    discriminate.
  - refine (proj1 (proj2 (proj2
             (shellcode_not_found_is_offset_zero demo_shellcode
                demo_android_header demo_loki_header
                (rstate (repeat 7 40) 0) _ eq_refl))) eq_refl).
    discriminate.
Defined.

(** ** The ramdisk address read from the shellcode *)











(** ** The gzip offset of an old-style image *)

Lemma slice_one_inside (d : list byte) (p : Z) :
  0 <= p < zlength d -> exists x, slice d p 1 = [x].
Proof.
  unfold slice, zlength. intros H.
  destruct (skipn (Z.to_nat p) d) as [|x l] eqn:E.
  - apply (f_equal (@length byte)) in E. rewrite length_skipn in E.
    simpl in E. lia.
  - exists x. reflexivity.
Qed.

Lemma find_all_false {A : Type} (p : A -> bool) (l : list A) :
  (forall x, In x l -> p x = false) -> find p l = None.
Proof.
  induction l as [|a l IH]; intros H; [reflexivity|].
  simpl. rewrite (H a (or_introl eq_refl)). apply IH.
  intros x I. apply H. right. exact I.
Qed.

(** One run of the gzip callback on a file without pending faults. *)
Lemma gzip_cb_step (d : list byte) (pos : Z) (fatal : bool)
      (res : Loki.SearchResult) (m : Z) :
  0 <= pos < 2 ^ 63 -> 0 <= m -> m + 3 < 2 ^ 63 ->
  let f := mkFile d pos [] fatal in
  Loki.gzip_cb f res m
  = if Loki.is_some (Loki.flag0_offset res)
       && Loki.is_some (Loki.flag8_offset res)
    then (inr Stop, res, f)
    else
      match slice d (m + 3) 1 with
      | [flags] =>
          (inr Continue,
           (if negb (Loki.is_some (Loki.flag0_offset res)) && (flags =? 0x00)
            then Loki.mkSearchResult (Some m) (Loki.flag8_offset res)
            else if negb (Loki.is_some (Loki.flag8_offset res))
                    && (flags =? 0x08)
            then Loki.mkSearchResult (Loki.flag0_offset res) (Some m)
            else res),
           f)
      | l => (inr Stop, res, mkFile d (m + 3 + zlength l) [] fatal)
      end.
Proof.
  intros Hp Hm Hm3 f. unfold Loki.gzip_cb.
  destruct (Loki.is_some (Loki.flag0_offset res)
            && Loki.is_some (Loki.flag8_offset res)); [reflexivity|].
  rewrite u64_small by lia. rewrite i64_small by lia.
  unfold seek, read_fully, io_step, set_pos. subst f.
  cbn [f_faults f_data f_pos f_fatal].
  replace (pos + 0) with pos by lia.
  destruct (Z.ltb_spec pos 0) as [L|_]; [lia|].
  cbn [f_faults f_data f_pos f_fatal].
  change (0 + (m + 3)) with (m + 3).
  destruct (Z.ltb_spec (m + 3) 0) as [L|_]; [lia|].
  cbn [f_faults f_data f_pos f_fatal].
  destruct (slice d (m + 3) 1) as [|x [|y l]]; try reflexivity.
  rewrite i64_small by lia. change (0 + pos) with pos.
  destruct (Z.ltb_spec pos 0) as [L|_]; [lia|]. reflexivity.
Qed.

Lemma or_else_none {A : Type} (a : option A) : or_else a None = a.
Proof. destruct a; reflexivity. Qed.

(** The unbounded gzip search over the candidates [lo + a], ...,
    [lo + a + n - 1]: it ends without an error, and each of the two
    offsets, unless it was already set, ends as the first match with its
    flags byte. *)
Lemma report_gzip (d : list byte) (pos : Z) (fatal : bool) (lo : Z) :
  0 <= pos < 2 ^ 63 -> zlength d < 2 ^ 63 ->
  forall (n a : nat) (res : Loki.SearchResult),
    let ms := filter (match_at Loki.gzip_deflate_magic d (zlength d))
                     (candidates lo a n) in
    exists res' f',
      report Loki.gzip_cb ms (-1) res (mkFile d pos [] fatal)
      = (inr tt, res', f')
      /\ Loki.flag8_offset res'
         = or_else (Loki.flag8_offset res) (find (has_flags d 0x08) ms)
      /\ Loki.flag0_offset res'
         = or_else (Loki.flag0_offset res) (find (has_flags d 0x00) ms).
Proof.
  intros Hp Hlen. induction n as [|n IH]; intros a res ms.
  - exists res, (mkFile d pos [] fatal). subst ms. simpl.
    rewrite !or_else_none. auto.
  - subst ms. unfold candidates. cbn [seq map filter].
    fold (candidates lo (S a) n).
    destruct (match_at Loki.gzip_deflate_magic d (zlength d)
                       (lo + Z.of_nat a)) eqn:M; [|apply IH].
    destruct (match_at_bounds _ _ _ _ M) as (M0 & M1 & _).
    change (zlength Loki.gzip_deflate_magic) with 3 in M1.
    set (m := lo + Z.of_nat a) in *.
    set (rest := filter (match_at Loki.gzip_deflate_magic d (zlength d))
                        (candidates lo (S a) n)).
    cbn [report]. change (-1 =? 0) with false. cbv iota.
    change (if -1 <? 0 then -1 else -1 - 1) with (-1).
    rewrite gzip_cb_step by lia.
    destruct (Loki.is_some (Loki.flag0_offset res)
              && Loki.is_some (Loki.flag8_offset res)) eqn:B.
    { exists res, (mkFile d pos [] fatal).
      destruct (Loki.flag0_offset res), (Loki.flag8_offset res);
        try discriminate B. cbn [or_else]. auto. }
    destruct (slice d (m + 3) 1) as [|x [|y l]] eqn:S1.
    + (* the data ends before the flags byte *)
      assert (N : forall fl, find (has_flags d fl) (m :: rest) = None).
      { intros fl. apply find_all_false. intros z [<-|I].
        - unfold has_flags. rewrite S1. reflexivity.
        - exfalso. unfold rest in I. apply filter_In in I.
          destruct I as [I Mz]. unfold candidates in I.
          apply in_map_iff in I. destruct I as (i & <- & I).
          apply in_seq in I.
          destruct (match_at_bounds _ _ _ _ Mz) as (_ & Mz1 & _).
          change (zlength Loki.gzip_deflate_magic) with 3 in Mz1.
          destruct (Z.lt_ge_cases (m + 3) (zlength d)) as [L|L]; [|lia].
          destruct (@slice_one_inside d (m + 3)) as [x E]; [lia|].
          congruence. }
      eexists res, _. split; [reflexivity|].
      rewrite !N, !or_else_none. auto.
    + (* the flags byte is [x] *)
      match goal with
      | |- context [report Loki.gzip_cb rest (-1) ?r _] =>
          destruct (IH (S a) r) as (res' & f' & R & E8 & E0)
      end.
      fold rest in R, E8, E0.
      exists res', f'. split; [exact R|].
      assert (HF : forall fl, has_flags d fl m = (x =? fl))
        by (intros fl; unfold has_flags; rewrite S1; reflexivity).
      rewrite E8, E0. cbn [find]. rewrite (HF 8), (HF 0).
      destruct (Loki.flag0_offset res) as [o0|] eqn:F0;
        destruct (Loki.flag8_offset res) as [o8|] eqn:F8;
        try discriminate B;
        destruct (Z.eqb_spec x 0) as [X0|X0];
        destruct (Z.eqb_spec x 8) as [X8|X8]; try lia;
        cbn [negb andb Loki.is_some Loki.flag0_offset Loki.flag8_offset
             or_else];
        rewrite ?F0, ?F8; auto.
    + exfalso.
      pose proof (firstn_le_length (Z.to_nat 1)
                    (skipn (Z.to_nat (m + 3)) d)) as Q.
      unfold slice in S1. rewrite S1 in Q. cbn [length] in Q.
      change (Z.to_nat 1) with 1%nat in Q. lia.
Qed.

(** C5.  On a stream that works, the gzip scan of [find_gzip_offset_old]
    looks at every match of the magic 1f 8b 08 from the start offset on
    and yields the first match whose flags byte is 0x08 when there is
    one, otherwise the first match whose flags byte is 0x00, and fails
    with [NoRamdiskGzipHeaderFound] when there is neither. *)
Theorem find_gzip_offset_old_spec :
  forall (start_offset : Z) (s : RState),
    f_faults (rs_file s) = [] ->
    0 <= f_pos (rs_file s) < 2 ^ 63 ->
    zlength (f_data (rs_file s)) < 2 ^ 63 ->
    0 <= start_offset ->
    fst (Loki.find_gzip_offset_old start_offset s)
    = first_gzip_offset (f_data (rs_file s)) start_offset.
Proof.
  intros start [[d pos faults fatal] rf]. cbn [rs_file f_faults f_pos f_data].
  intros -> Hp Hlen Hs.
  unfold Loki.find_gzip_offset_old, bind, io_search, file_search.
  cbn [rs_file rs_fatal]. rewrite io_step_healthy by reflexivity.
  cbn [f_data f_pos].
  destruct (Z.ltb_spec start 0) as [L|_]; [lia|].
  change (-1 <? 0) with true. cbv iota.
  unfold first_gzip_offset, occurrences.
  fold (candidates start 0 (Z.to_nat (zlength d - start))).
  destruct (@report_gzip d pos fatal start Hp Hlen
              (Z.to_nat (zlength d - start)) 0%nat
              (Loki.mkSearchResult None None))
    as (res' & f' & R & E8 & E0).
  rewrite R. cbn [Loki.flag8_offset Loki.flag0_offset or_else] in E8, E0.
  rewrite E8, E0.
  destruct (find (has_flags d 8) _) as [o8|]; [reflexivity|].
  destruct (find (has_flags d 0) _) as [o0|]; reflexivity.
Qed.

Lemma find_gzip_offset_old_spec_witness :
  fst (Loki.find_gzip_offset_old 1 (rstate two_gzip_file 0)) = inr 8
  /\ fst (Loki.find_gzip_offset_old 9 (rstate two_gzip_file 0)) = inr 14
  /\ fst (Loki.find_gzip_offset_old 1 (rstate (firstn 8 two_gzip_file) 0))
     = inr 2
  /\ fst (Loki.find_gzip_offset_old 15 (rstate two_gzip_file 0))
     = inl (ErrLoki NoRamdiskGzipHeaderFound).
Proof.
  split; [|split; [|split]].
  - rewrite (@find_gzip_offset_old_spec 1 (rstate two_gzip_file 0)).
    + vm_compute. reflexivity.
    + reflexivity.
    + vm_compute. split; [discriminate | reflexivity].
    + vm_compute. reflexivity.
    + discriminate.
  - vm_compute. reflexivity.
  - vm_compute. reflexivity.
  - vm_compute. reflexivity.
Defined.

(** ** The segments of a Loki image *)

Lemma align_page_size_range (x ps : Z) :
  0 < ps -> 0 <= align_page_size x ps < ps.
Proof. intros H. unfold align_page_size. apply Z.mod_pos_bound. exact H. Qed.






(** ** The running SHA-1 of the writer *)

Lemma failed_or_fatal_not_ok (f : File) : failed_or_fatal f <> RET_OK.
Proof. unfold failed_or_fatal. destruct (is_fatal f); discriminate. Qed.

Lemma write_fully_count (buf : list byte) (f f' : File) (n : Z) :
  write_fully buf f = (inr n, f') -> n = zlength buf.
Proof.
  unfold write_fully. destruct (io_step f) as [[e|] f1]; intros E;
    inversion E; reflexivity.
Qed.

(** A [write_data] that returns [RET_OK] fed the whole buffer to the
    SHA-1 context and added its length to the byte counter of the slot. *)
Lemma write_data_ok (buf : list byte) (w w' : Android.AndroidFormatWriter)
      (ws ws' : WState) (n : Z) :
  Android.write_data buf w ws = (RET_OK, n, w', ws') ->
  Android.sha_fed (Android._sha_ctx w')
  = Android.sha_fed (Android._sha_ctx w) ++ buf
  /\ SegmentWriter.sw_entry_size (Android._seg w')
     = SegmentWriter.sw_entry_size (Android._seg w) + zlength buf
  /\ SegmentWriter.sw_cursor (Android._seg w')
     = SegmentWriter.sw_cursor (Android._seg w)
  /\ SegmentWriter.sw_entries (Android._seg w')
     = SegmentWriter.sw_entries (Android._seg w)
  /\ Android._hdr w' = Android._hdr w.
Proof.
  unfold Android.write_data, SegmentWriter.write_data.
  destruct (SegmentWriter.entry (Android._seg w)) as [slot|];
    [|discriminate].
  destruct (write_fully buf (ws_file ws)) as [[e|k] f'] eqn:W.
  - pose proof (failed_or_fatal_not_ok f') as N.
    destruct (failed_or_fatal f'); try contradiction; discriminate.
  - apply write_fully_count in W. subst k.
    unfold Android.SHA1_Update. intros E. inversion E; subst; clear E.
    cbn. auto.
Qed.

(** The chunks written by a loop that ran to its end are in the SHA-1
    context, in order, and counted. *)
Lemma write_chunks_ok (chunks : list (list byte)) :
  forall (w w' : Android.AndroidFormatWriter) (ws ws' : WState),
    write_chunks chunks w ws = (RET_OK, w', ws') ->
    Android.sha_fed (Android._sha_ctx w')
    = Android.sha_fed (Android._sha_ctx w) ++ concat chunks
    /\ SegmentWriter.sw_entry_size (Android._seg w')
       = SegmentWriter.sw_entry_size (Android._seg w)
         + zlength (concat chunks)
    /\ SegmentWriter.sw_cursor (Android._seg w')
       = SegmentWriter.sw_cursor (Android._seg w)
    /\ SegmentWriter.sw_entries (Android._seg w')
       = SegmentWriter.sw_entries (Android._seg w)
    /\ Android._hdr w' = Android._hdr w.
Proof.
  induction chunks as [|buf chunks IH]; intros w w' ws ws' H.
  - inversion H; subst. cbn [concat]. rewrite app_nil_r.
    unfold zlength. cbn. repeat split; lia.
  - cbn [write_chunks] in H.
    destruct (Android.write_data buf w ws) as [[[r n] w1] ws1] eqn:D.
    destruct r; try discriminate H.
    destruct (write_data_ok _ _ _ D) as (S1 & C1 & U1 & N1 & H1).
    destruct (IH _ _ _ _ H) as (S2 & C2 & U2 & N2 & H2).
    cbn [concat]. rewrite S2, S1, C2, C1, U2, U1, N2, N1, H2, H1.
    rewrite <- app_assoc. unfold zlength. rewrite length_app.
    repeat split; lia.
Qed.

Lemma nth_error_update (i : nat)
      (f : SegmentWriter.SegmentWriterEntry -> SegmentWriter.SegmentWriterEntry)
      (l : list SegmentWriter.SegmentWriterEntry) :
  nth_error (SegmentWriter.update i f l) i = option_map f (nth_error l i).
Proof.
  revert i. induction l as [|e l IH]; intros [|i]; cbn; auto.
Qed.

Lemma map_type_update (i : nat)
      (f : SegmentWriter.SegmentWriterEntry -> SegmentWriter.SegmentWriterEntry)
      (l : list SegmentWriter.SegmentWriterEntry) :
  (forall e, SegmentWriter.swe_type (f e) = SegmentWriter.swe_type e) ->
  map SegmentWriter.swe_type (SegmentWriter.update i f l)
  = map SegmentWriter.swe_type l.
Proof.
  intros H. revert i. induction l as [|e l IH]; intros [|i]; cbn;
    rewrite ?H, ?IH; reflexivity.
Qed.

Lemma seg_finish_entry_ok (seg seg' : SegmentWriter.t) (ws ws' : WState) :
  SegmentWriter.finish_entry seg ws = (RET_OK, seg', ws') ->
  exists slot,
    SegmentWriter.entry seg = Some slot
    /\ SegmentWriter.entry seg'
       = Some (SegmentWriter.mkSegmentWriterEntry
                 (SegmentWriter.swe_type slot) (SegmentWriter.swe_offset slot)
                 (Some (SegmentWriter.sw_entry_size seg))
                 (SegmentWriter.swe_align slot))
    /\ SegmentWriter.sw_cursor seg' = SegmentWriter.sw_cursor seg
    /\ map SegmentWriter.swe_type (SegmentWriter.sw_entries seg')
       = map SegmentWriter.swe_type (SegmentWriter.sw_entries seg).
Proof.
  unfold SegmentWriter.finish_entry, SegmentWriter.entry.
  destruct (SegmentWriter.sw_cursor seg) as [|i|] eqn:C; try discriminate.
  destruct (nth_error (SegmentWriter.sw_entries seg) i) as [slot|] eqn:N;
    [|discriminate].
  destruct (write_fully _ (ws_file ws)) as [[e|k] f'] eqn:W.
  - pose proof (failed_or_fatal_not_ok f') as F.
    destruct (failed_or_fatal f'); try contradiction; discriminate.
  - intros E. inversion E; subst; clear E.
    cbn [SegmentWriter.sw_cursor SegmentWriter.sw_entries
         SegmentWriter.sw_entry_size].
    exists slot. rewrite nth_error_update, N. cbn [option_map].
    repeat split. apply map_type_update. reflexivity.
Qed.

(** A [finish_entry] that returns [RET_OK] stored the byte counter as the
    size of the current slot and fed its four little-endian bytes to the
    SHA-1 context, unless the slot is a device tree of size 0. *)
Lemma finish_entry_ok (w w' : Android.AndroidFormatWriter) (ws ws' : WState) :
  0 <= SegmentWriter.sw_entry_size (Android._seg w) ->
  Android.finish_entry w ws = (RET_OK, w', ws') ->
  exists slot,
    SegmentWriter.entry (Android._seg w) = Some slot
    /\ SegmentWriter.entry (Android._seg w')
       = Some (SegmentWriter.mkSegmentWriterEntry
                 (SegmentWriter.swe_type slot) (SegmentWriter.swe_offset slot)
                 (Some (SegmentWriter.sw_entry_size (Android._seg w)))
                 (SegmentWriter.swe_align slot))
    /\ Android.sha_fed (Android._sha_ctx w')
       = Android.sha_fed (Android._sha_ctx w)
         ++ size_bytes (SegmentWriter.swe_type slot)
                       (SegmentWriter.sw_entry_size (Android._seg w))
    /\ SegmentWriter.sw_cursor (Android._seg w')
       = SegmentWriter.sw_cursor (Android._seg w)
    /\ map SegmentWriter.swe_type
           (SegmentWriter.sw_entries (Android._seg w'))
       = map SegmentWriter.swe_type
             (SegmentWriter.sw_entries (Android._seg w))
    /\ Android._hdr w'
       = Android.record_size (SegmentWriter.swe_type slot)
           (u32 (SegmentWriter.sw_entry_size (Android._seg w)))
           (Android._hdr w).
Proof.
  intros Hc. unfold Android.finish_entry.
  destruct (SegmentWriter.finish_entry (Android._seg w) ws)
    as [[r seg'] ws1] eqn:F.
  destruct r; try discriminate.
  destruct (seg_finish_entry_ok _ _ F) as (slot & E0 & E1 & C & M).
  cbn [Android.set_seg Android._seg]. rewrite E1.
  unfold Android.size_of. cbn [SegmentWriter.swe_size SegmentWriter.swe_type].
  set (size := SegmentWriter.sw_entry_size (Android._seg w)) in *.
  unfold Android.SHA1_Update. cbn [Android._sha_ctx].
  assert (SB : (if negb (EntryType_eqb (SegmentWriter.swe_type slot)
                                       ENTRY_TYPE_DEVICE_TREE)
                   || (size >? 0)
                then Some (Android.mkSHA_CTX
                             (Android.sha_fed (Android._sha_ctx w)
                              ++ le32_bytes (u32 size))
                             (Android.sha_finalised (Android._sha_ctx w)))
                else Some (Android._sha_ctx w))
               = Some (Android.mkSHA_CTX
                         (Android.sha_fed (Android._sha_ctx w)
                          ++ size_bytes (SegmentWriter.swe_type slot) size)
                         (Android.sha_finalised (Android._sha_ctx w)))).
  { unfold size_bytes.
    destruct (EntryType_eqb (SegmentWriter.swe_type slot)
                            ENTRY_TYPE_DEVICE_TREE);
      cbn [negb orb andb]; [|reflexivity].
    destruct (Z.gtb_spec size 0) as [G|G];
      destruct (Z.eqb_spec size 0) as [Q|Q]; try lia; [reflexivity|].
    rewrite app_nil_r. destruct (Android._sha_ctx w). reflexivity. }
  change (Android._sha_ctx (Android.set_seg seg' w))
    with (Android._sha_ctx w).
  rewrite SB.
  intros E. inversion E; subst; clear E.
  exists slot. cbn [Android.set_hdr Android.set_sha Android.set_seg
                    Android._seg Android._sha_ctx Android._hdr
                    Android.sha_fed].
  repeat split; auto.
Qed.

Lemma size_bytes_spec (ty : EntryType) (size : Z) :
  (ty = ENTRY_TYPE_DEVICE_TREE /\ size = 0 -> size_bytes ty size = [])
  /\ (ty <> ENTRY_TYPE_DEVICE_TREE \/ size <> 0 ->
      size_bytes ty size = le32_bytes (u32 size))
  /\ (ty <> ENTRY_TYPE_DEVICE_TREE -> size = 0 ->
      size_bytes ty size = [0; 0; 0; 0]).
Proof.
  unfold size_bytes. repeat split.
  - intros [-> ->]. reflexivity.
  - intros [N|N].
    + destruct ty; try reflexivity. contradiction.
    + destruct (Z.eqb_spec size 0) as [Q|Q]; [contradiction|].
      rewrite andb_false_r. reflexivity.
  - intros N ->. destruct ty; try reflexivity. contradiction.
Qed.

Lemma skipn_nth_error {A : Type} (l : list A) (n : nat) (x : A) :
  nth_error l n = Some x -> skipn n l = x :: skipn (S n) l.
Proof.
  revert n. induction l as [|a l IH]; intros [|n]; cbn; try discriminate.
  - intros E. inversion E. reflexivity.
  - intros E. rewrite (IH n E). reflexivity.
Qed.

Lemma EntryType_eqb_refl (ty : EntryType) : EntryType_eqb ty ty = true.
Proof. destruct ty; reflexivity. Qed.

(** [get_entry] steps to the next slot and touches nothing else. *)
Lemma get_entry_ok (w w' : Android.AndroidFormatWriter) (ws ws' : WState)
      (e : Entry) :
  Android.get_entry w ws = (RET_OK, e, w', ws') ->
  exists i slot,
    SegmentWriter.sw_cursor (Android._seg w') = SegmentWriter.AtEntry i
    /\ nth_error (SegmentWriter.sw_entries (Android._seg w')) i = Some slot
    /\ SegmentWriter.sw_entries (Android._seg w')
       = SegmentWriter.sw_entries (Android._seg w)
    /\ remaining_types (Android._seg w)
       = SegmentWriter.swe_type slot :: remaining_types (Android._seg w')
    /\ Android._sha_ctx w' = Android._sha_ctx w
    /\ Android._hdr w' = Android._hdr w.
Proof.
  unfold Android.get_entry, SegmentWriter.get_entry.
  set (next := match SegmentWriter.sw_cursor (Android._seg w) with
               | SegmentWriter.BeforeFirst => SegmentWriter.AtEntry 0
               | SegmentWriter.AtEntry i =>
                   if (S i <? length (SegmentWriter.sw_entries
                                        (Android._seg w)))%nat
                   then SegmentWriter.AtEntry (S i) else SegmentWriter.AtEnd
               | SegmentWriter.AtEnd => SegmentWriter.AtEnd
               end).
  unfold SegmentWriter.entry. cbn [SegmentWriter.sw_cursor
                                   SegmentWriter.sw_entries].
  destruct next as [|i|] eqn:N; try discriminate.
  destruct (nth_error (SegmentWriter.sw_entries (Android._seg w)) i)
    as [slot|] eqn:E; [|discriminate].
  intros Q. inversion Q; subst; clear Q.
  exists i, slot.
  cbn [Android.set_seg Android._seg Android._sha_ctx Android._hdr
       SegmentWriter.sw_cursor SegmentWriter.sw_entries].
  repeat split; try assumption.
  unfold remaining_types. cbn [SegmentWriter.sw_cursor
                               SegmentWriter.sw_entries].
  assert (T : nth_error (map SegmentWriter.swe_type
                             (SegmentWriter.sw_entries (Android._seg w))) i
              = Some (SegmentWriter.swe_type slot))
    by (rewrite nth_error_map, E; reflexivity).
  subst next.
  destruct (SegmentWriter.sw_cursor (Android._seg w)) as [|j|];
    try discriminate.
  - inversion N; subst. apply (skipn_nth_error _ 0 T).
  - destruct (S j <? length _)%nat; inversion N; subst.
    apply (skipn_nth_error _ _ T).
Qed.

(** A [write_entry] that returns [RET_OK] resets the byte counter. *)
Lemma write_entry_ok (e : Entry) (w w' : Android.AndroidFormatWriter)
      (ws ws' : WState) :
  Android.write_entry e w ws = (RET_OK, w', ws') ->
  SegmentWriter.sw_entry_size (Android._seg w') = 0
  /\ SegmentWriter.sw_cursor (Android._seg w')
     = SegmentWriter.sw_cursor (Android._seg w)
  /\ map SegmentWriter.swe_type (SegmentWriter.sw_entries (Android._seg w'))
     = map SegmentWriter.swe_type (SegmentWriter.sw_entries (Android._seg w))
  /\ Android._sha_ctx w' = Android._sha_ctx w
  /\ Android._hdr w' = Android._hdr w.
Proof.
  unfold Android.write_entry, SegmentWriter.write_entry.
  destruct (SegmentWriter.sw_cursor (Android._seg w)) as [|i|] eqn:C;
    try discriminate.
  destruct (SegmentWriter.entry (Android._seg w)) as [slot|];
    [|discriminate].
  destruct (m_type e) as [ty|]; [|discriminate].
  destruct (EntryType_eqb ty (SegmentWriter.swe_type slot)); [|discriminate].
  destruct (seek 0 SEEK_CUR (ws_file ws)) as [[err|off] f'].
  - pose proof (failed_or_fatal_not_ok f') as F.
    destruct (failed_or_fatal f'); try contradiction; discriminate.
  - intros Q. inversion Q; subst; clear Q.
    cbn [Android.set_seg Android._seg Android._sha_ctx Android._hdr
         SegmentWriter.sw_cursor SegmentWriter.sw_entries
         SegmentWriter.sw_entry_size].
    repeat split; try assumption. apply map_type_update. reflexivity.
Qed.

Lemma remaining_types_same (seg seg' : SegmentWriter.t) :
  SegmentWriter.sw_cursor seg' = SegmentWriter.sw_cursor seg ->
  map SegmentWriter.swe_type (SegmentWriter.sw_entries seg')
  = map SegmentWriter.swe_type (SegmentWriter.sw_entries seg) ->
  remaining_types seg' = remaining_types seg.
Proof. unfold remaining_types. intros -> ->. reflexivity. Qed.

(** One segment written with [RET_OK] throughout: the SHA-1 context has
    received its payload and the size bytes of its slot. *)
Lemma write_segment_ok (chunks : list (list byte))
      (w w' : Android.AndroidFormatWriter) (ws ws' : WState) :
  write_segment chunks w ws = (RET_OK, w', ws') ->
  exists ty,
    remaining_types (Android._seg w) = ty :: remaining_types (Android._seg w')
    /\ Android.sha_fed (Android._sha_ctx w')
       = Android.sha_fed (Android._sha_ctx w) ++ concat chunks
         ++ size_bytes ty (zlength (concat chunks))
    /\ Android._hdr w'
       = Android.record_size ty (u32 (zlength (concat chunks)))
                             (Android._hdr w).
Proof.
  unfold write_segment.
  destruct (Android.get_entry w ws) as [[[r0 e] w0] ws0] eqn:G.
  destruct r0; try discriminate.
  destruct (get_entry_ok _ _ G) as (i & slot & C0 & N0 & _ & R0 & S0 & H0).
  unfold and_then.
  destruct (Android.write_entry e w0 ws0) as [[r1 w1] ws1] eqn:WE.
  destruct r1; try discriminate.
  destruct (write_entry_ok _ _ _ WE) as (Z1 & C1 & M1 & S1 & H1).
  destruct (write_chunks chunks w1 ws1) as [[r2 w2] ws2] eqn:WC.
  destruct r2; try discriminate.
  destruct (write_chunks_ok _ _ _ WC) as (S2 & Z2 & C2 & N2 & H2).
  intros F.
  assert (Hc : 0 <= SegmentWriter.sw_entry_size (Android._seg w2))
    by (rewrite Z2, Z1; pose proof (zlength_nonneg (concat chunks)); lia).
  destruct (finish_entry_ok _ _ Hc F) as (slot' & E3 & _ & S3 & C3 & M3 & H3).
  assert (Ty : SegmentWriter.swe_type slot' = SegmentWriter.swe_type slot).
  { unfold SegmentWriter.entry in E3. rewrite C2, C1, C0 in E3.
    rewrite N2 in E3.
    pose proof (f_equal (fun l => nth_error l i) M1) as Q. cbn beta in Q.
    rewrite !nth_error_map, E3, N0 in Q. cbn in Q. congruence. }
  exists (SegmentWriter.swe_type slot). split; [|split].
  - rewrite R0. f_equal. symmetry.
    rewrite (@remaining_types_same _ _ C3 M3).
    rewrite (@remaining_types_same (Android._seg w1) (Android._seg w2) C2
               ltac:(rewrite N2; reflexivity)).
    apply (@remaining_types_same _ _ C1 M1).
  - rewrite S3, S2, S1, S0, Ty, Z2, Z1, Z.add_0_l, <- app_assoc.
    reflexivity.
  - rewrite H3, H2, H1, H0, Ty, Z2, Z1, Z.add_0_l. reflexivity.
Qed.

Lemma write_segments_ok (segs : list (list (list byte))) :
  forall (w w' : Android.AndroidFormatWriter) (ws ws' : WState),
    write_segments segs w ws = (RET_OK, w', ws') ->
    Android.sha_fed (Android._sha_ctx w')
    = Android.sha_fed (Android._sha_ctx w)
      ++ hashed (remaining_types (Android._seg w)) segs.
Proof.
  induction segs as [|chunks segs IH]; intros w w' ws ws' H.
  - inversion H; subst.
    destruct (remaining_types (Android._seg w')); cbn [hashed];
      rewrite app_nil_r; reflexivity.
  - cbn [write_segments] in H. unfold and_then in H.
    destruct (write_segment chunks w ws) as [[r w1] ws1] eqn:W1.
    destruct r; try discriminate H.
    destruct (write_segment_ok _ _ _ W1) as (ty & R & S1 & _).
    rewrite (IH _ _ _ _ H), S1, R. cbn [hashed].
    rewrite <- !app_assoc. reflexivity.
Qed.

(** A [write_header] that returns [RET_OK] installed the four slots and
    left the SHA-1 context alone. *)
Lemma write_header_ok (header : Header) (w w' : Android.AndroidFormatWriter)
      (ws ws' : WState) :
  Android.write_header header w ws = (RET_OK, w', ws') ->
  remaining_types (Android._seg w')
  = [ENTRY_TYPE_KERNEL; ENTRY_TYPE_RAMDISK; ENTRY_TYPE_SECONDBOOT;
     ENTRY_TYPE_DEVICE_TREE]
  /\ Android._sha_ctx w' = Android._sha_ctx w.
Proof.
  unfold Android.write_header.
  destruct (h_page_size header) as [ps|]; [|discriminate].
  destruct (Android.valid_page_size ps); [|discriminate]. cbn [negb].
  destruct (match board_name header with
            | Some bn => _ | None => _ end) as [h1|]; [|discriminate].
  destruct (match kernel_cmdline header with
            | Some cl => _ | None => _ end) as [h2|]; [|discriminate].
  cbn [SegmentWriter.set_entries SegmentWriter.distinct_types
       SegmentWriter.has_type SegmentWriter.swe_type EntryType_eqb
       negb andb orb].
  destruct (seek _ SEEK_SET (ws_file ws)) as [[err|off] f'].
  - pose proof (failed_or_fatal_not_ok f') as F.
    destruct (failed_or_fatal f'); try contradiction; discriminate.
  - intros Q. inversion Q; subst; clear Q. split; reflexivity.
Qed.

(** C2.  Every [write_data] that returns [RET_OK] feeds its whole buffer
    to the SHA-1 context, and every [finish_entry] that returns [RET_OK]
    feeds the little-endian 32-bit size of the segment, unless the segment
    is a device tree of size 0; the size of an empty kernel, ramdisk or
    secondboot segment is fed as four zero bytes.  So for every sequence
    of segments written after [write_header], the context has received
    each payload in order, each followed by its size with that one
    exception. *)
Theorem sha1_covers_payload_and_sizes :
  (forall (buf : list byte) (w w' : Android.AndroidFormatWriter)
          (ws ws' : WState) (n : Z),
      Android.write_data buf w ws = (RET_OK, n, w', ws') ->
      Android.sha_fed (Android._sha_ctx w')
      = Android.sha_fed (Android._sha_ctx w) ++ buf)
  /\ (forall (w w' : Android.AndroidFormatWriter) (ws ws' : WState),
         0 <= SegmentWriter.sw_entry_size (Android._seg w) ->
         Android.finish_entry w ws = (RET_OK, w', ws') ->
         exists slot,
           SegmentWriter.entry (Android._seg w) = Some slot
           /\ Android.sha_fed (Android._sha_ctx w')
              = Android.sha_fed (Android._sha_ctx w)
                ++ size_bytes (SegmentWriter.swe_type slot)
                     (SegmentWriter.sw_entry_size (Android._seg w)))
  /\ (forall (ty : EntryType) (size : Z),
         (ty = ENTRY_TYPE_DEVICE_TREE /\ size = 0 -> size_bytes ty size = [])
         /\ (ty <> ENTRY_TYPE_DEVICE_TREE \/ size <> 0 ->
             size_bytes ty size = le32_bytes (u32 size))
         /\ (ty <> ENTRY_TYPE_DEVICE_TREE -> size = 0 ->
             size_bytes ty size = [0; 0; 0; 0]))
  /\ (forall (header : Header) (segs : list (list (list byte)))
             (w w1 w2 : Android.AndroidFormatWriter) (ws ws1 ws2 : WState),
         Android.write_header header w ws = (RET_OK, w1, ws1) ->
         write_segments segs w1 ws1 = (RET_OK, w2, ws2) ->
         Android.sha_fed (Android._sha_ctx w2)
         = Android.sha_fed (Android._sha_ctx w)
           ++ hashed [ENTRY_TYPE_KERNEL; ENTRY_TYPE_RAMDISK;
                      ENTRY_TYPE_SECONDBOOT; ENTRY_TYPE_DEVICE_TREE] segs).
Proof.
  split; [|split; [|split]].
  - intros buf w w' ws ws' n H. apply (write_data_ok _ _ _ H).
  - intros w w' ws ws' Hc H.
    destruct (finish_entry_ok _ _ Hc H) as (slot & E & _ & S & _).
    exists slot. split; assumption.
  - apply size_bytes_spec.
  - intros header segs w w1 w2 ws ws1 ws2 Hh Hs.
    destruct (write_header_ok _ _ _ Hh) as (R & S).
    rewrite (write_segments_ok _ _ _ Hs), R, S. reflexivity.
Qed.

(** ** Closing the writer *)

Lemma skipn_length_app {A : Type} (x y : list A) :
  skipn (length x) (x ++ y) = y.
Proof. induction x as [|a x IH]; [reflexivity | exact IH]. Qed.

Lemma firstn_length_app {A : Type} (x y : list A) :
  firstn (length x) (x ++ y) = x.
Proof.
  induction x as [|a x IH]; [reflexivity|]. cbn. rewrite IH. reflexivity.
Qed.

Lemma write_at_prefix_length (p : Z) (d : list byte) :
  0 <= p ->
  length (firstn (Z.to_nat p) d ++ repeat 0 (Z.to_nat p - length d))
  = Z.to_nat p.
Proof.
  intros H. rewrite length_app, length_firstn, repeat_length. lia.
Qed.

(** What was written at [p] is read back at [p]. *)
Lemma slice_write_at (p : Z) (buf d : list byte) :
  0 <= p -> slice (write_at p buf d) p (zlength buf) = buf.
Proof.
  intros H. unfold slice, write_at, zlength.
  rewrite app_assoc. rewrite <- (write_at_prefix_length d H) at 1.
  rewrite skipn_length_app. rewrite Nat2Z.id. apply firstn_length_app.
Qed.

Lemma write_at_zero (buf d : list byte) :
  write_at 0 buf d = buf ++ skipn (length buf) d.
Proof. reflexivity. Qed.

(** A write at offset 0 leaves what lies behind it as it was. *)
Lemma slice_write_at_zero_behind (buf d : list byte) (q n : Z) :
  zlength buf <= q ->
  slice (write_at 0 buf d) q n = slice d q n.
Proof.
  unfold zlength. intros H. rewrite write_at_zero. unfold slice. f_equal.
  replace (Z.to_nat q) with ((Z.to_nat q - length buf) + length buf)%nat
    by lia.
  rewrite <- !skipn_skipn.
  rewrite skipn_length_app. reflexivity.
Qed.

Lemma zlength_write_at (p : Z) (buf d : list byte) :
  0 <= p -> zlength (write_at p buf d) = Z.max (zlength d) (p + zlength buf).
Proof.
  intros H. unfold write_at, zlength.
  rewrite !length_app, length_firstn, repeat_length, length_skipn. lia.
Qed.

(** C3, as the code has it.  On a stream that works, [close] returns
    [RET_OK] and remembers the final file length (the one remembered
    before, or else the current offset).  With the segment cursor at the
    end it writes the 16 bytes of the trailer there (SEANDROIDENFORCE, or
    the Bump magic for a Bump writer), stores what [SHA1_Final] yields in
    the first 20 bytes of [id], which is the SHA-1 digest of the bytes fed
    when the context was not finalised before, and after that writes the
    image of that header at offset 0.  With the cursor anywhere else it
    writes nothing and leaves the header and the SHA-1 context as they
    are. *)
Theorem close_spec :
  forall (SHA1 : list byte -> list byte)
         (SHA1_refinal : list (list byte) -> list byte -> list byte)
         (header_bytes : AndroidHeader -> list byte)
         (w : Android.AndroidFormatWriter) (ws : WState),
    f_faults (ws_file ws) = [] ->
    0 <= f_pos (ws_file ws) ->
    (forall n, Android._file_size w = Some n -> 0 <= n < 2 ^ 63) ->
    (forall l, zlength (SHA1 l) = SHA_DIGEST_LENGTH) ->
    (forall past l, zlength (SHA1_refinal past l) = SHA_DIGEST_LENGTH) ->
    let file_size := final_length w (ws_file ws) in
    let r := Android.close SHA1 SHA1_refinal header_bytes w ws in
    let trailer := if Android._is_bump w then BUMP_MAGIC
                   else SAMSUNG_SEANDROID_MAGIC in
    let fed := Android.sha_fed (Android._sha_ctx w) in
    let digest := match Android.sha_finalised (Android._sha_ctx w) with
                  | [] => SHA1 fed
                  | past => SHA1_refinal past fed
                  end in
    let h := Android._hdr w in
    let hdr := mkAndroidHeader
                 (magic h) (kernel_size h) (kernel_addr h) (ramdisk_size h)
                 (ramdisk_addr h) (second_size h) (second_addr h)
                 (tags_addr h) (page_size h) (dt_size h) (unused h)
                 (name h) (cmdline h)
                 (digest ++ skipn 20 (id h)) in
    zlength trailer = 16
    /\ result_ret r = RET_OK
    /\ Android._file_size (result_obj r) = Some file_size
    /\ (SegmentWriter.at_end (Android._seg w) = true ->
        Android._hdr (result_obj r) = hdr
        /\ (Android.sha_finalised (Android._sha_ctx w) = [] ->
            firstn 20 (id (Android._hdr (result_obj r))) = SHA1 fed)
        /\ f_data (ws_file (result_state r))
           = write_at 0 (header_bytes hdr)
                      (write_at file_size trailer (f_data (ws_file ws)))
        /\ slice (f_data (ws_file (result_state r))) 0
                 (zlength (header_bytes hdr)) = header_bytes hdr
        /\ (zlength (header_bytes hdr) <= file_size ->
            slice (f_data (ws_file (result_state r))) file_size 16
            = trailer))
    /\ (SegmentWriter.at_end (Android._seg w) = false ->
        Android._hdr (result_obj r) = Android._hdr w
        /\ Android._sha_ctx (result_obj r) = Android._sha_ctx w
        /\ f_data (ws_file (result_state r)) = f_data (ws_file ws)
        /\ f_pos (ws_file (result_state r)) = file_size).
Proof.
  intros SHA1 SHA1r hb w [[d pos faults fatal] err].
  cbn [ws_file f_faults f_pos f_data]. intros -> Hpos Hfs Hd Hr.
  cbv zeta.
  assert (T16 : zlength (trailer_of w) = 16)
    by (unfold trailer_of; destruct (Android._is_bump w); reflexivity).
  fold (trailer_of w).
  split; [exact T16|].
  set (L := final_length w (mkFile d pos [] fatal)).
  assert (HL : 0 <= L).
  { unfold L, final_length. destruct (Android._file_size w) as [n|] eqn:F.
    - apply (Hfs n eq_refl).
    - exact Hpos. }
  set (digest := match Android.sha_finalised (Android._sha_ctx w) with
                 | [] => SHA1 (Android.sha_fed (Android._sha_ctx w))
                 | past => SHA1r past (Android.sha_fed (Android._sha_ctx w))
                 end).
  assert (DL : length digest = 20%nat).
  { unfold digest.
    destruct (Android.sha_finalised (Android._sha_ctx w)) as [|x past].
    - pose proof (Hd (Android.sha_fed (Android._sha_ctx w))) as Q.
      unfold zlength in Q. change SHA_DIGEST_LENGTH with 20 in Q. lia.
    - pose proof (Hr (x :: past) (Android.sha_fed (Android._sha_ctx w)))
        as Q.
      unfold zlength in Q. change SHA_DIGEST_LENGTH with 20 in Q. lia. }
  assert (MC : Android.memcpy (id (Android._hdr w)) digest SHA_DIGEST_LENGTH
               = digest ++ skipn 20 (id (Android._hdr w))).
  { unfold Android.memcpy. change (Z.to_nat SHA_DIGEST_LENGTH) with 20%nat.
    rewrite firstn_all2 by lia. reflexivity. }
  (* the first seek *)
  assert (S1 : exists w1,
             (match Android._file_size w with
              | Some file_size =>
                  match seek (i64 file_size) SEEK_SET
                             (mkFile d pos [] fatal) with
                  | (inl err, f') => (inl err, w, f')
                  | (inr _, f') => (inr tt, w, f')
                  end
              | None =>
                  match seek 0 SEEK_CUR (mkFile d pos [] fatal) with
                  | (inl err, f') => (inl err, w, f')
                  | (inr file_size, f') =>
                      (inr tt, Android.set_file_size file_size w, f')
                  end
              end) = (inr tt, w1, mkFile d L [] fatal)
             /\ Android._file_size w1 = Some L
             /\ Android._hdr w1 = Android._hdr w
             /\ Android._sha_ctx w1 = Android._sha_ctx w
             /\ Android._seg w1 = Android._seg w
             /\ Android._is_bump w1 = Android._is_bump w).
  { unfold L, final_length. destruct (Android._file_size w) as [n|] eqn:F.
    - pose proof (Hfs n eq_refl) as Hn. rewrite i64_small by lia.
      rewrite seek_healthy by (cbn; first [reflexivity | lia]). exists w.
      repeat split; auto.
    - rewrite seek_healthy by (cbn; first [reflexivity | lia]). cbn [f_pos].
      rewrite Z.add_0_r. eexists. repeat split; auto. }
  destruct S1 as (w1 & S1 & F1 & H1 & C1 & G1 & B1).
  unfold Android.close. cbn [ws_file]. rewrite S1.
  cbn [with_file ws_file]. rewrite G1.
  destruct (SegmentWriter.at_end (Android._seg w)) eqn:AE.
  - rewrite write_fully_healthy by reflexivity.
    cbn [f_pos f_data set_pos set_data f_faults f_fatal].
    assert (TS : (zlength (if Android._is_bump w1 then BUMP_MAGIC
                           else SAMSUNG_SEANDROID_MAGIC)
                  =? (if Android._is_bump w1 then BUMP_MAGIC_SIZE
                      else SAMSUNG_SEANDROID_MAGIC_SIZE)) = true)
      by (destruct (Android._is_bump w1); reflexivity).
    rewrite TS. cbn [negb]. unfold Android.SHA1_Final.
    rewrite seek_healthy by (cbn; first [reflexivity | lia]).
    cbn [with_file ws_file set_pos f_data f_pos f_faults f_fatal].
    rewrite write_fully_healthy by reflexivity.
    cbn [f_pos f_data set_pos set_data f_faults f_fatal].
    rewrite Z.eqb_refl. cbn [negb].
    unfold result_ret, result_obj, result_state.
    cbn [fst snd ws_file f_data Android.set_hdr Android.set_sha
         Android._hdr Android._file_size Android._sha_ctx].
    change (0 + 0) with 0.
    rewrite F1, H1, C1. fold (trailer_of w1).
    replace (trailer_of w1) with (trailer_of w)
      by (unfold trailer_of; rewrite B1; reflexivity).
    fold digest. rewrite MC.
    unfold Android.with_id.
    split; [reflexivity|]. split; [reflexivity|]. split; [|discriminate].
    intros _. split; [reflexivity|].
    split.
    { intros Z0. cbn [id]. rewrite <- DL. rewrite firstn_length_app.
      unfold digest. rewrite Z0. reflexivity. }
    split; [reflexivity|].
    cbn [f_data ws_file with_file set_pos set_data].
    split; [apply slice_write_at; lia|].
    intros Hh. rewrite slice_write_at_zero_behind by exact Hh.
    rewrite <- T16. apply slice_write_at. exact HL.
  - unfold result_ret, result_obj, result_state. cbn [fst snd ws_file f_data
                                                      f_pos].
    rewrite F1, H1, C1. repeat split; try reflexivity; discriminate.
Qed.

Lemma sha1_covers_payload_and_sizes_witness :
  Android.sha_fed (Android._sha_ctx (result_obj scenario1_segments_written))
  = repeat 0xaa 0x400 ++ le32_bytes 0x400
    ++ repeat 0xbb 0x100 ++ le32_bytes 0x100 ++ le32_bytes 0.
Proof.
  assert (E1 : Android.write_header (demo_header (Some 2048))
                 (fresh_writer false) (wstate [] 0)
               = (RET_OK, result_obj scenario1_header,
                  result_state scenario1_header))
    by (vm_compute; reflexivity).
  assert (E2 : write_segments scenario1_segments
                 (result_obj scenario1_header) (result_state scenario1_header)
               = (RET_OK, result_obj scenario1_segments_written,
                  result_state scenario1_segments_written))
    by (vm_compute; reflexivity).
  rewrite (proj2 (proj2 (proj2 sha1_covers_payload_and_sizes))
             _ _ _ _ _ _ _ _ E1 E2).
  vm_compute. reflexivity.
Defined.

Lemma demo_digest_length (l : list byte) :
  zlength (demo_digest l) = SHA_DIGEST_LENGTH.
Proof.
  unfold demo_digest, zlength.
  rewrite length_firstn, length_app, repeat_length.
  change SHA_DIGEST_LENGTH with 20. lia.
Qed.

(** Scenario 1 of the specification, closed after the [get_entry] that
    reports the end of the list: the file is 6160 bytes long, with the
    trailer at 6144, the header at 0 and, in the header image, the digest
    at the place of [id]. *)
Lemma close_spec_witness :
  let r := Android.close demo_digest demo_refinal spec_header_bytes
                         (result_obj scenario1_written)
                         (result_state scenario1_written) in
  let digest :=
    demo_digest (repeat 0xaa 0x400 ++ le32_bytes 0x400
                 ++ repeat 0xbb 0x100 ++ le32_bytes 0x100 ++ le32_bytes 0) in
  result_ret r = RET_OK
  /\ id (Android._hdr (result_obj r)) = digest
  /\ zlength (f_data (ws_file (result_state r))) = 6160
  /\ slice (f_data (ws_file (result_state r))) 6144 16
     = SAMSUNG_SEANDROID_MAGIC
  /\ slice (f_data (ws_file (result_state r))) 0 8 = BOOT_MAGIC
  /\ slice (f_data (ws_file (result_state r))) 576 20 = digest.
Proof.
  cbv zeta.
  destruct (@close_spec demo_digest demo_refinal spec_header_bytes
              (result_obj scenario1_written)
              (result_state scenario1_written))
    as (_ & R & _ & A & _).
  - vm_compute. reflexivity.
  - vm_compute. discriminate.
  - intros n E. vm_compute in E. discriminate E.
  - exact demo_digest_length.
  - intros past l. reflexivity.
  - split; [exact R|].
    destruct (A ltac:(vm_compute; reflexivity)) as (H & _ & D & _ & T).
    split; [rewrite H; vm_compute; reflexivity|].
    split; [rewrite D; vm_compute; reflexivity|].
    split; [|split; rewrite D; vm_compute; reflexivity].
    change 6144 with (final_length (result_obj scenario1_written)
                        (ws_file (result_state scenario1_written))).
    rewrite T; [vm_compute; reflexivity|].
    vm_compute. discriminate.
Defined.

(** C3, as the specification words it, fails on scenario 1 closed right
    after the last [finish_entry]: every installed segment has been
    finished, but the cursor still designates the last slot, which
    [finish_entry] of the writer reads after the segment writer finished
    it.  [close] returns [RET_OK] and writes neither the trailer nor the
    header: the file keeps its 6144 bytes, does not begin with the magic,
    and the id stays zero. *)
Lemma close_after_last_finish_entry_counterexample :
  let w := result_obj scenario1_segments_written in
  let ws := result_state scenario1_segments_written in
  let r := Android.close demo_digest demo_refinal spec_header_bytes w ws in
  result_ret scenario1_segments_written = RET_OK
  /\ all_finished (Android._seg w) = true
  /\ SegmentWriter.at_end (Android._seg w) = false
  /\ result_ret r = RET_OK
  /\ f_data (ws_file (result_state r)) = f_data (ws_file ws)
  /\ zlength (f_data (ws_file (result_state r))) = 6144
  /\ slice (f_data (ws_file (result_state r))) 0 8 <> BOOT_MAGIC
  /\ id (Android._hdr (result_obj r)) = repeat 0 20.
Proof.
  cbv zeta.
  split; [vm_compute; reflexivity|]. split; [vm_compute; reflexivity|].
  split; [vm_compute; reflexivity|]. split; [vm_compute; reflexivity|].
  split; [vm_compute; reflexivity|]. split; [vm_compute; reflexivity|].
  split; [vm_compute; discriminate | vm_compute; reflexivity].
Qed.

(** * Further properties of the reader and the writer *)

(** ** Entries ([entry.cpp]) *)

Lemma option_eqb_eq {A : Type} (eqb : A -> A -> bool) (a b : option A) :
  (forall x y, eqb x y = true <-> x = y) ->
  option_eqb eqb a b = true <-> a = b.
Proof.
  intros H. destruct a as [x|], b as [y|]; cbn.
  - rewrite H. split; [intros ->; reflexivity | intros E; injection E; auto].
  - split; discriminate.
  - split; discriminate.
  - split; reflexivity.
Qed.

Lemma EntryType_eqb_eq (a b : EntryType) : EntryType_eqb a b = true <-> a = b.
Proof. destruct a, b; cbn; split; first [reflexivity | discriminate]. Qed.

(** X1.  [operator==] holds exactly when the two entries have the same
    optional type and the same optional size, [operator!=] exactly when
    they differ in one of them, and an entry that was cleared compares
    equal to a default-constructed one whatever it held. *)
Theorem Entry_eqb_spec :
  forall (a b : Entry),
    (Entry_eqb a b = true <-> m_type a = m_type b /\ m_size a = m_size b)
    /\ (Entry_eqb a b = true <-> a = b)
    /\ (Entry_neqb a b = true <-> a <> b)
    /\ Entry_eqb (Entry_clear a) (mkEntry None None) = true
    /\ Entry_eqb (Entry_clear a) (Entry_clear b) = true.
Proof.
  intros a b.
  assert (H : Entry_eqb a b = true
              <-> m_type a = m_type b /\ m_size a = m_size b).
  { unfold Entry_eqb. rewrite andb_true_iff.
    rewrite (option_eqb_eq EntryType_eqb _ _ EntryType_eqb_eq).
    rewrite (option_eqb_eq Z.eqb _ _ Z.eqb_eq). reflexivity. }
  assert (H' : Entry_eqb a b = true <-> a = b).
  { rewrite H. destruct a, b; cbn. split.
    - intros [-> ->]. reflexivity.
    - intros E. injection E; auto. }
  split; [exact H|]. split; [exact H'|]. split; [|split; reflexivity].
  unfold Entry_neqb. rewrite negb_true_iff, <- H'.
  destruct (Entry_eqb a b); split; congruence.
Qed.

(** ** Slices *)

Lemma zlength_slice (d : list byte) (off n : Z) :
  0 <= off -> 0 <= n ->
  zlength (slice d off n) = Z.min n (Z.max 0 (zlength d - off)).
Proof.
  intros Ho Hn. unfold slice, zlength.
  rewrite length_firstn, length_skipn. lia.
Qed.

Lemma slice_full_iff (d : list byte) (off n : Z) :
  0 <= off -> 0 <= n ->
  (zlength (slice d off n) =? n) = (off + n <=? zlength d) || (n =? 0).
Proof.
  intros Ho Hn. rewrite zlength_slice by assumption.
  destruct (Z.eqb_spec (Z.min n (Z.max 0 (zlength d - off))) n),
           (Z.leb_spec (off + n) (zlength d)), (Z.eqb_spec n 0);
    cbn; try reflexivity; lia.
Qed.

Lemma slice_slice_prefix (d : list byte) (off n k : Z) :
  0 <= k <= n -> slice (slice d off n) 0 k = slice d off k.
Proof.
  intros H. unfold slice. cbn [Z.to_nat skipn].
  rewrite firstn_firstn. f_equal. lia.
Qed.

Lemma slice_slice (d : list byte) (off n a k : Z) :
  0 <= off -> 0 <= a -> 0 <= k -> a + k <= n ->
  slice (slice d off n) a k = slice d (off + a) k.
Proof.
  intros Ho Ha Hk Hn. unfold slice.
  replace (Z.to_nat n) with (Z.to_nat a + (Z.to_nat n - Z.to_nat a))%nat
    by lia.
  rewrite <- firstn_skipn_comm, firstn_firstn, skipn_skipn.
  f_equal; [lia|]. f_equal. lia.
Qed.

(** ** The Loki header and the kernel header *)

(** X2.  On a stream that works, [find_loki_header] depends on the data
    alone: a file shorter than 0x400 + 0x50 bytes is [LokiHeaderTooSmall],
    also when it holds the magic at 0x400; a file that is long enough is
    [InvalidLokiMagic] unless its four bytes at 0x400 are the magic;
    otherwise the header is found at 0x400, its four integer fields being
    the little-endian words at 0x404, 0x408, 0x40c and 0x410.  The data and
    the fatal flag of the reader are left as they were. *)
Theorem find_loki_header_healthy :
  forall (s : RState),
    f_faults (rs_file s) = [] ->
    let d := f_data (rs_file s) in
    let r := Loki.find_loki_header s in
    fst r
    = (if zlength d <? LOKI_MAGIC_OFFSET + LOKI_HEADER_SIZE
       then inl (ErrLoki LokiHeaderTooSmall)
       else if bytes_eqb (slice d LOKI_MAGIC_OFFSET LOKI_MAGIC_SIZE) LOKI_MAGIC
       then inr (mkLokiHeader LOKI_MAGIC
                              (le32_value (slice d 0x404 4))
                              (le32_value (slice d 0x408 4))
                              (le32_value (slice d 0x40c 4))
                              (le32_value (slice d 0x410 4)),
                 LOKI_MAGIC_OFFSET)
       else inl (ErrLoki InvalidLokiMagic))
    /\ f_data (rs_file (snd r)) = d
    /\ rs_fatal (snd r) = rs_fatal s.
Proof.
  intros s H d r. subst r. unfold Loki.find_loki_header, bind, io.
  rewrite seek_healthy by (cbn; first [exact H | discriminate]).
  cbn [rs_file rs_fatal].
  rewrite read_fully_healthy by exact H.
  cbn [rs_file rs_fatal f_data f_pos set_pos]. fold d.
  change (0 + LOKI_MAGIC_OFFSET) with LOKI_MAGIC_OFFSET.
  rewrite slice_full_iff by (unfold LOKI_MAGIC_OFFSET, LOKI_HEADER_SIZE; lia).
  change (LOKI_HEADER_SIZE =? 0) with false. rewrite orb_false_r.
  destruct (Z.leb_spec (LOKI_MAGIC_OFFSET + LOKI_HEADER_SIZE) (zlength d))
    as [L|L]; cbn [negb].
  - destruct (Z.ltb_spec (zlength d) (LOKI_MAGIC_OFFSET + LOKI_HEADER_SIZE));
      [lia|].
    rewrite slice_slice_prefix
      by (unfold LOKI_MAGIC_SIZE, LOKI_HEADER_SIZE; lia).
    destruct (bytes_eqb (slice d LOKI_MAGIC_OFFSET LOKI_MAGIC_SIZE) LOKI_MAGIC)
      eqn:M; cbn [negb fail ret fst snd rs_file rs_fatal f_data].
    + apply bytes_eqb_eq in M.
      unfold loki_header_of_bytes.
      rewrite slice_slice_prefix by (unfold LOKI_HEADER_SIZE; lia).
      rewrite !slice_slice
        by (unfold LOKI_MAGIC_OFFSET, LOKI_HEADER_SIZE; lia).
      change LOKI_MAGIC_SIZE with 4 in M. rewrite M.
      repeat split.
    + repeat split.
  - destruct (Z.ltb_spec (zlength d) (LOKI_MAGIC_OFFSET + LOKI_HEADER_SIZE));
      [|lia].
    cbn [fail fst snd rs_file rs_fatal f_data]. repeat split.
Qed.

Lemma find_loki_header_healthy_witness :
  fst (Loki.find_loki_header (rstate loki_image 0))
  = inr (mkLokiHeader LOKI_MAGIC 0 0 0 0, LOKI_MAGIC_OFFSET)
  /\ fst (Loki.find_loki_header
            (rstate (repeat 0 (Z.to_nat 0x400) ++ LOKI_MAGIC) 0))
     = inl (ErrLoki LokiHeaderTooSmall).
Proof.
  split.
  - destruct (@find_loki_header_healthy (rstate loki_image 0)) as (H & _);
      [reflexivity|].
    rewrite H. vm_compute. reflexivity.
  - vm_compute. reflexivity.
Defined.

Lemma find_linux_kernel_size_run (kernel_offset : Z) (s : RState) :
  f_faults (rs_file s) = [] ->
  let d := f_data (rs_file s) in
  let at_ := u32 (kernel_offset + 0x2c) in
  Loki.find_linux_kernel_size kernel_offset s
  = ((if at_ + 4 <=? zlength d then inr (le32_value (slice d at_ 4))
      else inl (ErrLoki UnexpectedEndOfFile)),
     mkRState (set_pos (at_ + zlength (slice d at_ 4)) (rs_file s))
              (rs_fatal s)).
Proof.
  intros H d at_.
  unfold Loki.find_linux_kernel_size, bind, io. fold at_.
  pose proof (u32_range (kernel_offset + 0x2c)) as R. fold at_ in R.
  rewrite seek_healthy by (cbn; first [exact H | lia]).
  cbn [rs_file rs_fatal].
  rewrite read_fully_healthy by exact H.
  cbn [rs_file rs_fatal f_data f_pos set_pos f_faults f_fatal]. fold d.
  change (0 + at_) with at_.
  rewrite slice_full_iff by lia.
  change (4 =? 0) with false. rewrite orb_false_r.
  destruct (at_ + 4 <=? zlength d); reflexivity.
Qed.

(** X3.  On a stream that works, [find_linux_kernel_size] yields the
    little-endian word at [kernel_offset + 0x2c], the sum being taken in 32
    bits, and fails with [UnexpectedEndOfFile] exactly when fewer than four
    bytes of the file lie at that offset.  The data and the fatal flag of
    the reader are left as they were. *)
Theorem find_linux_kernel_size_healthy :
  forall (kernel_offset : Z) (s : RState),
    f_faults (rs_file s) = [] ->
    let d := f_data (rs_file s) in
    let at_ := u32 (kernel_offset + 0x2c) in
    let r := Loki.find_linux_kernel_size kernel_offset s in
    fst r = (if at_ + 4 <=? zlength d then inr (le32_value (slice d at_ 4))
             else inl (ErrLoki UnexpectedEndOfFile))
    /\ (0 <= kernel_offset <= UINT32_MAX - 0x2c -> at_ = kernel_offset + 0x2c)
    /\ f_data (rs_file (snd r)) = d
    /\ rs_fatal (snd r) = rs_fatal s.
Proof.
  intros ko s H d at_ r. subst r d at_.
  rewrite find_linux_kernel_size_run by exact H.
  cbn [fst snd rs_file rs_fatal set_pos f_data].
  split; [reflexivity|]. split; [|split; reflexivity].
  intros B. apply u32_small. unfold UINT32_MAX in B. lia.
Qed.

Lemma find_linux_kernel_size_healthy_witness :
  fst (Loki.find_linux_kernel_size 4
         (rstate (repeat 0 48 ++ [0x78; 0x56; 0x34; 0x12]) 0))
  = inr 0x12345678
  /\ fst (Loki.find_linux_kernel_size 4
            (rstate (repeat 0 48 ++ [0x78; 0x56; 0x34]) 0))
     = inl (ErrLoki UnexpectedEndOfFile).
Proof.
  split.
  - destruct (@find_linux_kernel_size_healthy 4
                (rstate (repeat 0 48 ++ [0x78; 0x56; 0x34; 0x12]) 0))
      as (H & _); [reflexivity|].
    rewrite H. vm_compute. reflexivity.
  - vm_compute. reflexivity.
Defined.

(** ** The fatal flag of the reader *)

Lemma flag_ret {A : Type} (a : A) : fatal_only_on_stream_error (ret a).
Proof. intros s. reflexivity. Qed.

Lemma flag_fail_loki {A : Type} (e : LokiError) :
  fatal_only_on_stream_error (@fail RState A (ErrLoki e)).
Proof. intros s. reflexivity. Qed.

Lemma flag_io {A : Type} (op : File -> (FileError + A) * File) :
  fatal_only_on_stream_error (io op).
Proof.
  intros s. unfold io. destruct (op (rs_file s)) as [[e|a] f']; reflexivity.
Qed.

Lemma flag_io_search {U : Type}
      (op : File -> (FileError + unit) * U * File) :
  fatal_only_on_stream_error (io_search op).
Proof.
  intros s. unfold io_search.
  destruct (op (rs_file s)) as [[[e|a] u] f']; reflexivity.
Qed.

Lemma flag_bind {A B : Type} (m : ST RState A) (k : A -> ST RState B) :
  fatal_only_on_stream_error m ->
  (forall a, fatal_only_on_stream_error (k a)) ->
  fatal_only_on_stream_error (bind m k).
Proof.
  intros Hm Hk s. unfold bind. specialize (Hm s).
  destruct (m s) as [[e|a] s1].
  - exact Hm.
  - specialize (Hk a s1). destruct (k a s1) as [[e|b] s2].
    + destruct e; rewrite <- Hm; exact Hk.
    + rewrite <- Hm. exact Hk.
Qed.

Ltac flag_step :=
  first
    [ apply flag_ret
    | apply flag_fail_loki
    | apply flag_io
    | apply flag_io_search
    | apply flag_bind; [|intros ?]
    | match goal with
      | |- fatal_only_on_stream_error (if ?b then _ else _) => destruct b
      | |- fatal_only_on_stream_error (match ?x with _ => _ end) => destruct x
      end
    | progress cbv zeta ].

Lemma flag_find_ramdisk_address (shellcode : list byte) (hdr : AndroidHeader)
      (loki_hdr : LokiHeader) :
  fatal_only_on_stream_error
    (Loki.find_ramdisk_address shellcode hdr loki_hdr).
Proof. unfold Loki.find_ramdisk_address. repeat flag_step. Qed.

Lemma flag_find_linux_kernel_size (kernel_offset : Z) :
  fatal_only_on_stream_error (Loki.find_linux_kernel_size kernel_offset).
Proof. unfold Loki.find_linux_kernel_size. repeat flag_step. Qed.

Lemma flag_find_gzip_offset_old (start_offset : Z) :
  fatal_only_on_stream_error (Loki.find_gzip_offset_old start_offset).
Proof. unfold Loki.find_gzip_offset_old. repeat flag_step. Qed.

Lemma flag_find_ramdisk_size_old (hdr : AndroidHeader) (ramdisk_offset : Z) :
  fatal_only_on_stream_error (Loki.find_ramdisk_size_old hdr ramdisk_offset).
Proof. unfold Loki.find_ramdisk_size_old. repeat flag_step. Qed.

(** X4.  Every helper of the Loki reader leaves the fatal flag of the
    reader as it was, unless it stops on the failure of a stream call: then
    the flag is the old one or-ed with [file.is_fatal()].  So a reader is
    never marked fatal by a Loki error, and a fatal reader stays fatal. *)
Theorem reader_fatal_only_on_stream_error :
  forall (shellcode : list byte) (hdr : AndroidHeader) (loki_hdr : LokiHeader)
         (offset : Z),
    fatal_only_on_stream_error Loki.find_loki_header
    /\ fatal_only_on_stream_error
         (Loki.find_ramdisk_address shellcode hdr loki_hdr)
    /\ fatal_only_on_stream_error (Loki.find_gzip_offset_old offset)
    /\ fatal_only_on_stream_error (Loki.find_ramdisk_size_old hdr offset)
    /\ fatal_only_on_stream_error (Loki.find_linux_kernel_size offset)
    /\ fatal_only_on_stream_error
         (Loki.read_header_new shellcode hdr loki_hdr)
    /\ fatal_only_on_stream_error
         (Loki.read_header_old shellcode hdr loki_hdr).
Proof.
  intros shellcode hdr loki_hdr offset.
  split; [unfold Loki.find_loki_header; repeat flag_step|].
  split; [apply flag_find_ramdisk_address|].
  split; [apply flag_find_gzip_offset_old|].
  split; [apply flag_find_ramdisk_size_old|].
  split; [apply flag_find_linux_kernel_size|].
  split.
  - unfold Loki.read_header_new.
    repeat first [ apply flag_find_ramdisk_address | flag_step ].
  - unfold Loki.read_header_old.
    repeat first [ apply flag_find_ramdisk_address
                 | apply flag_find_linux_kernel_size
                 | apply flag_find_gzip_offset_old
                 | apply flag_find_ramdisk_size_old
                 | flag_step ].
Qed.

(** ** The layout of a new-style image *)

Lemma align_page_size_sum (x ps : Z) :
  0 < ps -> (x + align_page_size x ps) mod ps = 0.
Proof.
  intros H. unfold align_page_size.
  rewrite Zplus_mod_idemp_r.
  replace (x + (ps - x mod ps)) with ((1 + x / ps) * ps)
    by (pose proof (Z.div_mod x ps ltac:(lia)); lia).
  apply Z_mod_mult.
Qed.

(** X5.  When [read_header_new] succeeds on headers whose fields fit their
    32-bit types, the page size is not 0, the kernel lies right behind the
    header page with the size the Loki header records, the ramdisk begins
    at the first multiple of the page size at or behind the end of the
    kernel, and the device-tree offset is the first multiple of the page
    size at or behind the end of the ramdisk, moved on by the size of the
    aboot copy (the page size for an LG ramdisk address, else 0x200) when
    the image has a device tree.  So the segments lie in this order and do
    not overlap. *)
Theorem read_header_new_layout_aligned :
  forall (shellcode : list byte) (hdr : AndroidHeader) (loki_hdr : LokiHeader)
         (s s' : RState) (l : Loki.Layout),
    u32_fields hdr loki_hdr ->
    Loki.read_header_new shellcode hdr loki_hdr s = (inr l, s') ->
    let ps := page_size hdr in
    let kernel_end := Loki.lo_kernel_offset l + Loki.lo_kernel_size l in
    let ramdisk_end := Loki.lo_ramdisk_offset l + Loki.lo_ramdisk_size l in
    let gap := if dt_size hdr =? 0 then 0
               else if is_lg_ramdisk_address (ramdisk_addr hdr) then ps
                    else 0x200 in
    0 < ps
    /\ Loki.lo_kernel_offset l = ps
    /\ Loki.lo_kernel_size l = orig_kernel_size loki_hdr
    /\ Loki.lo_ramdisk_size l = orig_ramdisk_size loki_hdr
    /\ Loki.lo_ramdisk_offset l mod ps = 0
    /\ kernel_end <= Loki.lo_ramdisk_offset l < kernel_end + ps
    /\ (Loki.lo_dt_offset l - gap) mod ps = 0
    /\ ramdisk_end + gap <= Loki.lo_dt_offset l < ramdisk_end + gap + ps.
Proof.
  intros shellcode hdr loki_hdr s s' l (Hp & Hd & Hk & Hr).
  unfold Loki.read_header_new.
  destruct (Z.eqb_spec (page_size hdr) 0) as [E|E]; [discriminate|].
  unfold bind.
  destruct (Loki.find_ramdisk_address shellcode hdr loki_hdr s)
    as [[e|ra] s1]; [discriminate|].
  unfold ret. intros Q. inversion Q; subst; clear Q.
  cbn [Loki.lo_dt_offset Loki.lo_kernel_offset Loki.lo_ramdisk_offset
       Loki.lo_kernel_size Loki.lo_ramdisk_size].
  cbv zeta.
  set (ps := page_size hdr) in *.
  assert (Hps : 0 < ps) by lia.
  change (0 + ps) with ps.
  assert (P1 : u64 ps = ps) by (apply u64_small; lia).
  rewrite P1.
  set (p2 := u64 (ps + orig_kernel_size loki_hdr)).
  assert (P2 : p2 = ps + orig_kernel_size loki_hdr)
    by (apply u64_small; lia).
  pose proof (@align_page_size_range p2 ps Hps) as A2.
  pose proof (@align_page_size_sum p2 ps Hps) as S2.
  rewrite (u64_small (x := align_page_size p2 ps)) by lia.
  set (p3 := u64 (p2 + align_page_size p2 ps)).
  assert (P3 : p3 = p2 + align_page_size p2 ps) by (apply u64_small; lia).
  set (p4 := u64 (p3 + orig_ramdisk_size loki_hdr)).
  assert (P4 : p4 = p3 + orig_ramdisk_size loki_hdr)
    by (apply u64_small; lia).
  pose proof (@align_page_size_range p4 ps Hps) as A4.
  pose proof (@align_page_size_sum p4 ps Hps) as S4.
  rewrite (u64_small (x := align_page_size p4 ps)) by lia.
  set (p5 := u64 (p4 + align_page_size p4 ps)).
  assert (P5 : p5 = p4 + align_page_size p4 ps) by (apply u64_small; lia).
  split; [exact Hps|]. split; [reflexivity|]. split; [reflexivity|].
  split; [reflexivity|].
  split; [rewrite P3; exact S2|]. split; [lia|].
  destruct (Z.eqb_spec (dt_size hdr) 0) as [D|D]; cbn [negb].
  - rewrite Z.sub_0_r. split; [rewrite P5; exact S4 | lia].
  - set (fake := if is_lg_ramdisk_address (ramdisk_addr hdr) then ps
                 else 512).
    assert (F : 0 <= fake < 2 ^ 32)
      by (unfold fake; destruct (is_lg_ramdisk_address _); lia).
    rewrite (u64_small (x := p5 + fake)) by lia.
    split; [|lia].
    replace (p5 + fake - fake) with p5 by lia. rewrite P5. exact S4.
Qed.

Lemma read_header_new_layout_aligned_witness :
  exists l s',
    Loki.read_header_new demo_shellcode demo_android_header_dt
      demo_loki_header (rstate one_shellcode_file 0) = (inr l, s')
    /\ Loki.lo_kernel_offset l = 0x800
    /\ Loki.lo_ramdisk_offset l = 0x1800
    /\ Loki.lo_dt_offset l = 0x2200
    /\ Loki.lo_ramdisk_offset l mod 2048 = 0.
Proof.
  destruct (Loki.read_header_new demo_shellcode demo_android_header_dt
              demo_loki_header (rstate one_shellcode_file 0))
    as [[e|l] s'] eqn:E.
  - vm_compute in E. discriminate E.
  - exists l, s'. split; [reflexivity|].
    destruct (@read_header_new_layout_aligned demo_shellcode
                demo_android_header_dt demo_loki_header _ _ _
                ltac:(vm_compute; repeat split; discriminate) E)
      as (_ & K & _ & _ & M & _).
    pose proof (f_equal fst E) as El. cbn [fst] in El.
    vm_compute in El. injection El as El. subst l.
    split; [reflexivity|]. split; [reflexivity|]. split; [reflexivity|].
    exact M.
Defined.

(** ** What [bid] leaves for [read_header] *)

Lemma set_entries_header_entries (hdr : AndroidHeader) (l : Loki.Layout)
      (seg : SegmentReader) :
  SegmentReader_set_entries (Loki.header_entries hdr l) seg
  = inr (mkSegmentReader (Loki.header_entries hdr l) None).
Proof.
  unfold Loki.header_entries.
  destruct ((dt_size hdr >? 0) && negb (Loki.lo_dt_offset l =? 0));
    reflexivity.
Qed.

(** X6.  [bid] answers -2, -1, 0 or the number of magic bits, never the
    bits of one magic alone.  It never touches the segment list.  Whenever
    it finds the Loki header it keeps that header and its offset 0x400 in
    the reader, also when the bid then ends with 0 or -1; when it answers
    the number of magic bits it has kept both headers and both offsets, the
    Android header being the one found within the Loki cap on the state the
    Loki search left. *)
Theorem bid_caches_headers :
  forall (android_find_header : Z -> ST RState (AndroidHeader * Z))
         (best_bid : Z) (st : Loki.OState),
    let bits := 8 * (BOOT_MAGIC_SIZE + LOKI_MAGIC_SIZE) in
    let r := Loki.bid android_find_header best_bid st in
    let self := fst (snd r) in
    In (fst r) [-2; -1; 0; bits]
    /\ Loki._seg self = Loki._seg (fst st)
    /\ (best_bid < bits ->
        forall h off,
          fst (Loki.find_loki_header (snd st)) = inr (h, off) ->
          off = LOKI_MAGIC_OFFSET
          /\ Loki._loki_hdr self = h
          /\ Loki._loki_offset self = Some LOKI_MAGIC_OFFSET)
    /\ (fst r = bits ->
        fst (Loki.find_loki_header (snd st))
        = inr (Loki._loki_hdr self, LOKI_MAGIC_OFFSET)
        /\ Loki._loki_offset self = Some LOKI_MAGIC_OFFSET
        /\ exists header_offset,
             Loki._header_offset self = Some header_offset
             /\ android_find_header LOKI_MAX_HEADER_OFFSET
                  (snd (Loki.find_loki_header (snd st)))
                = (inr (Loki._hdr self, header_offset), snd (snd r))).
Proof.
  intros afh best_bid st bits r self. subst self r. unfold Loki.bid.
  change (i32 (BOOT_MAGIC_SIZE + LOKI_MAGIC_SIZE) * 8) with 96.
  change bits with 96. clear bits.
  destruct (Z.geb_spec best_bid 96) as [G|G].
  { cbn [fst snd]. split; [left; reflexivity|]. split; [reflexivity|].
    split; [lia | discriminate]. }
  unfold Loki.lift.
  pose proof (find_loki_header_cases (snd st)) as C.
  destruct (Loki.find_loki_header (snd st)) as [[e|[h off]] s1];
    cbn [fst snd] in *.
  { split.
    - destruct (is_loki_category e); cbn; auto.
    - split; [destruct (is_loki_category e); reflexivity|].
      split; [discriminate|].
      destruct (is_loki_category e); discriminate. }
  destruct C as (Co & _ & _). subst off.
  destruct (afh LOKI_MAX_HEADER_OFFSET s1) as [[e|[ah aoff]] s2];
    cbn [fst snd].
  - destruct e as [fe|le|ae|se]; try destruct ae; cbn [fst snd];
      (split; [cbn; auto|]); (split; [reflexivity|]);
      (split; [intros _ h' off' Q; injection Q as <- <-; repeat split
              | discriminate]).
  - split; [cbn; auto|]. split; [reflexivity|].
    split.
    + intros _ h' off' Q. injection Q as <- <-. repeat split.
    + intros _. cbn [Loki._loki_hdr Loki._loki_offset Loki._header_offset
                     Loki._hdr Loki.set_android Loki.set_loki].
      split; [reflexivity|]. split; [reflexivity|].
      exists aoff. split; reflexivity.
Qed.

(** X7.  A reader that holds both header offsets, as after a winning bid,
    does not look for the headers again in [read_header]: whatever the
    header search would do, the outcome is that of the layout function
    chosen by the Loki header on the headers kept.  When that fails, the
    reader object is left as it was; when it succeeds, exactly the entries
    computed from the layout are installed, the cursor before the first,
    and the header of the layout is handed back. *)
Theorem read_header_cached :
  forall (shellcode : list byte)
         (android_find_header : Z -> ST RState (AndroidHeader * Z))
         (self : Loki.LokiFormatReader) (s : RState) (lo ho : Z),
    Loki._loki_offset self = Some lo ->
    Loki._header_offset self = Some ho ->
    Loki.read_header shellcode android_find_header (self, s)
    = match (if Loki.is_new_style (Loki._loki_hdr self)
             then Loki.read_header_new shellcode (Loki._hdr self)
                                       (Loki._loki_hdr self)
             else Loki.read_header_old shellcode (Loki._hdr self)
                                       (Loki._loki_hdr self)) s with
      | (inl e, s') => (inl e, (self, s'))
      | (inr l, s') =>
          (inr (Loki.lo_header l),
           (Loki.set_seg
              (mkSegmentReader (Loki.header_entries (Loki._hdr self) l) None)
              self, s'))
      end.
Proof.
  intros shellcode afh self s lo ho L H.
  unfold Loki.read_header, bind, Loki.get_self, Loki.lift.
  cbn [fst snd]. rewrite L. cbn [Loki.is_some negb ret fst snd].
  rewrite H. cbn [Loki.is_some negb ret fst snd].
  match goal with
  | |- context [match ?m s with _ => _ end] =>
      destruct (m s) as [[e|l] s']
  end.
  - reflexivity.
  - rewrite set_entries_header_entries. reflexivity.
Qed.

Lemma read_header_cached_witness :
  fst (Loki.read_header demo_shellcode demo_find_header
         (reader_after_bid demo_android_header_dt demo_loki_header,
          rstate one_shellcode_file 0))
  = fst (Loki.read_header demo_shellcode (fun _ => fail (ErrAndroid HeaderNotFound))
           (reader_after_bid demo_android_header_dt demo_loki_header,
            rstate one_shellcode_file 0)).
Proof.
  rewrite (@read_header_cached demo_shellcode demo_find_header
             (reader_after_bid demo_android_header_dt demo_loki_header)
             (rstate one_shellcode_file 0) LOKI_MAGIC_OFFSET 0
             eq_refl eq_refl).
  vm_compute. reflexivity.
Defined.

(** ** The layout of an old-style image *)

(** The file the gzip search leaves behind: the same data, no pending
    fault. *)
Lemma report_gzip_file (d : list byte) (fatal : bool) :
  forall (ms : list Z) (res : Loki.SearchResult) (pos : Z),
    0 <= pos < 2 ^ 63 ->
    (forall m, In m ms -> 0 <= m /\ m + 3 < 2 ^ 63) ->
    exists res' pos',
      report Loki.gzip_cb ms (-1) res (mkFile d pos [] fatal)
      = (inr tt, res', mkFile d pos' [] fatal)
      /\ 0 <= pos'.
Proof.
  induction ms as [|m ms IH]; intros res pos Hp Hm.
  - exists res, pos. split; [reflexivity | lia].
  - cbn [report]. change (-1 =? 0) with false. cbv iota.
    destruct (Hm m (or_introl eq_refl)) as [M0 M3].
    rewrite (@gzip_cb_step d pos fatal res m Hp M0 M3).
    destruct (Loki.is_some (Loki.flag0_offset res)
              && Loki.is_some (Loki.flag8_offset res)).
    + exists res, pos. split; [reflexivity | lia].
    + destruct (slice d (m + 3) 1) as [|x [|y l]].
      * exists res, (m + 3 + zlength (@nil byte)).
        split; [reflexivity | cbn; lia].
      * change (-1 <? 0) with true. cbv iota.
        apply IH; [exact Hp|]. intros m' I. apply Hm. right. exact I.
      * exists res, (m + 3 + zlength (x :: y :: l)).
        split; [reflexivity|].
        pose proof (zlength_nonneg (x :: y :: l)). lia.
Qed.

Lemma find_gzip_offset_old_run (start_offset : Z) (d : list byte)
      (pos : Z) (fatal rf : bool) :
  0 <= pos < 2 ^ 63 -> zlength d < 2 ^ 63 -> 0 <= start_offset ->
  exists pos',
    Loki.find_gzip_offset_old start_offset
      (mkRState (mkFile d pos [] fatal) rf)
    = (first_gzip_offset d start_offset,
       mkRState (mkFile d pos' [] fatal) rf)
    /\ 0 <= pos'.
Proof.
  intros Hp Hlen Hs.
  unfold Loki.find_gzip_offset_old, bind, io_search, file_search.
  cbn [rs_file rs_fatal]. rewrite io_step_healthy by reflexivity.
  cbn [f_data f_pos].
  destruct (Z.ltb_spec start_offset 0) as [L|_]; [lia|].
  change (-1 <? 0) with true. cbv iota.
  unfold first_gzip_offset.
  set (ms := occurrences Loki.gzip_deflate_magic d start_offset (zlength d)).
  destruct (@report_gzip d pos fatal start_offset Hp Hlen
              (Z.to_nat (zlength d - start_offset)) 0%nat
              (Loki.mkSearchResult None None))
    as (res' & f' & R & E8 & E0).
  unfold candidates in R, E8, E0.
  fold (occurrences Loki.gzip_deflate_magic d start_offset (zlength d))
    in R, E8, E0.
  fold ms in R, E8, E0.
  destruct (@report_gzip_file d fatal ms (Loki.mkSearchResult None None)
              pos Hp) as (res'' & pos' & R' & Hp').
  { intros m I. apply occurrences_In in I. destruct I as [_ I].
    apply match_at_bounds in I. destruct I as (I0 & I3 & _).
    change (zlength Loki.gzip_deflate_magic) with 3 in I3. lia. }
  rewrite R in R'. injection R' as <- ->.
  exists pos'. split; [|exact Hp'].
  rewrite R. cbn [Loki.flag8_offset Loki.flag0_offset or_else] in E8, E0.
  rewrite E8, E0.
  destruct (find (has_flags d 8) ms) as [o8|]; [reflexivity|].
  destruct (find (has_flags d 0) ms) as [o0|]; reflexivity.
Qed.

Lemma first_gzip_offset_sound (d : list byte) (start o : Z) :
  first_gzip_offset d start = inr o ->
  start <= o
  /\ o + 3 <= zlength d
  /\ slice d o 3 = Loki.gzip_deflate_magic
  /\ (has_flags d 0x08 o = true \/ has_flags d 0x00 o = true).
Proof.
  unfold first_gzip_offset. intros H.
  assert (K : exists fl, (fl = 0x08 \/ fl = 0x00)
                         /\ find (has_flags d fl)
                              (occurrences Loki.gzip_deflate_magic d start
                                           (zlength d)) = Some o).
  { destruct (find (has_flags d 8) _) as [o8|] eqn:E8.
    - injection H as <-. exists 8. split; [left; reflexivity | exact E8].
    - destruct (find (has_flags d 0) _) as [o0|] eqn:E0; [|discriminate].
      injection H as <-. exists 0. split; [right; reflexivity | exact E0]. }
  destruct K as (fl & Hfl & F). apply find_some in F. destruct F as [I Fl].
  apply occurrences_In in I. destruct I as [[I1 I2] I].
  apply match_at_bounds in I. destruct I as (I0 & I3 & Im).
  change (zlength Loki.gzip_deflate_magic) with 3 in *.
  split; [exact I1|]. split; [exact I3|]. split; [exact Im|].
  destruct Hfl as [-> | ->]; [left | right]; exact Fl.
Qed.

(** X8.  When [read_header_old] succeeds on a stream that works, the page
    size is not 0; the kernel lies right behind the header page and its
    size is the little-endian word at [page_size + 0x2c] of the file, not a
    field of either header; the ramdisk begins at the gzip header the scan
    picks from the end of the padded kernel on, so at the bytes 1f 8b 08
    followed by a flags byte 0x08 or 0x00; its size is the distance, cut to
    32 bits, from its offset, cut to 32 bits, to the aboot copy, which does
    not lie before it; there is no device tree; and the tags address handed
    back is [kernel_addr - 0x8000 + 0x100] in 32 bits, whatever the header
    holds. *)
Theorem read_header_old_layout_healthy :
  forall (shellcode : list byte) (hdr : AndroidHeader) (loki_hdr : LokiHeader)
         (s s' : RState) (l : Loki.Layout),
    f_faults (rs_file s) = [] ->
    zlength (f_data (rs_file s)) < 2 ^ 63 ->
    0 <= page_size hdr < 2 ^ 32 ->
    Loki.read_header_old shellcode hdr loki_hdr s = (inr l, s') ->
    let d := f_data (rs_file s) in
    let ps := page_size hdr in
    let ksize := le32_value (slice d (u32 (ps + 0x2c)) 4) in
    let start := u32 (ps + ksize + u32 (align_page_size ksize ps)) in
    let aboot_offset := aboot_offset_of hdr (zlength d) in
    let ro := Loki.lo_ramdisk_offset l in
    ps <> 0
    /\ Loki.lo_kernel_offset l = ps
    /\ Loki.lo_kernel_size l = ksize
    /\ u32 (ps + 0x2c) + 4 <= zlength d
    /\ first_gzip_offset d start = inr ro
    /\ start <= ro
    /\ slice d ro 3 = Loki.gzip_deflate_magic
    /\ (has_flags d 0x08 ro = true \/ has_flags d 0x00 ro = true)
    /\ u32 ro <= aboot_offset
    /\ Loki.lo_ramdisk_size l = u32 (aboot_offset - u32 ro)
    /\ Loki.lo_dt_offset l = 0
    /\ kernel_tags_address (Loki.lo_header l)
       = Some (u32 (kernel_addr hdr - 0x8000 + 0x100))
    /\ kernel_address (Loki.lo_header l) = Some (kernel_addr hdr)
    /\ supported_fields (Loki.lo_header l) = OLD_SUPPORTED_FIELDS.
Proof.
  intros shellcode hdr loki_hdr [[d pos faults fatal] rf] s' l.
  cbn [rs_file f_faults f_data]. intros -> Hlen Hps.
  unfold Loki.read_header_old.
  destruct (Z.eqb_spec (page_size hdr) 0) as [E|E]; [discriminate|].
  unfold bind.
  rewrite find_linux_kernel_size_run by reflexivity.
  unfold set_pos. cbn [rs_file rs_fatal f_data f_pos f_faults f_fatal].
  set (ps := page_size hdr) in *.
  set (at_ := u32 (ps + 44)).
  destruct (Z.leb_spec (at_ + 4) (zlength d)) as [L|L]; [|discriminate].
  set (ksize := le32_value (slice d at_ 4)).
  set (start := u32 (ps + ksize + u32 (align_page_size ksize ps))).
  pose proof (u32_range (ps + 44)) as Rat. fold at_ in Rat.
  pose proof (u32_range (ps + ksize + u32 (align_page_size ksize ps))) as Rs.
  fold start in Rs.
  assert (Z4 : 0 <= zlength (slice d at_ 4) <= 4)
    by (rewrite zlength_slice by lia; lia).
  destruct (@find_gzip_offset_old_run start d (at_ + zlength (slice d at_ 4))
              fatal rf ltac:(lia) Hlen ltac:(lia)) as (pos' & G & Hp').
  rewrite G. clear G.
  destruct (first_gzip_offset d start) as [e|go] eqn:FG; [discriminate|].
  destruct (first_gzip_offset_sound _ _ FG) as (G1 & G2 & G3 & G4).
  unfold Loki.find_ramdisk_size_old, bind, io, seek.
  cbn [rs_file rs_fatal]. rewrite io_step_healthy by reflexivity.
  cbn [f_data f_pos set_pos f_faults f_fatal rs_file rs_fatal].
  assert (EA : zlength d
               + i32 (- (if is_lg_ramdisk_address (ramdisk_addr hdr)
                         then i32 (page_size hdr) else 512))
               = aboot_offset_of hdr (zlength d)) by reflexivity.
  rewrite !EA. clear EA.
  destruct (Z.ltb_spec (aboot_offset_of hdr (zlength d)) 0) as [A|A];
    [cbv beta iota; discriminate|].
  unfold fail, ret, set_pos. cbv beta iota.
  destruct (Z.gtb_spec (u32 go) (aboot_offset_of hdr (zlength d))) as [B|B];
    [cbv beta iota; discriminate|].
  cbv beta iota.
  destruct (Loki.find_ramdisk_address shellcode hdr loki_hdr _)
    as [[e|ra] s3]; [discriminate|].
  intros Q. inversion Q; subst l s'; clear Q.
  cbn [Loki.lo_dt_offset Loki.lo_kernel_offset Loki.lo_ramdisk_offset
       Loki.lo_kernel_size Loki.lo_ramdisk_size Loki.lo_header
       kernel_tags_address kernel_address supported_fields].
  cbv zeta.
  split; [exact E|].
  split; [change (0 + ps) with ps; apply u64_small; lia|].
  repeat (split; [first [reflexivity | assumption | lia]|]).
  reflexivity.
Qed.

Lemma read_header_old_layout_healthy_witness :
  exists l s',
    Loki.read_header_old demo_shellcode demo_android_header
      (mkLokiHeader LOKI_MAGIC 0 0 0 0) (rstate old_style_image 0)
    = (inr l, s')
    /\ Loki.lo_kernel_offset l = 2048
    /\ Loki.lo_kernel_size l = 48
    /\ Loki.lo_ramdisk_offset l = 4096
    /\ Loki.lo_ramdisk_size l = 8
    /\ kernel_tags_address (Loki.lo_header l) = Some 0x80200100.
Proof.
  destruct (Loki.read_header_old demo_shellcode demo_android_header
              (mkLokiHeader LOKI_MAGIC 0 0 0 0) (rstate old_style_image 0))
    as [[e|l] s'] eqn:E.
  - vm_compute in E. discriminate E.
  - exists l, s'. split; [reflexivity|].
    destruct (@read_header_old_layout_healthy demo_shellcode
                demo_android_header (mkLokiHeader LOKI_MAGIC 0 0 0 0)
                (rstate old_style_image 0) s' l
                eq_refl ltac:(vm_compute; reflexivity)
                ltac:(vm_compute; split; [discriminate | reflexivity]) E)
      as (_ & K & KS & _ & G & _ & _ & _ & _ & RS & _ & T & _).
    split; [exact K|]. split; [rewrite KS; vm_compute; reflexivity|].
    assert (R : Loki.lo_ramdisk_offset l = 4096).
    { vm_compute in G. injection G as G. symmetry. exact G. }
    split; [exact R|].
    split; [rewrite RS, R; vm_compute; reflexivity|].
    rewrite T. reflexivity.
Defined.

(** ** The ramdisk size of an old-style image *)

Lemma aboot_offset_of_plain (hdr : AndroidHeader) (file_end : Z) :
  0 <= page_size hdr < 2 ^ 31 ->
  aboot_offset_of hdr file_end
  = file_end - (if is_lg_ramdisk_address (ramdisk_addr hdr)
                then page_size hdr else 0x200).
Proof.
  intros H. unfold aboot_offset_of.
  destruct (is_lg_ramdisk_address (ramdisk_addr hdr)).
  - rewrite (i32_small H).
    destruct (Z.eq_dec (page_size hdr) 0) as [->|N]; [reflexivity|].
    rewrite i32_neg by lia. lia.
  - reflexivity.
Qed.

(** What [find_ramdisk_size_old] does on a stream that works, with the
    arithmetic of the source. *)
Lemma find_ramdisk_size_old_run (hdr : AndroidHeader) (ramdisk_offset : Z)
      (s : RState) :
  f_faults (rs_file s) = [] ->
  let aboot_offset := aboot_offset_of hdr (zlength (f_data (rs_file s))) in
  0 <= aboot_offset ->
  Loki.find_ramdisk_size_old hdr ramdisk_offset s
  = ((if ramdisk_offset >? aboot_offset
      then inl (ErrLoki RamdiskOffsetGreaterThanAbootOffset)
      else inr (u32 (aboot_offset - ramdisk_offset))),
     mkRState (set_pos aboot_offset (rs_file s)) (rs_fatal s)).
Proof.
  intros H ab Hab.
  unfold Loki.find_ramdisk_size_old, bind, io.
  rewrite seek_healthy by (cbn; first [exact H | exact Hab]).
  cbn [rs_file rs_fatal].
  fold (aboot_offset_of hdr (zlength (f_data (rs_file s)))). fold ab.
  destruct (ramdisk_offset >? ab); reflexivity.
Qed.

(** For a page size below 2^31 and a file below 4 GiB that holds the aboot
    copy, the source yields the size the specification describes; the
    contents of the file play no part, so no trailing zero is stripped. *)
Lemma find_ramdisk_size_old_small (hdr : AndroidHeader) (ramdisk_offset : Z)
      (s : RState) :
  f_faults (rs_file s) = [] ->
  0 <= page_size hdr < 2 ^ 31 ->
  let file_end := zlength (f_data (rs_file s)) in
  let aboot_size := if is_lg_ramdisk_address (ramdisk_addr hdr)
                    then page_size hdr else 0x200 in
  0 <= ramdisk_offset ->
  aboot_size <= file_end < 2 ^ 32 ->
  fst (Loki.find_ramdisk_size_old hdr ramdisk_offset s)
  = claimed_ramdisk_size hdr file_end ramdisk_offset.
Proof.
  intros H Hp file_end aboot_size Hro Hf.
  pose proof (aboot_offset_of_plain hdr file_end Hp) as A.
  fold aboot_size in A.
  assert (Ha : 0 <= aboot_size)
    by (unfold aboot_size;
        destruct (is_lg_ramdisk_address (ramdisk_addr hdr)); lia).
  assert (Hab : 0 <= aboot_offset_of hdr file_end) by (rewrite A; lia).
  rewrite find_ramdisk_size_old_run by (first [exact H | exact Hab]).
  cbn [fst]. fold file_end. rewrite A.
  unfold claimed_ramdisk_size. fold aboot_size.
  destruct (Z.gtb_spec ramdisk_offset (file_end - aboot_size)) as [G|G];
    [reflexivity|].
  rewrite u32_small; [reflexivity|].
  clearbody aboot_size file_end. lia.
Qed.

(** Scenario 4 of the specification: a file of 0x4200 bytes with the
    ramdisk at 0x1800.  The size is 0x4200 - 0x200 - 0x1800 = 0x2800. *)
Example find_ramdisk_size_old_scenario4 :
  fst (Loki.find_ramdisk_size_old demo_android_header 0x1800
         (rstate (repeat 0 (Z.to_nat 0x4200)) 0))
  = inr 0x2800.
Proof.
  rewrite find_ramdisk_size_old_small.
  - vm_compute. reflexivity.
  - reflexivity.
  - vm_compute. split; [discriminate | reflexivity].
  - discriminate.
  - vm_compute. split; [discriminate | reflexivity].
Qed.

Lemma zlength_app {A : Type} (a b : list A) :
  zlength (a ++ b) = zlength a + zlength b.
Proof. unfold zlength. rewrite length_app. lia. Qed.

Lemma zlength_repeat {A : Type} (x : A) (n : Z) :
  0 <= n -> zlength (repeat x (Z.to_nat n)) = n.
Proof. intros H. unfold zlength. rewrite repeat_length. lia. Qed.

(** Reading in the first part of the data, and behind it. *)
Lemma slice_front (a b : list byte) (off n : Z) :
  0 <= off -> 0 <= n -> off + n <= zlength a ->
  slice (a ++ b) off n = slice a off n.
Proof.
  intros Ho Hn H. unfold slice, zlength in *.
  rewrite skipn_app, firstn_app, length_skipn.
  replace (Z.to_nat n - (length a - Z.to_nat off))%nat with 0%nat by lia.
  cbn [firstn]. apply app_nil_r.
Qed.

Lemma slice_behind (pre tail : list byte) (off n : Z) :
  0 <= off ->
  slice (pre ++ tail) (zlength pre + off) n = slice tail off n.
Proof.
  intros H. unfold slice, zlength.
  replace (Z.to_nat (Z.of_nat (length pre) + off))
    with (length pre + Z.to_nat off)%nat by lia.
  rewrite skipn_app, skipn_all2 by lia. cbn [app].
  do 2 f_equal. lia.
Qed.

Lemma match_at_behind (pat pre tail : list byte) (hi off : Z) :
  0 <= off ->
  match_at pat (pre ++ tail) (zlength pre + hi) (zlength pre + off)
  = match_at pat tail hi off.
Proof.
  intros H. unfold match_at. rewrite slice_behind by exact H.
  pose proof (zlength_nonneg pre) as P.
  destruct (Z.leb_spec 0 (zlength pre + off)), (Z.leb_spec 0 off); try lia.
  destruct (Z.leb_spec (zlength pre + off + zlength pat) (zlength pre + hi)),
           (Z.leb_spec (off + zlength pat) hi); try lia; reflexivity.
Qed.

Lemma has_flags_behind (pre tail : list byte) (fl m : Z) :
  0 <= m ->
  has_flags (pre ++ tail) fl (zlength pre + m) = has_flags tail fl m.
Proof.
  intros H. unfold has_flags.
  replace (zlength pre + m + 3) with (zlength pre + (m + 3)) by lia.
  rewrite slice_behind by lia. reflexivity.
Qed.

Lemma filter_behind (pat pre tail : list byte) (hi : Z) (l : list Z) :
  (forall x, In x l -> 0 <= x) ->
  filter (match_at pat (pre ++ tail) (zlength pre + hi))
         (map (Z.add (zlength pre)) l)
  = map (Z.add (zlength pre)) (filter (match_at pat tail hi) l).
Proof.
  induction l as [|x l IH]; intros H; [reflexivity|].
  cbn [map filter].
  rewrite match_at_behind by (apply H; left; reflexivity).
  rewrite IH by (intros y I; apply H; right; exact I).
  destruct (match_at pat tail hi x); reflexivity.
Qed.

(** The occurrences behind a prefix are those of the rest, shifted. *)
Lemma occurrences_behind (pat pre tail : list byte) (lo hi : Z) :
  0 <= lo ->
  occurrences pat (pre ++ tail) (zlength pre + lo) (zlength pre + hi)
  = map (Z.add (zlength pre)) (occurrences pat tail lo hi).
Proof.
  intros H. unfold occurrences.
  replace (zlength pre + hi - (zlength pre + lo)) with (hi - lo) by lia.
  rewrite <- filter_behind.
  - rewrite map_map. f_equal. apply map_ext. intros i. lia.
  - intros x I. apply in_map_iff in I. destruct I as (i & <- & _). lia.
Qed.

Lemma find_behind (pre tail : list byte) (fl : Z) (l : list Z) :
  (forall x, In x l -> 0 <= x) ->
  find (has_flags (pre ++ tail) fl) (map (Z.add (zlength pre)) l)
  = option_map (Z.add (zlength pre)) (find (has_flags tail fl) l).
Proof.
  induction l as [|x l IH]; intros H; [reflexivity|].
  cbn [map find].
  rewrite has_flags_behind by (apply H; left; reflexivity).
  destruct (has_flags tail fl x); [reflexivity|].
  apply IH. intros y I. apply H. right. exact I.
Qed.

Lemma first_gzip_offset_behind (pre tail : list byte) (lo : Z) :
  0 <= lo ->
  first_gzip_offset (pre ++ tail) (zlength pre + lo)
  = match first_gzip_offset tail lo with
    | inl e => inl e
    | inr o => inr (zlength pre + o)
    end.
Proof.
  intros H. unfold first_gzip_offset.
  rewrite zlength_app, occurrences_behind by exact H.
  assert (P : forall x, In x (occurrences Loki.gzip_deflate_magic tail lo
                                          (zlength tail)) -> 0 <= x).
  { intros x I. apply occurrences_In in I. lia. }
  rewrite !find_behind by exact P.
  destruct (find (has_flags tail 8) _); [reflexivity|].
  destruct (find (has_flags tail 0) _); reflexivity.
Qed.

(** [read_header_old] on the kernel and the ramdisk of [wide_page_image]
    behind any header page of 0x80000800 bytes. *)
Lemma read_header_old_wide_run (pre : list byte) :
  zlength pre = 0x80000800 ->
  exists l s',
    Loki.read_header_old demo_shellcode wide_page_header
      (mkLokiHeader LOKI_MAGIC 0 0 0 0) (rstate (pre ++ wide_page_tail) 0)
    = (inr l, s')
    /\ Loki.lo_kernel_offset l = 0x80000800
    /\ Loki.lo_kernel_size l = 0
    /\ Loki.lo_ramdisk_offset l = 0x80000900
    /\ Loki.lo_ramdisk_size l = 0x80000700.
Proof.
  intros HP.
  set (d := pre ++ wide_page_tail).
  assert (HT : zlength wide_page_tail = 0x1000) by (vm_compute; reflexivity).
  assert (HL : zlength d = 0x80001800)
    by (unfold d; rewrite zlength_app, HP, HT; reflexivity).
  assert (HK : slice d 0x8000082c 4 = [0; 0; 0; 0]).
  { unfold d.
    replace 0x8000082c with (zlength pre + 0x2c) by (rewrite HP; reflexivity).
    rewrite slice_behind by lia. vm_compute. reflexivity. }
  assert (HG : first_gzip_offset d 0x80000800 = inr 0x80000900).
  { unfold d.
    replace 0x80000800 with (zlength pre + 0) at 1
      by (rewrite HP; reflexivity).
    rewrite first_gzip_offset_behind by lia.
    assert (E : first_gzip_offset wide_page_tail 0 = inr 0x100)
      by (vm_compute; reflexivity).
    rewrite E, HP. reflexivity. }
  unfold Loki.read_header_old.
  change (page_size wide_page_header =? 0) with false. cbv iota.
  unfold bind.
  rewrite find_linux_kernel_size_run by reflexivity.
  change (page_size wide_page_header) with 0x80000800.
  change (u32 (0x80000800 + 44)) with 0x8000082c.
  unfold rstate, healthy, set_pos.
  cbn [rs_file rs_fatal f_data f_pos f_faults f_fatal].
  rewrite HK, HL.
  change (0x8000082c + 4 <=? 0x80001800) with true. cbv iota.
  change (le32_value [0; 0; 0; 0]) with 0.
  change (u32 (0x80000800 + 0 + u32 (align_page_size 0 0x80000800)))
    with 0x80000800.
  match goal with
  | |- context [mkFile d ?p [] false] => set (p0 := p)
  end.
  destruct (@find_gzip_offset_old_run 0x80000800 d p0 false false)
    as (pos' & G & Hp').
  { vm_compute. split; [discriminate | reflexivity]. }
  { rewrite HL. reflexivity. }
  { discriminate. }
  rewrite G, HG. clear G.
  change (u32 0x80000900) with 0x80000900.
  rewrite find_ramdisk_size_old_run.
  - cbn [rs_file f_data]. rewrite HL.
    change (aboot_offset_of wide_page_header 0x80001800) with 0x100001000.
    change (0x80000900 >? 0x100001000) with false. cbv iota.
    change (u32 (0x100001000 - 0x80000900)) with 0x80000700.
    unfold Loki.find_ramdisk_address.
    cbn [lh_ramdisk_addr]. change (negb (0 =? 0)) with false. cbv iota.
    change (kernel_addr wide_page_header >? UINT32_MAX - 0x01ff8000)
      with false.
    cbv iota.
    unfold ret. eexists. eexists. split; [reflexivity|].
    cbn [Loki.lo_kernel_offset Loki.lo_kernel_size Loki.lo_ramdisk_offset
         Loki.lo_ramdisk_size].
    repeat split.
  - reflexivity.
  - cbn [rs_file f_data]. rewrite HL. vm_compute. discriminate.
Qed.

(** C4 does not hold of the source for a page size of 2^31 or more.
    [find_ramdisk_size_old] keeps the size of the aboot copy in an
    [int32_t], so the page size 0x80000800 of an LG image is read as
    -0x7ffff800 and the seek goes 0x7ffff800 bytes past the end of the
    file instead of 0x80000800 bytes before it.  [wide_page_image] is an
    old-style Loki image of 0x80001800 bytes: it holds the Android header
    at 0 and a Loki header at 0x400 whose sizes and address are 0, and
    [read_header_old] reads it through, finding the ramdisk at 0x80000900
    and reporting 0x80000700 bytes for it, which is what
    [find_ramdisk_size_old] yields for that offset.  By the claim the aboot
    copy begins at 0x80001800 - 0x80000800 = 0x1000, before the ramdisk,
    and the read fails with [RamdiskOffsetGreaterThanAbootOffset]. *)
Theorem find_ramdisk_size_old_wide_page_size :
  zlength wide_page_image = 0x80001800
  /\ slice wide_page_image 0 48 = spec_header_bytes wide_page_header
  /\ loki_header_of_bytes (slice wide_page_image 0x400 0x50)
     = mkLokiHeader LOKI_MAGIC 0 0 0 0
  /\ Loki.is_new_style (mkLokiHeader LOKI_MAGIC 0 0 0 0) = false
  /\ (exists l s',
        Loki.read_header_old demo_shellcode wide_page_header
          (mkLokiHeader LOKI_MAGIC 0 0 0 0) (rstate wide_page_image 0)
        = (inr l, s')
        /\ Loki.lo_ramdisk_offset l = 0x80000900
        /\ Loki.lo_ramdisk_size l = 0x80000700)
  /\ fst (Loki.find_ramdisk_size_old wide_page_header 0x80000900
            (rstate wide_page_image 0)) = inr 0x80000700
  /\ claimed_ramdisk_size wide_page_header (zlength wide_page_image)
                          0x80000900
     = inl (ErrLoki RamdiskOffsetGreaterThanAbootOffset).
Proof.
  assert (HF : zlength wide_header_front = 0x800) by (vm_compute; reflexivity).
  assert (HP : zlength wide_header_page = 0x80000800).
  { unfold wide_header_page.
    rewrite zlength_app, HF, zlength_repeat by discriminate. reflexivity. }
  assert (HT : zlength wide_page_tail = 0x1000) by (vm_compute; reflexivity).
  assert (HL : zlength wide_page_image = 0x80001800)
    by (unfold wide_page_image; rewrite zlength_app, HP, HT; reflexivity).
  assert (S : forall off n, 0 <= off -> 0 <= n -> off + n <= 0x800 ->
                slice wide_page_image off n = slice wide_header_front off n).
  { intros off n Ho Hn H. unfold wide_page_image, wide_header_page.
    rewrite <- app_assoc. apply slice_front; [exact Ho | exact Hn |].
    rewrite HF. exact H. }
  split; [exact HL|].
  split; [rewrite S by (vm_compute; discriminate); vm_compute; reflexivity|].
  split; [rewrite S by (vm_compute; discriminate); vm_compute; reflexivity|].
  split; [reflexivity|].
  split; [|split].
  - destruct (read_header_old_wide_run _ HP) as (l & s' & E & _ & _ & O & Z).
    exists l, s'. split; [exact E|]. split; [exact O | exact Z].
  - rewrite find_ramdisk_size_old_run.
    + unfold fst. unfold rstate, healthy. cbn [rs_file f_data]. rewrite HL.
      reflexivity.
    + reflexivity.
    + unfold rstate, healthy. cbn [rs_file f_data]. rewrite HL.
      vm_compute. discriminate.
  - rewrite HL. reflexivity.
Qed.

(** ** [write_header] *)

Lemma seek_ok (off : Z) (w : Whence) (f f' : File) (p : Z) :
  seek off w f = (inr p, f') ->
  f_pos f' = p /\ f_data f' = f_data f
  /\ p = match w with
         | SEEK_SET => 0
         | SEEK_CUR => f_pos f
         | SEEK_END => zlength (f_data f)
         end + off.
Proof.
  unfold seek. destruct (io_step f) as [[e|] f1] eqn:Eio; [discriminate|].
  destruct (io_step_data _ Eio) as [Ed Ep].
  destruct (_ <? 0); [discriminate|].
  intros Q. inversion Q; subst; clear Q. cbn [set_pos f_pos f_data].
  rewrite Ed, Ep. repeat split.
Qed.

(** The arrays of the header after a [write_header] that returns
    [RET_OK]. *)
Lemma write_header_arrays (header : Header)
      (w w' : Android.AndroidFormatWriter) (ws ws' : WState) :
  Android.write_header header w ws = (RET_OK, w', ws') ->
  fits BOOT_NAME_SIZE (board_name header) = true
  /\ fits BOOT_ARGS_SIZE (kernel_cmdline header) = true
  /\ name (Android._hdr w')
     = string_field BOOT_NAME_SIZE (board_name header)
  /\ cmdline (Android._hdr w')
     = string_field BOOT_ARGS_SIZE (kernel_cmdline header)
  /\ id (Android._hdr w') = repeat 0 (Z.to_nat SHA_DIGEST_LENGTH).
Proof.
  unfold Android.write_header.
  destruct (h_page_size header) as [psz|]; [|discriminate].
  destruct (Android.valid_page_size psz); [|discriminate].
  cbn [negb]. cbv iota. unfold fits, string_field.
  destruct (board_name header) as [bn|];
    [destruct (Z.geb_spec (zlength bn) BOOT_NAME_SIZE) as [Gb|Gb];
     [discriminate|]|];
    (destruct (kernel_cmdline header) as [cl|];
     [destruct (Z.geb_spec (zlength cl) BOOT_ARGS_SIZE) as [Gc|Gc];
      [discriminate|]|]).
  all: cbn [SegmentWriter.set_entries SegmentWriter.distinct_types
            SegmentWriter.has_type SegmentWriter.swe_type EntryType_eqb
            negb andb orb].
  all: destruct (seek _ SEEK_SET (ws_file ws)) as [[err|off] f'];
    [ pose proof (failed_or_fatal_not_ok f') as F;
      destruct (failed_or_fatal f'); try contradiction; discriminate |].
  all: intros Q; inversion Q; subst w' ws'; clear Q.
  all: split; [first [reflexivity | apply Z.ltb_lt; lia]|].
  all: split; [first [reflexivity | apply Z.ltb_lt; lia]|].
  all: destruct (kernel_address header), (ramdisk_address header),
         (secondboot_address header), (kernel_tags_address header);
    repeat split.
Qed.

(** X9.  A [write_header] that returns [RET_OK] was given one of the seven
    page sizes and strings that fit.  It has built the header from
    scratch: the magic, the four addresses of the caller (0 where unset),
    the page size and the two strings, with the four sizes, the unused word
    and the id at 0 whatever the writer held before.  It has installed the
    four entries kernel, ramdisk, secondboot and device tree, aligned to the
    page size, with the cursor before the first, and has left the file
    positioned at the page size with its data as they were.  It touches
    neither the SHA-1 context nor the remembered file size nor the error of
    the writer. *)
Theorem write_header_success :
  forall (header : Header) (w w' : Android.AndroidFormatWriter)
         (ws ws' : WState),
    Android.write_header header w ws = (RET_OK, w', ws') ->
    exists psz,
      h_page_size header = Some psz
      /\ In psz PAGE_SIZES
      /\ fits BOOT_NAME_SIZE (board_name header) = true
      /\ fits BOOT_ARGS_SIZE (kernel_cmdline header) = true
      /\ Android._hdr w'
         = mkAndroidHeader BOOT_MAGIC
             0 (value_or 0 (kernel_address header))
             0 (value_or 0 (ramdisk_address header))
             0 (value_or 0 (secondboot_address header))
             (value_or 0 (kernel_tags_address header))
             psz 0 0
             (string_field BOOT_NAME_SIZE (board_name header))
             (string_field BOOT_ARGS_SIZE (kernel_cmdline header))
             (repeat 0 (Z.to_nat SHA_DIGEST_LENGTH))
      /\ Android._seg w'
         = SegmentWriter.mk
             (map (fun ty => SegmentWriter.mkSegmentWriterEntry ty 0 None psz)
                  [ENTRY_TYPE_KERNEL; ENTRY_TYPE_RAMDISK;
                   ENTRY_TYPE_SECONDBOOT; ENTRY_TYPE_DEVICE_TREE])
             SegmentWriter.BeforeFirst 0
      /\ f_pos (ws_file ws') = psz
      /\ f_data (ws_file ws') = f_data (ws_file ws)
      /\ Android._sha_ctx w' = Android._sha_ctx w
      /\ Android._file_size w' = Android._file_size w
      /\ Android._is_bump w' = Android._is_bump w
      /\ ws_error ws' = ws_error ws.
Proof.
  intros header w w' ws ws'. unfold Android.write_header.
  destruct (h_page_size header) as [psz|]; [|discriminate].
  destruct (Android.valid_page_size psz) eqn:V; [|discriminate].
  cbn [negb]. cbv iota.
  apply valid_page_size_In in V.
  unfold fits, string_field.
  destruct (board_name header) as [bn|];
    [destruct (Z.geb_spec (zlength bn) BOOT_NAME_SIZE) as [Gb|Gb];
     [discriminate|]|];
    (destruct (kernel_cmdline header) as [cl|];
     [destruct (Z.geb_spec (zlength cl) BOOT_ARGS_SIZE) as [Gc|Gc];
      [discriminate|]|]).
  all: cbn [SegmentWriter.set_entries SegmentWriter.distinct_types
            SegmentWriter.has_type SegmentWriter.swe_type EntryType_eqb
            negb andb orb].
  all: destruct (seek _ SEEK_SET (ws_file ws)) as [[err|off] f'] eqn:Es;
    [ pose proof (failed_or_fatal_not_ok f') as F;
      destruct (failed_or_fatal f'); try contradiction; discriminate |].
  all: destruct (seek_ok _ _ _ Es) as (Sp & Sd & So).
  all: intros Q; inversion Q; subst w' ws'; clear Q.
  all: exists psz; split; [reflexivity|]; split; [exact V|].
  all: split; [first [reflexivity | apply Z.ltb_lt; lia]|].
  all: split; [first [reflexivity | apply Z.ltb_lt; lia]|].
  all: cbn [Android._hdr Android._seg Android._sha_ctx Android._file_size
            Android._is_bump Android.set_hdr Android.set_seg ws_file
            ws_error with_file page_size Android.with_cmdline
            Android.with_name Android.with_page_size] in *.
  all: split; [destruct (kernel_address header), (ramdisk_address header),
               (secondboot_address header), (kernel_tags_address header);
               reflexivity|].
  all: split; [reflexivity|].
  all: split; [rewrite Sp, So; reflexivity|].
  all: split; [exact Sd|]; repeat split.
Qed.

Lemma write_header_success_witness :
  f_pos (ws_file (result_state scenario1_header)) = 2048
  /\ name (Android._hdr (result_obj scenario1_header))
     = [106; 102; 108; 116; 101] ++ repeat 0 11
  /\ kernel_size (Android._hdr (result_obj scenario1_header)) = 0.
Proof.
  destruct (@write_header_success (demo_header (Some 2048))
              (fresh_writer false) (result_obj scenario1_header)
              (wstate [] 0) (result_state scenario1_header)
              ltac:(vm_compute; reflexivity))
    as (psz & P & _ & _ & _ & H & _ & Fp & _).
  injection P as <-. split; [exact Fp|].
  rewrite H. split; vm_compute; reflexivity.
Defined.

(** ** The strings of the header *)

Lemma c_str_nonzero (l : list byte) : forall x, In x (c_str l) -> x <> 0.
Proof.
  induction l as [|b l IH]; intros x I; [destruct I|].
  cbn [c_str] in I. destruct (Z.eqb_spec b 0) as [E|E]; [destruct I|].
  destruct I as [<-|I]; [exact E | apply IH; exact I].
Qed.

Lemma c_str_length (l : list byte) : (length (c_str l) <= length l)%nat.
Proof.
  induction l as [|b l IH]; [apply le_n|].
  cbn [c_str]. destruct (b =? 0); cbn [length]; lia.
Qed.

Lemma c_str_app_zeros (l : list byte) (k : nat) :
  (forall x, In x l -> x <> 0) -> c_str (l ++ repeat 0 k) = l.
Proof.
  induction l as [|b l IH]; intros H.
  - destruct k; reflexivity.
  - cbn [app c_str].
    destruct (Z.eqb_spec b 0) as [E|E];
      [exfalso; exact (H b (or_introl eq_refl) E)|].
    rewrite IH; [reflexivity|]. intros x I. apply H. right. exact I.
Qed.

Lemma c_str_id (l : list byte) : ~ In 0 l -> c_str l = l.
Proof.
  intros H. rewrite <- (app_nil_r l) at 1.
  apply (@c_str_app_zeros l 0%nat).
  intros x I E. subst x. exact (H I).
Qed.

Lemma strncpy_field_spec (n : Z) (s : list byte) :
  zlength s < n ->
  zlength (Android.strncpy_field n s) = n
  /\ c_str (Android.strncpy_field n s) = c_str s
  /\ nth (Z.to_nat (n - 1)) (Android.strncpy_field n s) 1 = 0.
Proof.
  intros H. unfold Android.strncpy_field.
  pose proof (c_str_length s) as L. unfold zlength in H.
  rewrite firstn_all2 by lia.
  split; [|split].
  - unfold zlength. rewrite length_app, repeat_length. lia.
  - apply c_str_app_zeros. apply c_str_nonzero.
  - rewrite app_nth2 by lia. apply nth_repeat_lt. lia.
Qed.

(** X10.  After a [write_header] that returns [RET_OK] the name field of
    the header is 16 bytes long and the command line field 512, each ends
    with a NUL, and each reads back, as the Loki reader reads the fields of
    an Android header, as the string the caller gave up to its first NUL:
    as the string itself when it holds no NUL, and as the empty string when
    the caller gave none. *)
Theorem write_header_strings :
  forall (header : Header) (w w' : Android.AndroidFormatWriter)
         (ws ws' : WState),
    Android.write_header header w ws = (RET_OK, w', ws') ->
    let h := Android._hdr w' in
    zlength (name h) = BOOT_NAME_SIZE
    /\ zlength (cmdline h) = BOOT_ARGS_SIZE
    /\ nth 15 (name h) 1 = 0
    /\ nth 511 (cmdline h) 1 = 0
    /\ Loki.array_string (name h) = c_str (value_or [] (board_name header))
    /\ Loki.array_string (cmdline h)
       = c_str (value_or [] (kernel_cmdline header))
    /\ (forall s, board_name header = Some s -> ~ In 0 s ->
        Loki.array_string (name h) = s)
    /\ (forall s, kernel_cmdline header = Some s -> ~ In 0 s ->
        Loki.array_string (cmdline h) = s).
Proof.
  intros header w w' ws ws' H.
  destruct (write_header_arrays _ _ _ H) as (Fn & Fc & Hn & Hc & _).
  cbv zeta. rewrite Hn, Hc. unfold Loki.array_string.
  assert (N : zlength (string_field BOOT_NAME_SIZE (board_name header))
              = BOOT_NAME_SIZE
              /\ c_str (string_field BOOT_NAME_SIZE (board_name header))
                 = c_str (value_or [] (board_name header))
              /\ nth 15 (string_field BOOT_NAME_SIZE (board_name header)) 1
                 = 0).
  { unfold fits in Fn. destruct (board_name header) as [s|].
    - apply Z.ltb_lt in Fn. exact (@strncpy_field_spec _ _ Fn).
    - repeat split. }
  assert (C : zlength (string_field BOOT_ARGS_SIZE (kernel_cmdline header))
              = BOOT_ARGS_SIZE
              /\ c_str (string_field BOOT_ARGS_SIZE (kernel_cmdline header))
                 = c_str (value_or [] (kernel_cmdline header))
              /\ nth 511
                     (string_field BOOT_ARGS_SIZE (kernel_cmdline header)) 1
                 = 0).
  { unfold fits in Fc. destruct (kernel_cmdline header) as [s|].
    - apply Z.ltb_lt in Fc. exact (@strncpy_field_spec _ _ Fc).
    - repeat split. }
  destruct N as (N1 & N2 & N3), C as (C1 & C2 & C3).
  repeat (split; [assumption|]).
  split.
  - intros s E Z0. rewrite N2, E. apply c_str_id. exact Z0.
  - intros s E Z0. rewrite C2, E. apply c_str_id. exact Z0.
Qed.

Lemma write_header_strings_witness :
  Loki.array_string (name (Android._hdr (result_obj scenario1_header)))
  = [106; 102; 108; 116; 101]
  /\ zlength (cmdline (Android._hdr (result_obj scenario1_header))) = 512.
Proof.
  destruct (@write_header_strings (demo_header (Some 2048))
              (fresh_writer false) (result_obj scenario1_header)
              (wstate [] 0) (result_state scenario1_header)
              ltac:(vm_compute; reflexivity))
    as (_ & C & _ & _ & _ & _ & N & _).
  split; [|exact C].
  apply N; [reflexivity|].
  cbn. intros [E|[E|[E|[E|[E|[]]]]]]; discriminate E.
Defined.

(** X11.  With one of the seven page sizes, a board name of 16 bytes or
    more makes [write_header] fail with [BoardNameTooLong]; a board name
    that fits, or none, with a command line of 512 bytes or more makes it
    fail with [KernelCmdlineTooLong].  In both cases the call returns
    [RET_FAILED] before any entry is installed and before the file is
    touched; the SHA-1 context is as it was. *)
Theorem write_header_rejects_long_strings :
  forall (header : Header) (w : Android.AndroidFormatWriter) (ws : WState)
         (psz : Z),
    h_page_size header = Some psz ->
    In psz PAGE_SIZES ->
    let r := Android.write_header header w ws in
    let untouched :=
      result_ret r = RET_FAILED
      /\ ws_file (result_state r) = ws_file ws
      /\ Android._seg (result_obj r) = Android._seg w
      /\ Android._sha_ctx (result_obj r) = Android._sha_ctx w in
    (fits BOOT_NAME_SIZE (board_name header) = false ->
     ws_error (result_state r) = Some (ErrAndroid BoardNameTooLong)
     /\ untouched)
    /\ (fits BOOT_NAME_SIZE (board_name header) = true ->
        fits BOOT_ARGS_SIZE (kernel_cmdline header) = false ->
        ws_error (result_state r) = Some (ErrAndroid KernelCmdlineTooLong)
        /\ untouched).
Proof.
  intros header w ws psz Hp Hv. apply valid_page_size_In in Hv.
  cbv zeta. unfold Android.write_header. rewrite Hp, Hv.
  cbn [negb]. cbv iota. unfold fits.
  destruct (board_name header) as [bn|].
  - destruct (Z.geb_spec (zlength bn) BOOT_NAME_SIZE) as [Gb|Gb].
    + split; [intros _; repeat split|].
      intros F. apply Z.ltb_lt in F. lia.
    + split; [intros F; apply Z.ltb_ge in F; lia|]. intros _.
      destruct (kernel_cmdline header) as [cl|]; [|discriminate].
      intros F. apply Z.ltb_ge in F.
      destruct (Z.geb_spec (zlength cl) BOOT_ARGS_SIZE) as [Gc|Gc]; [|lia].
      repeat split.
  - split; [discriminate|]. intros _.
    destruct (kernel_cmdline header) as [cl|]; [|discriminate].
    intros F. apply Z.ltb_ge in F.
    destruct (Z.geb_spec (zlength cl) BOOT_ARGS_SIZE) as [Gc|Gc]; [|lia].
    repeat split.
Qed.

Lemma write_header_rejects_long_strings_witness :
  ws_error
    (result_state
       (Android.write_header
          (mkHeader NEW_SUPPORTED_FIELDS (Some (repeat 65 16)) None
                    (Some 4096) None None None None)
          (fresh_writer false) (wstate [] 0)))
  = Some (ErrAndroid BoardNameTooLong)
  /\ result_ret
       (Android.write_header
          (mkHeader NEW_SUPPORTED_FIELDS (Some (repeat 65 15)) None
                    (Some 4096) None None None None)
          (fresh_writer false) (wstate [] 0))
     = RET_OK.
Proof.
  split; [|vm_compute; reflexivity].
  destruct (@write_header_rejects_long_strings
              (mkHeader NEW_SUPPORTED_FIELDS (Some (repeat 65 16)) None
                        (Some 4096) None None None None)
              (fresh_writer false) (wstate [] 0) 4096 eq_refl
              ltac:(cbn; auto)) as [H _].
  exact (proj1 (H eq_refl)).
Defined.

(** ** The sizes and the id of the header *)

(** The cursor after a segment was written: on a slot of the list. *)
Lemma write_segment_cursor (chunks : list (list byte))
      (w w' : Android.AndroidFormatWriter) (ws ws' : WState) :
  write_segment chunks w ws = (RET_OK, w', ws') ->
  exists i,
    SegmentWriter.sw_cursor (Android._seg w') = SegmentWriter.AtEntry i
    /\ (i < length (SegmentWriter.sw_entries (Android._seg w')))%nat.
Proof.
  unfold write_segment.
  destruct (Android.get_entry w ws) as [[[r0 e] w0] ws0] eqn:G.
  destruct r0; try discriminate.
  destruct (get_entry_ok _ _ G) as (i & slot & C0 & N0 & _).
  unfold and_then.
  destruct (Android.write_entry e w0 ws0) as [[r1 w1] ws1] eqn:WE.
  destruct r1; try discriminate.
  destruct (write_entry_ok _ _ _ WE) as (Z1 & C1 & M1 & _).
  destruct (write_chunks chunks w1 ws1) as [[r2 w2] ws2] eqn:WC.
  destruct r2; try discriminate.
  destruct (write_chunks_ok _ _ _ WC) as (_ & Z2 & C2 & N2 & _).
  intros F.
  assert (Hc : 0 <= SegmentWriter.sw_entry_size (Android._seg w2))
    by (rewrite Z2, Z1; pose proof (zlength_nonneg (concat chunks)); lia).
  destruct (finish_entry_ok _ _ Hc F) as (_ & _ & _ & _ & C3 & M3 & _).
  exists i. split; [rewrite C3, C2, C1; exact C0|].
  apply (f_equal (@length _)) in M3, M1. rewrite !length_map in M3, M1.
  rewrite M3, N2, M1. apply nth_error_Some. rewrite N0. discriminate.
Qed.

(** [get_entry] behind the last slot. *)
Lemma get_entry_eof (w w' : Android.AndroidFormatWriter) (ws ws' : WState)
      (e : Entry) (i : nat) :
  SegmentWriter.sw_cursor (Android._seg w) = SegmentWriter.AtEntry i ->
  (i < length (SegmentWriter.sw_entries (Android._seg w)))%nat ->
  Android.get_entry w ws = (RET_EOF, e, w', ws') ->
  remaining_types (Android._seg w) = []
  /\ SegmentWriter.at_end (Android._seg w') = true
  /\ Android._hdr w' = Android._hdr w
  /\ Android._sha_ctx w' = Android._sha_ctx w
  /\ Android._is_bump w' = Android._is_bump w
  /\ ws' = ws.
Proof.
  intros C L. unfold Android.get_entry, SegmentWriter.get_entry.
  rewrite C. unfold remaining_types. rewrite C.
  destruct (Nat.ltb_spec (S i)
              (length (SegmentWriter.sw_entries (Android._seg w))))
    as [B|B].
  - unfold SegmentWriter.entry. cbn [SegmentWriter.sw_cursor
                                      SegmentWriter.sw_entries].
    destruct (nth_error (SegmentWriter.sw_entries (Android._seg w)) (S i))
      eqn:N; [discriminate|].
    apply nth_error_None in N. lia.
  - cbn [SegmentWriter.entry SegmentWriter.sw_cursor].
    intros Q. inversion Q; subst; clear Q.
    split; [apply skipn_all2; rewrite length_map; lia|].
    repeat split.
Qed.

Lemma write_segments_four (k r s d : list (list byte))
      (w w' : Android.AndroidFormatWriter) (ws ws' : WState) :
  remaining_types (Android._seg w)
  = [ENTRY_TYPE_KERNEL; ENTRY_TYPE_RAMDISK; ENTRY_TYPE_SECONDBOOT;
     ENTRY_TYPE_DEVICE_TREE] ->
  write_segments [k; r; s; d] w ws = (RET_OK, w', ws') ->
  Android._hdr w'
  = Android.with_dt_size (u32 (zlength (concat d)))
      (Android.with_second_size (u32 (zlength (concat s)))
         (Android.with_ramdisk_size (u32 (zlength (concat r)))
            (Android.with_kernel_size (u32 (zlength (concat k)))
               (Android._hdr w))))
  /\ remaining_types (Android._seg w') = []
  /\ exists i,
       SegmentWriter.sw_cursor (Android._seg w') = SegmentWriter.AtEntry i
       /\ (i < length (SegmentWriter.sw_entries (Android._seg w')))%nat.
Proof.
  intros R0. cbn [write_segments]. unfold and_then.
  destruct (write_segment k w ws) as [[r1 w1] ws1] eqn:W1.
  destruct r1; try discriminate.
  destruct (write_segment_ok _ _ _ W1) as (t1 & R1 & _ & H1).
  rewrite R0 in R1. injection R1 as <- R1. symmetry in R1.
  destruct (write_segment r w1 ws1) as [[r2 w2] ws2] eqn:W2.
  destruct r2; try discriminate.
  destruct (write_segment_ok _ _ _ W2) as (t2 & R2 & _ & H2).
  rewrite R1 in R2. injection R2 as <- R2. symmetry in R2.
  destruct (write_segment s w2 ws2) as [[r3 w3] ws3] eqn:W3.
  destruct r3; try discriminate.
  destruct (write_segment_ok _ _ _ W3) as (t3 & R3 & _ & H3).
  rewrite R2 in R3. injection R3 as <- R3. symmetry in R3.
  destruct (write_segment d w3 ws3) as [[r4 w4] ws4] eqn:W4.
  destruct r4; try discriminate.
  destruct (write_segment_ok _ _ _ W4) as (t4 & R4 & _ & H4).
  rewrite R3 in R4. injection R4 as <- R4. symmetry in R4.
  intros Q. inversion Q; subst; clear Q.
  split; [rewrite H4, H3, H2, H1; reflexivity|].
  split; [exact R4|].
  exact (write_segment_cursor _ _ _ W4).
Qed.

(** X12.  After a [write_header] and the four segments written in full,
    all with [RET_OK], the header of the writer is the one [write_header]
    built with the four size fields set to the number of bytes written for
    the kernel, the ramdisk, the secondboot image and the device tree, in
    this order and each cut to 32 bits; no slot is left, and the next
    [get_entry] reports [RET_EOF]. *)
Theorem header_sizes_after_segments :
  forall (header : Header) (k r s d : list (list byte))
         (w w1 w2 : Android.AndroidFormatWriter) (ws ws1 ws2 : WState),
    Android.write_header header w ws = (RET_OK, w1, ws1) ->
    write_segments [k; r; s; d] w1 ws1 = (RET_OK, w2, ws2) ->
    let h1 := Android._hdr w1 in
    Android._hdr w2
    = mkAndroidHeader (magic h1)
        (u32 (zlength (concat k))) (kernel_addr h1)
        (u32 (zlength (concat r))) (ramdisk_addr h1)
        (u32 (zlength (concat s))) (second_addr h1)
        (tags_addr h1) (page_size h1)
        (u32 (zlength (concat d))) (unused h1)
        (name h1) (cmdline h1) (id h1)
    /\ remaining_types (Android._seg w2) = []
    /\ fst (fst (fst (Android.get_entry w2 ws2))) = RET_EOF.
Proof.
  intros header k r s d w w1 w2 ws ws1 ws2 H W.
  destruct (write_header_ok _ _ _ H) as [R0 _].
  destruct (write_segments_four _ _ _ _ _ _ R0 W) as (Hh & R & i & C & L).
  cbv zeta. split; [rewrite Hh; reflexivity|]. split; [exact R|].
  unfold Android.get_entry, SegmentWriter.get_entry. rewrite C.
  unfold remaining_types in R. rewrite C in R.
  apply (f_equal (@length _)) in R.
  rewrite length_skipn, length_map in R. cbn [length] in R.
  destruct (Nat.ltb_spec (S i)
              (length (SegmentWriter.sw_entries (Android._seg w2))));
    [lia|].
  reflexivity.
Qed.

Lemma header_sizes_after_segments_witness :
  kernel_size (Android._hdr (result_obj scenario1_segments_written)) = 0x400
  /\ ramdisk_size (Android._hdr (result_obj scenario1_segments_written))
     = 0x100
  /\ second_size (Android._hdr (result_obj scenario1_segments_written)) = 0
  /\ dt_size (Android._hdr (result_obj scenario1_segments_written)) = 0
  /\ page_size (Android._hdr (result_obj scenario1_segments_written)) = 2048.
Proof.
  destruct (@header_sizes_after_segments (demo_header (Some 2048))
              [repeat 0xaa 0x400] [repeat 0xbb 0x100] [] []
              (fresh_writer false) (result_obj scenario1_header)
              (result_obj scenario1_segments_written)
              (wstate [] 0) (result_state scenario1_header)
              (result_state scenario1_segments_written)
              ltac:(vm_compute; reflexivity) ltac:(vm_compute; reflexivity))
    as (H & _).
  rewrite H. repeat split.
Defined.

(** X13.  The SHA-1 context and the header of the writer change only in a
    [write_data] or a [finish_entry] that returns [RET_OK]: [get_entry] and
    [write_entry] never touch them, and a [write_data] or [finish_entry]
    that returns anything else leaves both as they were, so that nothing is
    hashed that the segment writer did not accept.  (The SHA-1 functions
    themselves are taken not to fail.) *)
Theorem hash_changes_only_on_success :
  forall (w : Android.AndroidFormatWriter) (ws : WState),
    let kept (w' : Android.AndroidFormatWriter) :=
      Android._sha_ctx w' = Android._sha_ctx w
      /\ Android._hdr w' = Android._hdr w in
    kept (snd (fst (Android.get_entry w ws)))
    /\ (forall e, kept (result_obj (Android.write_entry e w ws)))
    /\ (forall buf,
           fst (fst (fst (Android.write_data buf w ws))) <> RET_OK ->
           kept (snd (fst (Android.write_data buf w ws))))
    /\ (result_ret (Android.finish_entry w ws) <> RET_OK ->
        kept (result_obj (Android.finish_entry w ws))).
Proof.
  intros w ws. cbv zeta. split; [|split; [|split]].
  - unfold Android.get_entry.
    destruct (SegmentWriter.get_entry (Android._seg w) ws)
      as [[[r e] seg] ws1].
    split; reflexivity.
  - intros e. unfold Android.write_entry.
    destruct (SegmentWriter.write_entry e (Android._seg w) ws)
      as [[r seg] ws1].
    split; reflexivity.
  - intros buf. unfold Android.write_data.
    destruct (SegmentWriter.write_data buf (Android._seg w) ws)
      as [[[r n] seg] ws1].
    destruct r; cbn [fst snd]; intros H;
      first [contradiction H; reflexivity | split; reflexivity].
  - unfold Android.finish_entry.
    destruct (SegmentWriter.finish_entry (Android._seg w) ws)
      as [[r seg] ws1].
    destruct r; try (intros _; split; reflexivity).
    cbn [Android._seg Android.set_seg].
    destruct (SegmentWriter.entry seg) as [slot|];
      [|intros _; split; reflexivity].
    unfold Android.SHA1_Update.
    destruct (negb (EntryType_eqb (SegmentWriter.swe_type slot)
                                  ENTRY_TYPE_DEVICE_TREE)
              || (Android.size_of slot >? 0));
      cbn [result_ret fst]; intros H; contradiction H; reflexivity.
Qed.

(** ** From [init] to [close] *)

Lemma write_fully_ok (buf : list byte) (f f' : File) (n : Z) :
  write_fully buf f = (inr n, f') ->
  f_data f' = write_at (f_pos f) buf (f_data f)
  /\ f_pos f' = f_pos f + zlength buf.
Proof.
  unfold write_fully. destruct (io_step f) as [[e|] f1] eqn:Eio;
    [discriminate|].
  destruct (io_step_data _ Eio) as [Ed Ep].
  intros Q. inversion Q; subst; clear Q.
  cbn [set_pos set_data f_data f_pos]. rewrite Ed, Ep. split; reflexivity.
Qed.

(** No call of the writer but [close] finalises the SHA-1 context. *)
Lemma write_data_finalised (buf : list byte) (w : Android.AndroidFormatWriter)
      (ws : WState) :
  Android.sha_finalised
    (Android._sha_ctx (snd (fst (Android.write_data buf w ws))))
  = Android.sha_finalised (Android._sha_ctx w).
Proof.
  unfold Android.write_data.
  destruct (SegmentWriter.write_data buf (Android._seg w) ws)
    as [[[r n] seg] ws1].
  destruct r; reflexivity.
Qed.

Lemma finish_entry_finalised (w : Android.AndroidFormatWriter) (ws : WState) :
  Android.sha_finalised
    (Android._sha_ctx (result_obj (Android.finish_entry w ws)))
  = Android.sha_finalised (Android._sha_ctx w).
Proof.
  unfold Android.finish_entry.
  destruct (SegmentWriter.finish_entry (Android._seg w) ws)
    as [[r seg] ws1].
  destruct r; try reflexivity.
  cbn [Android._seg Android.set_seg].
  destruct (SegmentWriter.entry seg) as [slot|]; [|reflexivity].
  unfold Android.SHA1_Update.
  destruct (negb (EntryType_eqb (SegmentWriter.swe_type slot)
                                ENTRY_TYPE_DEVICE_TREE)
            || (Android.size_of slot >? 0)); reflexivity.
Qed.

Lemma write_chunks_finalised (chunks : list (list byte)) :
  forall (w : Android.AndroidFormatWriter) (ws : WState),
    Android.sha_finalised
      (Android._sha_ctx (result_obj (write_chunks chunks w ws)))
    = Android.sha_finalised (Android._sha_ctx w).
Proof.
  induction chunks as [|buf chunks IH]; intros w ws; [reflexivity|].
  cbn [write_chunks].
  pose proof (write_data_finalised buf w ws) as D.
  destruct (Android.write_data buf w ws) as [[[r n] w1] ws1].
  cbn [fst snd] in D.
  destruct r; try exact D. rewrite IH. exact D.
Qed.

Lemma write_segment_finalised (chunks : list (list byte))
      (w : Android.AndroidFormatWriter) (ws : WState) :
  Android.sha_finalised
    (Android._sha_ctx (result_obj (write_segment chunks w ws)))
  = Android.sha_finalised (Android._sha_ctx w).
Proof.
  unfold write_segment, Android.get_entry.
  destruct (SegmentWriter.get_entry (Android._seg w) ws)
    as [[[r0 e] seg0] ws0].
  destruct r0; try reflexivity.
  unfold and_then, Android.write_entry.
  cbn [Android._seg Android.set_seg].
  destruct (SegmentWriter.write_entry e seg0 ws0) as [[r1 seg1] ws1].
  destruct r1; try reflexivity.
  pose proof (write_chunks_finalised chunks
                (Android.set_seg seg1 (Android.set_seg seg0 w)) ws1) as C.
  destruct (write_chunks chunks _ ws1) as [[r2 w2] ws2].
  unfold result_obj in C. cbn [fst snd] in C.
  destruct r2; try exact C.
  rewrite finish_entry_finalised. exact C.
Qed.

Lemma write_segments_finalised (segs : list (list (list byte))) :
  forall (w : Android.AndroidFormatWriter) (ws : WState),
    Android.sha_finalised
      (Android._sha_ctx (result_obj (write_segments segs w ws)))
    = Android.sha_finalised (Android._sha_ctx w).
Proof.
  induction segs as [|chunks segs IH]; intros w ws; [reflexivity|].
  cbn [write_segments]. unfold and_then.
  pose proof (write_segment_finalised chunks w ws) as S.
  destruct (write_segment chunks w ws) as [[r w1] ws1].
  unfold result_obj in S. cbn [fst snd] in S.
  destruct r; try exact S. rewrite IH. exact S.
Qed.

(** A [close] that returns [RET_OK] with every segment finished. *)
Lemma close_ok_at_end (SHA1 : list byte -> list byte)
      (SHA1_refinal : list (list byte) -> list byte -> list byte)
      (header_bytes : AndroidHeader -> list byte)
      (w w' : Android.AndroidFormatWriter) (ws ws' : WState) :
  Android.close SHA1 SHA1_refinal header_bytes w ws = (RET_OK, w', ws') ->
  SegmentWriter.at_end (Android._seg w) = true ->
  Android.sha_finalised (Android._sha_ctx w) = [] ->
  Android._hdr w'
  = Android.with_id
      (Android.memcpy (id (Android._hdr w))
                      (SHA1 (Android.sha_fed (Android._sha_ctx w)))
                      SHA_DIGEST_LENGTH)
      (Android._hdr w)
  /\ exists p,
       f_data (ws_file ws')
       = write_at 0 (header_bytes (Android._hdr w'))
           (write_at p (trailer_of w) (f_data (ws_file ws)))
       /\ (Android._file_size w = None -> p = f_pos (ws_file ws)).
Proof.
  intros H E Z0. unfold Android.close in H.
  assert (S1 : exists w1 f1 p,
             (match Android._file_size w with
              | Some file_size =>
                  match seek (i64 file_size) SEEK_SET (ws_file ws) with
                  | (inl err, f') => (inl err, w, f')
                  | (inr _, f') => (inr tt, w, f')
                  end
              | None =>
                  match seek 0 SEEK_CUR (ws_file ws) with
                  | (inl err, f') => (inl err, w, f')
                  | (inr file_size, f') =>
                      (inr tt, Android.set_file_size file_size w, f')
                  end
              end) = (inr tt, w1, f1)
             /\ f_pos f1 = p /\ f_data f1 = f_data (ws_file ws)
             /\ Android._hdr w1 = Android._hdr w
             /\ Android._sha_ctx w1 = Android._sha_ctx w
             /\ Android._seg w1 = Android._seg w
             /\ Android._is_bump w1 = Android._is_bump w
             /\ (Android._file_size w = None -> p = f_pos (ws_file ws))).
  { destruct (Android._file_size w) as [fs|].
    - destruct (seek (i64 fs) SEEK_SET (ws_file ws)) as [[err|q] f1] eqn:Es.
      + exfalso. pose proof (failed_or_fatal_not_ok f1) as F.
        destruct (failed_or_fatal f1); try contradiction; discriminate H.
      + destruct (seek_ok _ _ _ Es) as (Sp & Sd & _).
        exists w, f1, q. repeat split; try assumption. discriminate.
    - destruct (seek 0 SEEK_CUR (ws_file ws)) as [[err|q] f1] eqn:Es.
      + exfalso. pose proof (failed_or_fatal_not_ok f1) as F.
        destruct (failed_or_fatal f1); try contradiction; discriminate H.
      + destruct (seek_ok _ _ _ Es) as (Sp & Sd & Sq).
        exists (Android.set_file_size q w), f1, q.
        repeat split; try assumption. intros _. lia. }
  destruct S1 as (w1 & f1 & p & S1 & P1 & D1 & H1 & C1 & G1 & B1 & Pn).
  rewrite S1 in H. cbv beta iota zeta in H.
  rewrite G1, E, B1 in H. cbn [ws_file with_file] in H.
  fold (trailer_of w) in H.
  destruct (write_fully (trailer_of w) f1) as [[err|n] f2] eqn:W2.
  { exfalso. pose proof (failed_or_fatal_not_ok f2) as F.
    destruct (failed_or_fatal f2); try contradiction; discriminate H. }
  destruct (write_fully_ok _ _ W2) as [D2 _].
  destruct (negb (n =? (if Android._is_bump w then BUMP_MAGIC_SIZE
                        else SAMSUNG_SEANDROID_MAGIC_SIZE))).
  { exfalso. pose proof (failed_or_fatal_not_ok f2) as F.
    destruct (failed_or_fatal f2); try contradiction; discriminate H. }
  unfold Android.SHA1_Final in H. rewrite C1, Z0 in H.
  cbv beta iota zeta in H.
  cbn [Android._hdr Android.set_hdr Android.set_sha ws_file with_file] in H.
  destruct (seek 0 SEEK_SET f2) as [[err|q] f3] eqn:S3.
  { exfalso. pose proof (failed_or_fatal_not_ok f3) as F.
    destruct (failed_or_fatal f3); try contradiction; discriminate H. }
  destruct (seek_ok _ _ _ S3) as (P3 & D3 & Q3).
  match type of H with
  | context [write_fully ?hb f3] =>
      destruct (write_fully hb f3) as [[err|m] f4] eqn:W4
  end.
  { exfalso. pose proof (failed_or_fatal_not_ok f4) as F.
    destruct (failed_or_fatal f4); try contradiction; discriminate H. }
  destruct (write_fully_ok _ _ W4) as [D4 _].
  destruct (negb (m =? _)).
  { exfalso. pose proof (failed_or_fatal_not_ok f4) as F.
    destruct (failed_or_fatal f4); try contradiction; discriminate H. }
  inversion H; subst w' ws'; clear H.
  cbn [Android._hdr Android.set_hdr Android.set_sha ws_file with_file].
  rewrite ?H1, ?C1.
  split; [reflexivity|].
  exists p. split; [|exact Pn].
  rewrite D4, D3, D2, P3, Q3, P1, D1, ?H1, ?C1. reflexivity.
Qed.

Lemma memcpy_all (dst src : list byte) (n : Z) :
  zlength src = n -> zlength dst = n -> Android.memcpy dst src n = src.
Proof.
  unfold Android.memcpy, zlength. intros Hs Hd.
  rewrite firstn_all2 by lia. rewrite skipn_all2 by lia. apply app_nil_r.
Qed.

(** X14.  A writer taken from [init] through [write_header], the four
    segments, the [get_entry] that reports the end of the list, and
    [close], all as the caller of the library runs them and each with the
    expected return code, ends with the id of its header equal to the SHA-1
    digest of: the kernel, its size, the ramdisk, its size, the secondboot
    image, its size, the device tree and, unless the device tree is empty,
    its size; every size as a little-endian 32-bit word.  The rest of the
    header is as the segments left it, and the image of that header is what
    the file holds at offset 0. *)
Theorem image_id_covers_segments :
  forall (SHA1 : list byte -> list byte)
         (SHA1_refinal : list (list byte) -> list byte -> list byte)
         (header_bytes : AndroidHeader -> list byte)
         (header : Header) (k r s d : list (list byte))
         (w w0 w1 w2 w3 w4 : Android.AndroidFormatWriter)
         (ws ws0 ws1 ws2 ws3 ws4 : WState) (e : Entry),
    (forall l, zlength (SHA1 l) = SHA_DIGEST_LENGTH) ->
    Android.init w ws = (RET_OK, w0, ws0) ->
    Android.write_header header w0 ws0 = (RET_OK, w1, ws1) ->
    write_segments [k; r; s; d] w1 ws1 = (RET_OK, w2, ws2) ->
    Android.get_entry w2 ws2 = (RET_EOF, e, w3, ws3) ->
    Android.close SHA1 SHA1_refinal header_bytes w3 ws3
    = (RET_OK, w4, ws4) ->
    let size_of l := le32_bytes (u32 (zlength (concat l))) in
    let digest :=
      SHA1 (concat k ++ size_of k ++ concat r ++ size_of r
            ++ concat s ++ size_of s
            ++ concat d ++ (if zlength (concat d) =? 0 then []
                            else size_of d)) in
    id (Android._hdr w4) = digest
    /\ Android._hdr w4 = Android.with_id digest (Android._hdr w2)
    /\ slice (f_data (ws_file ws4)) 0
             (zlength (header_bytes (Android._hdr w4)))
       = header_bytes (Android._hdr w4).
Proof.
  intros SHA1 SHA1r hb header k r s d w w0 w1 w2 w3 w4 ws ws0 ws1 ws2 ws3
         ws4 e Hd I H W G C.
  unfold Android.init, Android.SHA1_Init in I.
  inversion I; subst w0 ws0; clear I.
  destruct (write_header_arrays _ _ _ H) as (_ & _ & _ & _ & H1).
  destruct (write_header_ok _ _ _ H) as [R1 S1].
  pose proof (@write_segments_ok _ _ _ _ _ W) as S2.
  rewrite R1, S1 in S2. cbn [Android._sha_ctx Android.set_sha
                             Android.sha_fed app] in S2.
  destruct (write_segments_four _ _ _ _ _ _ R1 W) as (H2 & _ & i & Ci & Li).
  destruct (get_entry_eof _ _ Ci Li G) as (_ & E3 & H3 & S3 & _).
  assert (Z3 : Android.sha_finalised (Android._sha_ctx w3) = []).
  { rewrite S3.
    pose proof (write_segments_finalised [k; r; s; d] w1 ws1) as Z.
    rewrite W in Z. unfold result_obj in Z. cbn [fst snd] in Z.
    rewrite Z, S1. reflexivity. }
  destruct (close_ok_at_end _ _ _ _ _ C E3 Z3) as (H4 & p & D4 & _).
  rewrite S3, S2, H3 in H4.
  assert (Id : id (Android._hdr w2) = repeat 0 (Z.to_nat SHA_DIGEST_LENGTH))
    by (rewrite H2; exact H1).
  rewrite Id in H4.
  rewrite memcpy_all in H4 by (first [apply Hd | reflexivity]).
  assert (Hh : hashed [ENTRY_TYPE_KERNEL; ENTRY_TYPE_RAMDISK;
                       ENTRY_TYPE_SECONDBOOT; ENTRY_TYPE_DEVICE_TREE]
                      [k; r; s; d]
               = concat k ++ le32_bytes (u32 (zlength (concat k)))
                 ++ concat r ++ le32_bytes (u32 (zlength (concat r)))
                 ++ concat s ++ le32_bytes (u32 (zlength (concat s)))
                 ++ concat d
                 ++ (if zlength (concat d) =? 0 then []
                     else le32_bytes (u32 (zlength (concat d))))).
  { cbn [hashed]. unfold size_bytes. cbn [EntryType_eqb andb].
    rewrite app_nil_r. reflexivity. }
  rewrite Hh in H4. cbv zeta.
  split; [rewrite H4; reflexivity|]. split; [exact H4|].
  rewrite D4. apply slice_write_at. lia.
Qed.

Lemma image_id_covers_segments_witness :
  let r := Android.close demo_digest demo_refinal spec_header_bytes
                         (result_obj scenario1_written)
                         (result_state scenario1_written) in
  id (Android._hdr (result_obj r))
  = demo_digest (repeat 0xaa 0x400 ++ le32_bytes 0x400
                 ++ repeat 0xbb 0x100 ++ le32_bytes 0x100 ++ le32_bytes 0)
  /\ kernel_size (Android._hdr (result_obj r)) = 0x400.
Proof.
  cbv zeta.
  destruct (@image_id_covers_segments demo_digest demo_refinal
              spec_header_bytes
              (demo_header (Some 2048))
              [repeat 0xaa 0x400] [repeat 0xbb 0x100] [] []
              (fresh_writer false) (fresh_writer false)
              (result_obj scenario1_header)
              (result_obj scenario1_segments_written)
              (result_obj scenario1_written)
              (result_obj (Android.close demo_digest demo_refinal
                             spec_header_bytes
                             (result_obj scenario1_written)
                             (result_state scenario1_written)))
              (wstate [] 0) (wstate [] 0)
              (result_state scenario1_header)
              (result_state scenario1_segments_written)
              (result_state scenario1_written)
              (result_state (Android.close demo_digest demo_refinal
                               spec_header_bytes
                               (result_obj scenario1_written)
                               (result_state scenario1_written)))
              (mkEntry None None)
              demo_digest_length
              ltac:(vm_compute; reflexivity) ltac:(vm_compute; reflexivity)
              ltac:(vm_compute; reflexivity) ltac:(vm_compute; reflexivity)
              ltac:(vm_compute; reflexivity))
    as (I & H & _).
  split.
  - rewrite I. vm_compute. reflexivity.
  - rewrite H. vm_compute. reflexivity.
Defined.

(** ** What [read_header] leaves in the reader *)

Ltac rh_fin :=
  cbn [Loki.set_seg Loki.set_android Loki.set_loki Loki._seg
       Loki._loki_offset Loki._header_offset Loki._loki_hdr Loki._hdr
       Loki.is_some fst snd];
  repeat match goal with
         | |- _ /\ _ => split
         | |- _ -> _ => intro
         | H : false = true |- _ => discriminate H
         | |- _ = _ =>
             first [ reflexivity | assumption | discriminate
                   | match goal with
                     | E : _ = Some _ |- _ => rewrite E; reflexivity
                     end ]
         end.

(** X15.  Whatever the header search does, a [read_header] that fails
    leaves the segment list of the reader as it was, and a [read_header]
    that succeeds leaves both header offsets set.  A Loki header offset
    that was set before the call is kept together with its header, and so
    is an Android header offset. *)
Theorem read_header_reader_state :
  forall (shellcode : list byte)
         (android_find_header : Z -> ST RState (AndroidHeader * Z))
         (st : Loki.OState),
    let r := Loki.read_header shellcode android_find_header st in
    let self := fst st in
    let self' := fst (snd r) in
    match fst r with
    | inl _ => Loki._seg self' = Loki._seg self
    | inr _ =>
        Loki.is_some (Loki._loki_offset self') = true
        /\ Loki.is_some (Loki._header_offset self') = true
    end
    /\ (Loki.is_some (Loki._loki_offset self) = true ->
        Loki._loki_offset self' = Loki._loki_offset self
        /\ Loki._loki_hdr self' = Loki._loki_hdr self)
    /\ (Loki.is_some (Loki._header_offset self) = true ->
        Loki._header_offset self' = Loki._header_offset self
        /\ Loki._hdr self' = Loki._hdr self).
Proof.
  intros shellcode afh [self s]. cbv zeta.
  unfold Loki.read_header, bind, Loki.get_self, Loki.put_self, Loki.lift,
    ret, fail.
  cbn [fst snd].
  destruct (Loki._loki_offset self) as [lo|] eqn:L;
    cbn [Loki.is_some negb fst snd].
  - destruct (Loki._header_offset self) as [ho|] eqn:H;
      cbn [Loki.is_some negb fst snd].
    + rewrite ?H. cbn [Loki.is_some negb fst snd].
      match goal with
      | |- context [match ?m s with _ => _ end] =>
          destruct (m s) as [[e|l] s1]
      end; cbn [fst snd]; [rh_fin|].
      rewrite set_entries_header_entries. rh_fin.
    + rewrite ?H. cbn [Loki.is_some negb fst snd].
      destruct (afh MAX_HEADER_OFFSET s) as [[e|[ah ao]] s1];
        cbn [fst snd]; [rh_fin|].
      match goal with
      | |- context [match ?m s1 with _ => _ end] =>
          destruct (m s1) as [[e|l] s2]
      end; cbn [fst snd]; [rh_fin|].
      rewrite set_entries_header_entries. rh_fin.
  - destruct (Loki.find_loki_header s) as [[e|[h off]] s1]; cbn [fst snd];
      [rh_fin|].
    cbn [Loki.set_loki Loki._header_offset].
    destruct (Loki._header_offset self) as [ho|] eqn:H;
      cbn [Loki.is_some negb fst snd].
    + match goal with
      | |- context [match ?m s1 with _ => _ end] =>
          destruct (m s1) as [[e|l] s2]
      end; cbn [fst snd]; [rh_fin|].
      rewrite set_entries_header_entries. rh_fin.
    + destruct (afh MAX_HEADER_OFFSET s1) as [[e|[ah ao]] s2];
        cbn [fst snd]; [rh_fin|].
      match goal with
      | |- context [match ?m s2 with _ => _ end] =>
          destruct (m s2) as [[e|l] s3]
      end; cbn [fst snd]; [rh_fin|].
      rewrite set_entries_header_entries. rh_fin.
Qed.

(** ** The hash and the chunks *)

Lemma hashed_concat (tys : list EntryType) :
  forall (segs segs' : list (list (list byte))),
    map (@concat byte) segs = map (@concat byte) segs' ->
    hashed tys segs = hashed tys segs'.
Proof.
  induction tys as [|ty tys IH]; intros segs segs' H;
    [destruct segs, segs'; reflexivity|].
  destruct segs as [|c segs], segs' as [|c' segs']; try discriminate H;
    [reflexivity|].
  cbn [map] in H. injection H as Hc Hs. cbn [hashed].
  rewrite Hc, (IH _ _ Hs). reflexivity.
Qed.

(** X16.  The bytes hashed do not depend on how the caller cuts a segment
    into [write_data] calls: two runs of segments from the same writer and
    state, each returning [RET_OK], whose segments hold the same bytes
    leave the same input in the SHA-1 context. *)
Theorem hash_independent_of_chunking :
  forall (segs segs' : list (list (list byte)))
         (w w1 w1' : Android.AndroidFormatWriter) (ws ws1 ws1' : WState),
    map (@concat byte) segs = map (@concat byte) segs' ->
    write_segments segs w ws = (RET_OK, w1, ws1) ->
    write_segments segs' w ws = (RET_OK, w1', ws1') ->
    Android.sha_fed (Android._sha_ctx w1)
    = Android.sha_fed (Android._sha_ctx w1').
Proof.
  intros segs segs' w w1 w1' ws ws1 ws1' H W W'.
  rewrite (@write_segments_ok _ _ _ _ _ W), (@write_segments_ok _ _ _ _ _ W').
  rewrite (hashed_concat _ _ _ H). reflexivity.
Qed.

Lemma hash_independent_of_chunking_witness :
  Android.sha_fed (Android._sha_ctx (result_obj scenario1_halved_written))
  = Android.sha_fed (Android._sha_ctx (result_obj scenario1_segments_written)).
Proof.
  apply (@hash_independent_of_chunking
           scenario1_segments_halved scenario1_segments
           (result_obj scenario1_header)
           (result_obj scenario1_halved_written)
           (result_obj scenario1_segments_written)
           (result_state scenario1_header)
           (result_state scenario1_halved_written)
           (result_state scenario1_segments_written)).
  - vm_compute. reflexivity.
  - vm_compute. reflexivity.
  - vm_compute. reflexivity.
Defined.
